(** * Chiswick Albion site crawler and mirror scripts: a shallow embedding

  The repository is a set of independent Node scripts that drive a
  browser (puppeteer) over one legacy web site.  Each script is embedded
  in a module of its own, named after the script, and keeps the names of
  the source functions.

  Conventions of the embedding:
  - a JavaScript string is a [string]; one [ascii] stands for one code
    unit (the site's URLs and file names are ASCII);
  - the browser and the network are an oracle [Net]: the outcome of the
    [n]-th navigation of a run to a given URL.  A navigation either
    throws, or leaves the page showing a [Document] and resolves to an
    optional [Response];
  - [this]-fields and module-level accumulators are threaded explicitly;
    observable effects (navigations, sleeps, file writes) are appended to
    an event log;
  - file-system calls are taken to succeed. *)

From Stdlib Require Import Ascii.
From stdpp Require Import gmap strings list pretty.

Set Default Proof Using "Type".

(** ** JavaScript string primitives used by the scripts *)

Module JS.

(** The double quote character, as a one-character string. *)
Definition dquote : string := String (ascii_of_nat 34) "".
Definition squote : string := String (ascii_of_nat 39) "".

(** [s.startsWith(p)] *)
Fixpoint startsWith (p s : string) : bool :=
  match p, s with
  | "", _ => true
  | String a p', String b s' => if decide (a = b) then startsWith p' s' else false
  | String _ _, "" => false
  end.

(** [s.includes(sub)] *)
Fixpoint includes (sub s : string) : bool :=
  startsWith sub s ||
  match s with
  | "" => false
  | String _ s' => includes sub s'
  end.

(** [s.endsWith(p)] *)
Definition endsWith (p s : string) : bool :=
  startsWith (String.rev p) (String.rev s).

(** [s.substring(0, n)] *)
Fixpoint take (n : nat) (s : string) : string :=
  match n, s with
  | S n', String a s' => String a (take n' s')
  | _, _ => ""
  end.

Fixpoint drop (n : nat) (s : string) : string :=
  match n, s with
  | S n', String _ s' => drop n' s'
  | _, _ => s
  end.

(** White space as [String.prototype.trim] sees it, among the code units
    below 256: TAB, LF, VT, FF, CR, SPACE and NBSP. *)
Definition isWhiteSpace (c : ascii) : bool :=
  let n := nat_of_ascii c in
  ((9 <=? n) && (n <=? 13)) || (n =? 32) || (n =? 160).

Fixpoint trimStart (s : string) : string :=
  match s with
  | "" => ""
  | String c s' => if isWhiteSpace c then trimStart s' else s
  end.

(** [s.trim()] *)
Definition trim (s : string) : string :=
  String.rev (trimStart (String.rev (trimStart s))).

(** A string used as a condition is truthy when it is not empty. *)
Definition truthy (s : string) : bool := negb (bool_decide (s = "")).

(** [`${n}`] for a non-negative integer. *)
Definition ofNat (n : nat) : string := pretty n.

Definition isAlnum (c : ascii) : bool :=
  let n := nat_of_ascii c in
  ((48 <=? n) && (n <=? 57)) || ((65 <=? n) && (n <=? 90)) ||
  ((97 <=? n) && (n <=? 122)).

(** [toLowerCase] on the letters A-Z. *)
Definition lowerChar (c : ascii) : ascii :=
  let n := nat_of_ascii c in
  if (65 <=? n) && (n <=? 90) then ascii_of_nat (n + 32) else c.

Fixpoint mapChars (f : ascii → ascii) (s : string) : string :=
  match s with
  | "" => ""
  | String c s' => String (f c) (mapChars f s')
  end.

(** [s.replace(pat, rep)] with a string pattern: the first occurrence
    only.  A string pattern may be empty, and then matches at once. *)
Fixpoint replaceFirst (pat rep s : string) : string :=
  if startsWith pat s then rep +:+ drop (String.length pat) s
  else match s with
       | "" => ""
       | String c s' => String c (replaceFirst pat rep s')
       end.

End JS.

(** ** The browser as the scripts see it *)

Module Browser.

(** What [extractImages] keeps of an [img[src]] element. *)
Record ImageData := {
  src : string;          (* img.src: resolved by the browser *)
  originalSrc : string;  (* img.getAttribute('src') *)
  alt : string;
  width : nat;
  height : nat
}.

(** An anchor element: the DOM property and the raw attribute. *)
Record Anchor := {
  href : string;                 (* a.href *)
  hrefAttribute : option string; (* a.getAttribute('href') *)
  innerText : option string
}.

(** The document shown by the page after a navigation. *)
Record Document := {
  title : string;                (* page.title() / document.title *)
  bodyInnerText : option string; (* document.body.innerText; None: no body *)
  content : string;              (* page.content() *)
  images : list ImageData;
  anchors : list Anchor
}.

Record Response := {
  status : nat;                  (* response.status() *)
  buffer : list Byte.byte        (* response.buffer() *)
}.

(** [response.ok()]: puppeteer answers [true] for a status from 200 to
    299, and also for the status 0. *)
Definition ok (r : Response) : bool :=
  (status r =? 0) || ((200 <=? status r) && (status r <=? 299)).

Inductive GotoOutcome :=
| Throws (message : string)
| Navigated (response : option Response) (doc : Document).

(** The outcome of the [n]-th navigation of a run, to the given URL. *)
Definition Net := nat → string → GotoOutcome.

End Browser.

(** ** The liveness classifier [testUrl]

  Five copies exist.  They share the acceptance test and differ in what
  a rejected 200 response reports: [url_tester.js] (first script) and
  [full_url_tester.js] build a message, the pagination scripts fall
  through to the status code. *)

Module Classifier.
Import Browser.

Inductive Status :=
| StatusCode (code : nat)
| StatusText (text : string).

(** The three shapes of object [testUrl] returns. *)
Inductive TestResult :=
| Accepted (title : string) (contentLength : nat) (* { success: true, title, contentLength } *)
| Rejected (st : Status)                          (* { success: false, status } *)
| Errored (error : string).                       (* { success: false, error } *)

Definition success (r : TestResult) : bool :=
  match r with Accepted _ _ => true | _ => false end.

(** [document.body ? document.body.innerText.trim() : ''] *)
Definition bodyText (d : Document) : string :=
  match bodyInnerText d with
  | Some t => JS.trim t
  | None => ""
  end.

(** [bodyText.length > 5 || (title && title.length > 0 && title !== 'Untitled')] *)
Definition hasContent (bodyText title : string) : bool :=
  (5 <? String.length bodyText) ||
  (JS.truthy title && (0 <? String.length title) &&
   negb (bool_decide (title = "Untitled"))).

Definition noContentMessage (bodyText title : string) : string :=
  "200 but no content or title (" +:+ JS.ofNat (String.length bodyText) +:+
  " chars, title: " +:+ JS.dquote +:+ title +:+ JS.dquote +:+ ")".

(** [response ? response.status() : 'No response'] *)
Definition statusOf (response : option Response) : Status :=
  match response with
  | Some r => StatusCode (status r)
  | None => StatusText "No response"
  end.

(** [testUrl] of [url_tester.js] (lines 44-72) and [full_url_tester.js]. *)
Definition testUrl_verbose (o : GotoOutcome) : TestResult :=
  match o with
  | Throws message => Errored message
  | Navigated response doc =>
      match response with
      | Some r =>
          if status r =? 200 then
            let title := title doc in
            let bodyText := bodyText doc in
            if hasContent bodyText title
            then Accepted title (String.length bodyText)
            else Rejected (StatusText (noContentMessage bodyText title))
          else Rejected (statusOf response)
      | None => Rejected (statusOf response)
      end
  end.

(** [testUrl] of the pagination scripts. *)
Definition testUrl (o : GotoOutcome) : TestResult :=
  match o with
  | Throws message => Errored message
  | Navigated response doc =>
      match response with
      | Some r =>
          if status r =? 200 then
            let title := title doc in
            let bodyText := bodyText doc in
            if hasContent bodyText title
            then Accepted title (String.length bodyText)
            else Rejected (statusOf response)
          else Rejected (statusOf response)
      | None => Rejected (statusOf response)
      end
  end.

End Classifier.

(** ** Pagination probing: [testMissingSections] and [testTargetedSections]

  The two probing scripts run the same loop over
  [section/page{n}.html]; they differ in the ceiling, in the threshold
  used while nothing has been found, and in that the targeted script
  tests the section's base directory first. *)

Module Pagination.
Import Browser Classifier.

Record Config := {
  baseUrl : string;
  maxPagesToTest : nat;
  stopAfterFound : nat;   (* literal in [foundAnyPages && consecutiveFailures >= _] *)
  stopBeforeFound : nat   (* literal in [!foundAnyPages && consecutiveFailures >= _] *)
}.

(** [config] and loop literals of the script that tests potential
    sections ([testMissingSections]). *)
Definition missingSections : Config := {|
  baseUrl := "https://0002n8y.wcomhost.com/website/";
  maxPagesToTest := 25;
  stopAfterFound := 5;
  stopBeforeFound := 10
|}.

(** [config] and loop literals of [testTargetedSections]. *)
Definition targetedSections : Config := {|
  baseUrl := "https://0002n8y.wcomhost.com/website/";
  maxPagesToTest := 30;
  stopAfterFound := 5;
  stopBeforeFound := 8
|}.

Record PageData := {
  url : string;
  pageNumber : nat;
  pageTitle : string;
  contentLength : nat
}.

(** The loop variables of one section, [sectionData], the counter
    [results.totalPagesFound], and the log of the URLs handed to
    [testUrl] so far. *)
Record Probe := {
  pages : list PageData;        (* sectionData.pages *)
  totalPages : nat;             (* sectionData.totalPages *)
  totalPagesFound : nat;        (* results.totalPagesFound *)
  consecutiveFailures : nat;
  foundAnyPages : bool;
  requested : list string
}.

(** [`${config.baseUrl}${sectionName}/page${pageNum}.html`] *)
Definition pageUrl (cfg : Config) (sectionName : string) (pageNum : nat) : string :=
  baseUrl cfg +:+ sectionName +:+ "/page" +:+ JS.ofNat pageNum +:+ ".html".

(** [testUrl(page, url)]: one more navigation of the run. *)
Definition probe (net : Net) (url : string) (p : Probe) : TestResult :=
  testUrl (net (length (requested p)) url).

(** [for (let pageNum = _; pageNum <= config.maxPagesToTest; pageNum++)],
    with [remaining] iterations left before the ceiling. *)
Fixpoint probeLoop (cfg : Config) (net : Net) (sectionName : string)
    (remaining pageNum : nat) (p : Probe) : Probe :=
  match remaining with
  | 0 => p
  | S remaining' =>
      let pageUrl := pageUrl cfg sectionName pageNum in
      let result := probe net pageUrl p in
      let log := requested p ++ [pageUrl] in
      match result with
      | Accepted title len =>
          probeLoop cfg net sectionName remaining' (S pageNum)
            {| pages := pages p ++
                 [{| url := pageUrl; pageNumber := pageNum;
                     pageTitle := title; contentLength := len |}];
               totalPages := S (totalPages p);
               totalPagesFound := S (totalPagesFound p);
               consecutiveFailures := 0;
               foundAnyPages := true;
               requested := log |}
      | _ =>
          let p' :=
            {| pages := pages p;
               totalPages := totalPages p;
               totalPagesFound := totalPagesFound p;
               consecutiveFailures := S (consecutiveFailures p);
               foundAnyPages := foundAnyPages p;
               requested := log |} in
          if foundAnyPages p' && (stopAfterFound cfg <=? consecutiveFailures p')
          then p'                                           (* break *)
          else if negb (foundAnyPages p') &&
                  (stopBeforeFound cfg <=? consecutiveFailures p')
          then p'                                           (* break *)
          else probeLoop cfg net sectionName remaining' (S pageNum) p'
      end
  end.

(** The state in which a section's loop starts. *)
Definition freshProbe (found : nat) (log : list string) : Probe :=
  {| pages := []; totalPages := 0; totalPagesFound := found;
     consecutiveFailures := 0; foundAnyPages := false; requested := log |}.

(** Body of the section loop of [testMissingSections]; [found] and [log]
    are the counter and the request log left by the sections done
    before. *)
Definition testMissingSection (net : Net) (sectionName : string)
    (found : nat) (log : list string) : Probe :=
  probeLoop missingSections net sectionName
    (maxPagesToTest missingSections) 1 (freshProbe found log).

(** Body of the section loop of [testTargetedSections]: the base
    directory is tested first and seeds [foundAnyPages]. *)
Definition testTargetedSection (net : Net) (sectionName : string)
    (found : nat) (log : list string) : Probe :=
  let cfg := targetedSections in
  let sectionBase := baseUrl cfg +:+ sectionName +:+ "/" in
  let p0 := freshProbe found log in
  let baseResult := probe net sectionBase p0 in
  let p1 :=
    match baseResult with
    | Accepted title len =>
        {| pages := [{| url := sectionBase; pageNumber := 0;
                        pageTitle := title; contentLength := len |}];
           totalPages := 1;
           totalPagesFound := found;
           consecutiveFailures := 0;
           foundAnyPages := true;
           requested := log ++ [sectionBase] |}
    | _ =>
        {| pages := []; totalPages := 0; totalPagesFound := found;
           consecutiveFailures := 0; foundAnyPages := false;
           requested := log ++ [sectionBase] |}
    end in
  probeLoop cfg net sectionName (maxPagesToTest cfg) 1 p1.

(** The URLs of pages [first .. first + count - 1] of a section. *)
Definition pageUrls (cfg : Config) (sectionName : string) (first count : nat) : list string :=
  pageUrl cfg sectionName <$> seq first count.

End Pagination.

(** ** The frontier of [discoverUrls] ([url_discover.js]) *)

Module UrlDiscover.
Import Browser.

Definition origin : string := "https://0002n8y.wcomhost.com".
Definition baseUrl : string := "https://0002n8y.wcomhost.com/website/".
Definition startUrls : list string := ["everyplayer/"; "top25/"; "nextgame/"].

(** The callback of the first [map] over the anchors (lines 84-97);
    [pageUrl] is the [baseUrl] argument of [page.evaluate], that is
    [fullUrl]. *)
Definition absolutize (pageUrl : string) (a : Anchor) : option string :=
  let href :=                         (* a.href || a.getAttribute('href') *)
    if JS.truthy (href a) then Some (href a) else hrefAttribute a in
  match href with
  | None => None
  | Some h =>
      if negb (JS.truthy h) then None
      else if JS.startsWith "/" h then Some (origin +:+ h)
      else if JS.startsWith "../" h || negb (JS.includes "://" h)
      then Some (pageUrl +:+ h)
      else Some h
  end.

(** map, filter, map (lines 83-99): the base-relative links of a page. *)
Definition normalize (pageUrl : string) (a : Anchor) : option string :=
  match absolutize pageUrl a with
  | Some h =>
      if JS.truthy h && JS.startsWith baseUrl h
      then Some (JS.replaceFirst baseUrl "" h)
      else None
  | None => None
  end.

Definition extractLinks (pageUrl : string) (d : Document) : list string :=
  omap (normalize pageUrl) (anchors d).

Record Frontier := {
  urlQueue : list string;
  visitedUrls : gset string;
  discoveredUrls : list string;   (* a Set, in insertion order *)
  fetched : list string           (* log: the [currentUrl]s navigated to *)
}.

(** [new Set().add(x)] on the insertion-ordered representation. *)
Definition setAdd (x : string) (s : list string) : list string :=
  if bool_decide (x ∈ s) then s else s ++ [x].

Definition initial (seeds : list string) : Frontier :=
  {| urlQueue := seeds; visitedUrls := ∅; discoveredUrls := []; fetched := [] |}.

(** Lines 106-109: the body of the loop over [links]. *)
Definition enqueue (link : string) (f : Frontier) : Frontier :=
  if negb (bool_decide (link ∈ visitedUrls f)) &&
     negb (bool_decide (link ∈ urlQueue f))
  then {| urlQueue := urlQueue f ++ [link];
          visitedUrls := visitedUrls f;
          discoveredUrls := setAdd link (discoveredUrls f);
          fetched := fetched f |}
  else f.

Definition enqueueAll (links : list string) (f : Frontier) : Frontier :=
  foldl (λ f link, enqueue link f) f links.

(** Lines 31-39: shift the queue until a URL that is not visited comes
    out, and mark it visited. *)
Fixpoint nextUnvisited (visited : gset string) (queue : list string)
    : option (string * list string) :=
  match queue with
  | [] => None
  | currentUrl :: queue' =>
      if bool_decide (currentUrl ∈ visited) then nextUnvisited visited queue'
      else Some (currentUrl, queue')
  end.

Definition next (f : Frontier) : option string * Frontier :=
  match nextUnvisited (visitedUrls f) (urlQueue f) with
  | Some (currentUrl, queue') =>
      (Some currentUrl,
       {| urlQueue := queue';
          visitedUrls := {[currentUrl]} ∪ visitedUrls f;
          discoveredUrls := discoveredUrls f;
          fetched := fetched f ++ [currentUrl] |})
  | None =>
      (None,
       {| urlQueue := [];
          visitedUrls := visitedUrls f;
          discoveredUrls := discoveredUrls f;
          fetched := fetched f |})
  end.

(** The two operations of the frontier, as a caller may interleave them. *)
Inductive Op :=
| Enqueue (url : string)
| Next.

(** Runs the operations in order; the result lists what each [Next]
    returned. *)
Fixpoint runOps (ops : list Op) (f : Frontier) : list string * Frontier :=
  match ops with
  | [] => ([], f)
  | Enqueue url :: ops' => runOps ops' (enqueue url f)
  | Next :: ops' =>
      let '(r, f') := next f in
      let '(rs, f'') := runOps ops' f' in
      (from_option (λ u, [u]) [] r ++ rs, f'')
  end.

(** [discoverUrls]: the [while (urlQueue.length > 0)] loop.  [fuel]
    bounds the number of URLs navigated to; [None] means it ran out.
    The periodic [saveProgress] writes [discoveredUrls] to a file and
    leaves the frontier alone; it is not modelled. *)
Fixpoint crawl (net : Net) (fuel : nat) (f : Frontier) : option Frontier :=
  match next f with
  | (None, f') => Some f'
  | (Some currentUrl, f') =>
      match fuel with
      | 0 => None
      | S fuel' =>
          let fullUrl := baseUrl +:+ currentUrl in
          match net (length (fetched f)) fullUrl with
          | Throws _ => crawl net fuel' f'                       (* catch *)
          | Navigated _ doc =>
              crawl net fuel' (enqueueAll (extractLinks fullUrl doc) f')
          end
      end
  end.

Definition discoverUrls (net : Net) (fuel : nat) : option Frontier :=
  crawl net fuel (initial startUrls).

(** The invariant of the frontier: the URLs navigated to are pairwise
    distinct and all marked visited. *)
Definition fetchedOnce (f : Frontier) : Prop :=
  NoDup (fetched f) ∧ ∀ u, u ∈ fetched f → u ∈ visitedUrls f.

End UrlDiscover.

(** ** The mirror writer: class [RobustDownloader] ([robust_downloader.js]) *)

Module RobustDownloader.
Import Browser.

Record Config := {
  outputDir : string;
  pagesDir : string;
  imagesDir : string;
  maxConcurrency : nat;
  retryAttempts : nat;
  delayBetweenPages : N;   (* milliseconds *)
  pageTimeout : N
}.

Definition config : Config := {|
  outputDir := "downloaded_site";
  pagesDir := "pages";
  imagesDir := "assets/images";
  maxConcurrency := 3%nat;
  retryAttempts := 3%nat;
  delayBetweenPages := 1000;
  pageTimeout := 15000
|}%N.

(** An entry of the URL list read by [loadUrls]. *)
Record UrlData := {
  url : string;
  sectionName : string;
  pageNumber : nat;
  title : string
}.

Record FailedUrl := { failedUrl : string; error : string }.

(** [this.stats], without the wall-clock [startTime]. *)
Record Stats := {
  totalUrls : nat;
  downloaded : nat;
  failed : nat;
  imagesCount : nat   (* stats.images *)
}.

Record DownloadedImage := {
  imgOriginalSrc : string;
  newPath : string;
  filename : string;
  size : nat
}.

(** What [saveProgress] serializes (timestamp, elapsed time and the
    formatted success rate left out). *)
Record Snapshot := {
  snapStats : Stats;
  snapDownloadedUrls : list string;
  snapFailedUrls : list FailedUrl;
  snapImageMapping : list (string * string)
}.

Inductive FileContent :=
| Html (markup : string)
| Binary (bytes : list Byte.byte)
| Progress (s : Snapshot).

Inductive Event :=
| Goto (url : string)
| Sleep (ms : N)
| WriteFile (path : string) (c : FileContent).

(** The fields of [this] that the download changes, the log of effects
    and the number of navigations made so far. *)
Record Downloader := {
  downloadedUrls : list string;            (* a Set, in insertion order *)
  failedUrls : list FailedUrl;
  imageMapping : list (string * string);   (* a Map, in insertion order *)
  stats : Stats;
  events : list Event;
  clock : nat
}.

(** The constructor's state. *)
Definition new : Downloader :=
  {| downloadedUrls := []; failedUrls := []; imageMapping := [];
     stats := {| totalUrls := 0; downloaded := 0; failed := 0; imagesCount := 0 |};
     events := []; clock := 0 |}.

Definition emit (e : Event) (d : Downloader) : Downloader :=
  {| downloadedUrls := downloadedUrls d; failedUrls := failedUrls d;
     imageMapping := imageMapping d; stats := stats d;
     events := events d ++ [e]; clock := clock d |}.

(** [await this.page.goto(url, ...)] *)
Definition goto (net : Net) (url : string) (d : Downloader) : GotoOutcome * Downloader :=
  (net (clock d) url,
   {| downloadedUrls := downloadedUrls d; failedUrls := failedUrls d;
      imageMapping := imageMapping d; stats := stats d;
      events := events d ++ [Goto url]; clock := S (clock d) |}).

Definition sleep (ms : N) : Downloader → Downloader := emit (Sleep ms).
Definition writeFile (path : string) (c : FileContent) : Downloader → Downloader :=
  emit (WriteFile path c).

(** [Map.prototype.set]: an existing key keeps its place. *)
Fixpoint mapSet (k v : string) (m : list (string * string)) : list (string * string) :=
  match m with
  | [] => [(k, v)]
  | (k', v') :: m' =>
      if bool_decide (k = k') then (k, v) :: m' else (k', v') :: mapSet k v m'
  end.

Definition setAdd (x : string) (s : list string) : list string :=
  if bool_decide (x ∈ s) then s else s ++ [x].

(** [path.join] of components that need no normalization. *)
Fixpoint pathJoin (parts : list string) : string :=
  match parts with
  | [] => "."
  | [p] => p
  | p :: rest => p +:+ "/" +:+ pathJoin rest
  end.

(** [sectionName.replace(/[^a-zA-Z0-9]/g, '_')] *)
Definition sanitize (sectionName : string) : string :=
  JS.mapChars (λ c, if JS.isAlnum c then c else "_"%char) sectionName.

Definition generateFilename (sectionName : string) (pageNumber : nat) : string :=
  let safeSectionName := sanitize sectionName in
  if pageNumber =? 0 then safeSectionName
  else safeSectionName +:+ "_page" +:+ JS.ofNat pageNumber.

(** The longest prefix matched by [[a-zA-Z0-9]*] and what follows it. *)
Fixpoint alnumRun (s : string) : string * string :=
  match s with
  | String c s' =>
      if JS.isAlnum c
      then let '(run, rest) := alnumRun s' in (String c run, rest)
      else ("", s)
  | "" => ("", "")
  end.

(** The first capture of [/\.([a-zA-Z0-9]+)(?:\?|$)/], searched from the
    left.  After a dot the greedy run can only end the match at its full
    length, as a shorter run is followed by another letter or digit. *)
Fixpoint matchExtension (s : string) : option string :=
  match s with
  | "" => None
  | String c s' =>
      if bool_decide (c = "."%char) then
        let '(run, rest) := alnumRun s' in
        if JS.truthy run && (bool_decide (rest = "") || JS.startsWith "?" rest)
        then Some run
        else matchExtension s'
      else matchExtension s'
  end.

Definition getImageExtension (url : string) : string :=
  match matchExtension url with
  | Some ext => JS.mapChars JS.lowerChar ext
  | None => "jpg"
  end.

(** Matching [src=["']ORIGINAL["']] at the start of [s]; the result is
    what follows the match.  The source escapes every regular-expression
    metacharacter of the original, so it is matched literally. *)
Definition matchLiteral (lit s : string) : option string :=
  if JS.startsWith lit s then Some (JS.drop (String.length lit) s) else None.

Definition matchQuote (s : string) : option string :=
  match s with
  | String c s' =>
      if bool_decide (c = ascii_of_nat 34) || bool_decide (c = ascii_of_nat 39)
      then Some s' else None
  | "" => None
  end.

Definition matchSrcAttribute (originalSrc s : string) : option string :=
  match matchLiteral "src=" s with
  | Some s1 =>
      match matchQuote s1 with
      | Some s2 =>
          match matchLiteral originalSrc s2 with
          | Some s3 => matchQuote s3
          | None => None
          end
      | None => None
      end
  | None => None
  end.

(** A replacement string as [String.prototype.replace] expands it at one
    match of a pattern without capture groups: [$$] gives a dollar, [$&]
    the matched text, [$`] the text before the match and [$'] the text
    after it; any other dollar (before a digit or [<] too, as there is no
    group to refer to) stands for itself. *)
Fixpoint expand (replacement matched before after : string) : string :=
  match replacement with
  | "" => ""
  | String c r =>
      if bool_decide (c = "$"%char) then
        match r with
        | String c' r' =>
            if bool_decide (c' = "$"%char)
            then String "$" (expand r' matched before after)
            else if bool_decide (c' = "&"%char)
            then matched +:+ expand r' matched before after
            else if bool_decide (c' = "`"%char)
            then before +:+ expand r' matched before after
            else if bool_decide (c' = "'"%char)
            then after +:+ expand r' matched before after
            else String "$" (expand r matched before after)
        | "" => "$"
        end
      else String c (expand r matched before after)
  end.

(** [html.replace(regex, `src="${newPath}"`)] with the global flag:
    matches are taken from the left and do not overlap.  [before] is the
    part of the subject already gone through, and [skip] counts the
    characters of the current match still to be dropped. *)
Fixpoint replaceSrc (originalSrc newPath before : string) (skip : nat) (s : string)
    : string :=
  match s with
  | "" => ""
  | String c s' =>
      match skip with
      | S skip' =>
          replaceSrc originalSrc newPath (before +:+ String c "") skip' s'
      | 0 =>
          match matchSrcAttribute originalSrc s with
          | Some rest =>
              let matched := JS.take (String.length s - String.length rest) s in
              expand ("src=" +:+ JS.dquote +:+ newPath +:+ JS.dquote)
                matched before rest +:+
              replaceSrc originalSrc newPath (before +:+ String c "")
                (String.length s' - String.length rest) s'
          | None =>
              String c (replaceSrc originalSrc newPath (before +:+ String c "") 0 s')
          end
      end
  end.

(** [processHtmlContent]: one pass per entry of [this.imageMapping], in
    insertion order.  The [images] argument is not used by the source. *)
Definition processHtmlContent (d : Downloader) (htmlContent : string)
    (images : list ImageData) : string :=
  foldl (λ processedHtml '(originalSrc, newPath),
           replaceSrc originalSrc newPath "" 0 processedHtml)
        htmlContent (imageMapping d).

Definition setImageMapping (k v : string) (d : Downloader) : Downloader :=
  {| downloadedUrls := downloadedUrls d; failedUrls := failedUrls d;
     imageMapping := mapSet k v (imageMapping d); stats := stats d;
     events := events d; clock := clock d |}.

(** [!imageUrl || imageUrl.startsWith('data:')] *)
Definition skipped (imageData : ImageData) : bool :=
  negb (JS.truthy (src imageData)) || JS.startsWith "data:" (src imageData).

(** [downloadImages]: the loop over [images]; [md5hex] is the hex digest
    [crypto.createHash('md5').update(_).digest('hex')]. *)
Definition imageFilename (md5hex : string → string) (imageUrl : string)
    (index : nat) : string :=
  let imageExtension := getImageExtension imageUrl in
  let imageHash := JS.take 8 (md5hex imageUrl) in
  "img" +:+ JS.ofNat index +:+ "_" +:+ imageHash +:+ "." +:+ imageExtension.

(** The rest of the loop body (lines 181-205 and the [catch]) for an
    image that is not skipped. *)
Definition downloadImage (cfg : Config) (net : Net) (md5hex : string → string)
    (imageData : ImageData) (downloadedImages : list DownloadedImage)
    (d : Downloader) : list DownloadedImage * Downloader :=
  let imageUrl := src imageData in
  let imageFilename := imageFilename md5hex imageUrl (length downloadedImages) in
  let imagePath := pathJoin [outputDir cfg; imagesDir cfg; imageFilename] in
  let '(outcome, d1) := goto net imageUrl d in
  match outcome with
  | Navigated (Some imageResponse) _ =>
      if ok imageResponse then
        let imageBuffer := buffer imageResponse in
        let d2 := writeFile imagePath (Binary imageBuffer) d1 in
        let d3 := setImageMapping (originalSrc imageData)
                    ("assets/images/" +:+ imageFilename) d2 in
        (downloadedImages ++
           [{| imgOriginalSrc := originalSrc imageData;
               newPath := "assets/images/" +:+ imageFilename;
               filename := imageFilename;
               size := length imageBuffer |}], d3)
      else (downloadedImages, d1)
  | Navigated None _ => (downloadedImages, d1)
  | Throws _ => (downloadedImages, d1)                               (* catch *)
  end.

Fixpoint downloadImagesLoop (cfg : Config) (net : Net) (md5hex : string → string)
    (images : list ImageData) (downloadedImages : list DownloadedImage)
    (d : Downloader) : list DownloadedImage * Downloader :=
  match images with
  | [] => (downloadedImages, d)
  | imageData :: images' =>
      if skipped imageData
      then downloadImagesLoop cfg net md5hex images' downloadedImages d (* continue *)
      else
        let '(downloadedImages', d') :=
          downloadImage cfg net md5hex imageData downloadedImages d in
        downloadImagesLoop cfg net md5hex images' downloadedImages' d'
  end.

Definition downloadImages (cfg : Config) (net : Net) (md5hex : string → string)
    (images : list ImageData) (d : Downloader) : list DownloadedImage * Downloader :=
  downloadImagesLoop cfg net md5hex images [] d.

Inductive PageResult :=
| Saved (url filename : string) (images : nat)  (* { success: true, ... } *)
| Failed (url error : string).                  (* { success: false, url, error } *)

(** The success bookkeeping at the end of the [try] block. *)
Definition recordDownloaded (url : string) (images : nat) (d : Downloader) : Downloader :=
  {| downloadedUrls := setAdd url (downloadedUrls d);
     failedUrls := failedUrls d;
     imageMapping := imageMapping d;
     stats := {| totalUrls := totalUrls (stats d);
                 downloaded := S (downloaded (stats d));
                 failed := failed (stats d);
                 imagesCount := imagesCount (stats d) + images |};
     events := events d; clock := clock d |}.

(** The bookkeeping of the last [else] of the [catch] block. *)
Definition recordFailed (url message : string) (d : Downloader) : Downloader :=
  {| downloadedUrls := downloadedUrls d;
     failedUrls := failedUrls d ++ [{| failedUrl := url; error := message |}];
     imageMapping := imageMapping d;
     stats := {| totalUrls := totalUrls (stats d);
                 downloaded := downloaded (stats d);
                 failed := S (failed (stats d));
                 imagesCount := imagesCount (stats d) |};
     events := events d; clock := clock d |}.

(** The [try] block of [downloadPage] (lines 102-143): the message of
    the error thrown, or the value returned. *)
Definition tryDownloadPage (cfg : Config) (net : Net) (md5hex : string → string)
    (urlData : UrlData) (d : Downloader) : (string + PageResult) * Downloader :=
  let '(outcome, d1) := goto net (url urlData) d in
  match outcome with
  | Throws message => (inl message, d1)
  | Navigated _ doc =>
      let d2 := sleep 1000 d1 in
      let htmlContent := content doc in
      let images := images doc in
      let filename := generateFilename (sectionName urlData) (pageNumber urlData) in
      let htmlPath := pathJoin [outputDir cfg; pagesDir cfg; filename +:+ ".html"] in
      let processedHtml := processHtmlContent d2 htmlContent images in
      let d3 := writeFile htmlPath (Html processedHtml) d2 in
      let '(downloadedImages, d4) := downloadImages cfg net md5hex images d3 in
      let d5 := recordDownloaded (url urlData) (length downloadedImages) d4 in
      (inr (Saved (url urlData) (filename +:+ ".html") (length downloadedImages)), d5)
  end.

(** [downloadPage(urlData, attempt)].  The source recurses on
    [attempt + 1]; [fuel] bounds the depth of that recursion and [None]
    means it ran out. *)
Fixpoint downloadPageFrom (cfg : Config) (net : Net) (md5hex : string → string)
    (fuel : nat) (urlData : UrlData) (attempt : nat) (d : Downloader)
    : option (PageResult * Downloader) :=
  match tryDownloadPage cfg net md5hex urlData d with
  | (inr result, d') => Some (result, d')
  | (inl message, d') =>
      if attempt <? retryAttempts cfg then
        match fuel with
        | 0 => None
        | S fuel' =>
            downloadPageFrom cfg net md5hex fuel' urlData (attempt + 1)
              (sleep 2000 d')
        end
      else Some (Failed (url urlData) message, recordFailed (url urlData) message d')
  end.

(** [downloadPage(urlData)], with the default [attempt = 1]. *)
Definition downloadPage (cfg : Config) (net : Net) (md5hex : string → string)
    (urlData : UrlData) (d : Downloader) : option (PageResult * Downloader) :=
  downloadPageFrom cfg net md5hex (retryAttempts cfg) urlData 1 d.

Definition saveProgress (cfg : Config) (d : Downloader) : Downloader :=
  writeFile (pathJoin [outputDir cfg; "download_progress.json"])
    (Progress {| snapStats := stats d;
                 snapDownloadedUrls := downloadedUrls d;
                 snapFailedUrls := failedUrls d;
                 snapImageMapping := imageMapping d |}) d.

(** The [for (const urlData of urls)] loop of [run]; [count] is
    [urls.length]. *)
Fixpoint runLoop (cfg : Config) (net : Net) (md5hex : string → string)
    (count : nat) (urls : list UrlData) (d : Downloader) : option Downloader :=
  match urls with
  | [] => Some d
  | urlData :: urls' =>
      match downloadPage cfg net md5hex urlData d with
      | None => None
      | Some (_, d1) =>
          let d2 := if downloaded (stats d1) mod 10 =? 0
                    then saveProgress cfg d1 else d1 in
          let d3 := if downloaded (stats d2) <? count
                    then sleep (delayBetweenPages cfg) d2 else d2 in
          runLoop cfg net md5hex count urls' d3
      end
  end.

Definition setTotalUrls (n : nat) (d : Downloader) : Downloader :=
  {| downloadedUrls := downloadedUrls d; failedUrls := failedUrls d;
     imageMapping := imageMapping d;
     stats := {| totalUrls := n; downloaded := downloaded (stats d);
                 failed := failed (stats d); imagesCount := imagesCount (stats d) |};
     events := events d; clock := clock d |}.

(** [run], from the list that [loadUrls] returned. *)
Definition run (cfg : Config) (net : Net) (md5hex : string → string)
    (urls : list UrlData) : option Downloader :=
  let d := setTotalUrls (length urls) new in
  if length urls =? 0 then Some d
  else saveProgress cfg <$> runLoop cfg net md5hex (length urls) urls d.

(** The effects of [n] attempts at one page that all throw: the
    navigations, with the two-second pause before each retry. *)
Fixpoint failedAttempts (n : nat) (url : string) : list Event :=
  match n with
  | 0 => []
  | 1 => [Goto url]
  | S n' => Goto url :: Sleep 2000 :: failedAttempts n' url
  end.

(** The markup written to disk for pages, in order. *)
Definition writtenMarkup (events : list Event) : list (string * string) :=
  omap (λ e, match e with
             | WriteFile path (Html markup) => Some (path, markup)
             | _ => None
             end) events.

(** The URLs navigated to, in order. *)
Definition navigations (events : list Event) : list string :=
  omap (λ e, match e with Goto url => Some url | _ => None end) events.

(** A URL is accounted for when it is in the set of downloaded URLs or
    in the list of failed ones. *)
Definition accounted (url : string) (d : Downloader) : Prop :=
  url ∈ downloadedUrls d ∨ url ∈ failedUrl <$> failedUrls d.

(** Nothing recorded in [d] is missing from [d']. *)
Definition extends (d d' : Downloader) : Prop :=
  downloadedUrls d ⊆ downloadedUrls d' ∧
  failedUrl <$> failedUrls d ⊆ failedUrl <$> failedUrls d'.

(** The paths of the binary files written, in order. *)
Definition writtenAssets (events : list Event) : list string :=
  omap (λ e, match e with
             | WriteFile path (Binary _) => Some path
             | _ => None
             end) events.

End RobustDownloader.

(** ** The checkpointing testers: [full_url_tester.js] and [url_tester.js] *)

(** [result.error || result.status]: what the testers print and record
  for a result that is not a success.  [None] is [undefined] (an empty
  error message and no status). *)
Definition failureReason (r : Classifier.TestResult) : option Classifier.Status :=
  match r with
  | Classifier.Errored message =>
      if JS.truthy message then Some (Classifier.StatusText message) else None
  | Classifier.Rejected st => Some st
  | Classifier.Accepted _ _ => None
  end.

(** [array.slice(-n)]: the last [n] elements, or all of them. *)
Definition sliceLast {A} (n : nat) (l : list A) : list A :=
  drop (length l - n) l.

Module FullUrlTester.
Import Browser Classifier.

(** An entry of the list built by [loadAllPageNames]. *)
Record Mapping := { pageName : string; url : string; baseName : string }.

Record WorkingUrl := {
  wPageName : string;
  wBaseName : string;
  workingUrl : string;
  wTitle : string;
  wContentLength : nat
}.

Record FailedUrl := {
  fPageName : string;
  fUrl : string;
  fError : option Status
}.

Record Results := { tested : nat; working : nat; failed : nat }.

(** The object [saveProgress] writes to [config.outputFile] (without its
    timestamp). *)
Record Snapshot := {
  snapResults : Results;
  snapWorkingUrls : list WorkingUrl;
  snapFailedUrls : list FailedUrl
}.

(** The accumulators of [testAllUrls], the content of the output file
    ([None] until the first write) and the number of navigations. *)
Record Tester := {
  workingUrls : list WorkingUrl;
  failedUrls : list FailedUrl;
  results : Results;
  outputFile : option Snapshot;
  clock : nat
}.

Definition start : Tester :=
  {| workingUrls := []; failedUrls := [];
     results := {| tested := 0; working := 0; failed := 0 |};
     outputFile := None; clock := 0 |}.

Definition saveProgress (t : Tester) : Tester :=
  {| workingUrls := workingUrls t; failedUrls := failedUrls t;
     results := results t;
     outputFile :=
       Some {| snapResults := results t;
               snapWorkingUrls := workingUrls t;
               snapFailedUrls := sliceLast 20 (failedUrls t) |};
     clock := clock t |}.

(** One iteration of [for (const mapping of urlMappings)]. *)
Definition testMapping (net : Net) (mapping : Mapping) (t : Tester) : Tester :=
  let result := testUrl_verbose (net (clock t) (url mapping)) in
  let t1 :=
    match result with
    | Accepted title len =>
        {| workingUrls := workingUrls t ++
             [{| wPageName := pageName mapping; wBaseName := baseName mapping;
                 workingUrl := url mapping; wTitle := title;
                 wContentLength := len |}];
           failedUrls := failedUrls t;
           results := {| tested := S (tested (results t));
                         working := S (working (results t));
                         failed := failed (results t) |};
           outputFile := outputFile t; clock := S (clock t) |}
    | _ =>
        {| workingUrls := workingUrls t;
           failedUrls := failedUrls t ++
             [{| fPageName := pageName mapping; fUrl := url mapping;
                 fError := failureReason result |}];
           results := {| tested := S (tested (results t));
                         working := working (results t);
                         failed := S (failed (results t)) |};
           outputFile := outputFile t; clock := S (clock t) |}
    end in
  if tested (results t1) mod 50 =? 0 then saveProgress t1 else t1.

(** [testAllUrls], from the list that [loadAllPageNames] returned. *)
Definition testAllUrls (net : Net) (urlMappings : list Mapping) : Tester :=
  saveProgress (foldl (λ t mapping, testMapping net mapping t) start urlMappings).

(** The mappings of a run that the classifier does not accept, with the
    index of their navigation. *)
Fixpoint failures (net : Net) (n : nat) (urlMappings : list Mapping) : list FailedUrl :=
  match urlMappings with
  | [] => []
  | mapping :: rest =>
      let result := testUrl_verbose (net n (url mapping)) in
      (if success result then []
       else [{| fPageName := pageName mapping; fUrl := url mapping;
                fError := failureReason result |}]) ++
      failures net (S n) rest
  end.

End FullUrlTester.

Module UrlTester.
Import Browser Classifier.

(** An entry of the list built by [loadPageNames]. *)
Record Mapping := { pageName : string; url : string; accessible : bool }.

Inductive Format := html | directory.

Record WorkingUrl := {
  wPageName : string;
  workingUrl : string;
  format : Format;
  wTitle : string;
  wContentLength : nat;
  expectedAccessible : bool
}.

Record Results := {
  tested : nat; working : nat; failed : nat;
  formatsHtml : nat; formatsDirectory : nat
}.

(** The object [saveProgress] writes: it has no list of failures. *)
Record Snapshot := {
  snapResults : Results;
  snapWorkingUrls : list WorkingUrl
}.

Record Tester := {
  workingUrls : list WorkingUrl;
  results : Results;
  outputFile : option Snapshot;
  clock : nat
}.

(** The state after the [knownWorkingUrls] have been tested: their
    results are printed and nothing is kept but [known] navigations. *)
Definition start (known : nat) : Tester :=
  {| workingUrls := [];
     results := {| tested := 0; working := 0; failed := 0;
                   formatsHtml := 0; formatsDirectory := 0 |};
     outputFile := None; clock := known |}.

Definition saveProgress (t : Tester) : Tester :=
  {| workingUrls := workingUrls t; results := results t;
     outputFile := Some {| snapResults := results t;
                           snapWorkingUrls := workingUrls t |};
     clock := clock t |}.

Definition testMapping (net : Net) (mapping : Mapping) (t : Tester) : Tester :=
  let result := testUrl_verbose (net (clock t) (url mapping)) in
  let r := results t in
  let t1 :=
    match result with
    | Accepted title len =>
        let fmt := if JS.endsWith "/" (url mapping) then directory else html in
        {| workingUrls := workingUrls t ++
             [{| wPageName := pageName mapping; workingUrl := url mapping;
                 format := fmt; wTitle := title; wContentLength := len;
                 expectedAccessible := accessible mapping |}];
           results :=
             {| tested := S (tested r); working := S (working r);
                failed := failed r;
                formatsHtml :=
                  match fmt with html => S (formatsHtml r) | directory => formatsHtml r end;
                formatsDirectory :=
                  match fmt with directory => S (formatsDirectory r)
                               | html => formatsDirectory r end |};
           outputFile := outputFile t; clock := S (clock t) |}
    | _ =>
        {| workingUrls := workingUrls t;
           results := {| tested := S (tested r); working := working r;
                         failed := S (failed r);
                         formatsHtml := formatsHtml r;
                         formatsDirectory := formatsDirectory r |};
           outputFile := outputFile t; clock := S (clock t) |}
    end in
  if tested (results t1) mod 50 =? 0 then saveProgress t1 else t1.

(** The second loop of [testUrlFormats], from the list that
    [loadPageNames] returned, and the final [saveProgress]. *)
Definition testUrlFormats (net : Net) (known : nat) (urlMappings : list Mapping) : Tester :=
  saveProgress (foldl (λ t mapping, testMapping net mapping t) (start known) urlMappings).

(** How many mappings of a run the classifier does not accept. *)
Fixpoint failureCount (net : Net) (n : nat) (urlMappings : list Mapping) : nat :=
  match urlMappings with
  | [] => 0
  | mapping :: rest =>
      (if success (testUrl_verbose (net n (url mapping))) then 0 else 1) +
      failureCount net (S n) rest
  end.

End UrlTester.

(** ** Sample sites, used to run the scripts on concrete inputs *)

Module Scenarios.
Import Browser.

Definition blank : Document :=
  {| title := ""; bodyInnerText := Some ""; content := "";
     images := []; anchors := [] |}.

(** A 404 response. *)
Definition notFound : GotoOutcome :=
  Navigated (Some {| status := 404; buffer := [] |}) blank.

(** A 200 response for an image-only page with a title. *)
Definition titled (t : string) : GotoOutcome :=
  Navigated (Some {| status := 200; buffer := [] |})
    {| title := t; bodyInnerText := Some ""; content := "";
       images := []; anchors := [] |}.

(** A site on which exactly the URLs of [live] exist. *)
Definition serving (live : list string) : Net :=
  λ _ url, if bool_decide (url ∈ live) then titled "Club Honours" else notFound.

(** A site on which every navigation times out. *)
Definition unreachable : Net := λ _ _, Throws "Navigation timeout".

Definition link (absolute : string) : Anchor :=
  {| href := absolute; hrefAttribute := Some absolute; innerText := None |}.

Definition linking (hrefs : list string) : GotoOutcome :=
  Navigated (Some {| status := 200; buffer := [] |})
    {| title := "Chiswick Albion"; bodyInnerText := Some "players";
       content := ""; images := []; anchors := link <$> hrefs |}.

(** A site of three pages that link to each other, to a page that does
    not load and to another host. *)
Definition smallSite : Net := λ _ url,
  if bool_decide (url = "https://0002n8y.wcomhost.com/website/everyplayer/") then
    linking ["https://0002n8y.wcomhost.com/website/top25/";
             "https://0002n8y.wcomhost.com/website/players/a.html";
             "https://example.com/"]
  else if bool_decide (url = "https://0002n8y.wcomhost.com/website/top25/") then
    linking ["https://0002n8y.wcomhost.com/website/players/a.html";
             "https://0002n8y.wcomhost.com/website/everyplayer/";
             "https://0002n8y.wcomhost.com/website/gone.html"]
  else if bool_decide (url = "https://0002n8y.wcomhost.com/website/players/a.html") then
    linking ["https://0002n8y.wcomhost.com/website/everyplayer/";
             "https://0002n8y.wcomhost.com/website/players/a.html"]
  else Throws "net::ERR_ABORTED".

(** A page with three images, the third of which is gone from the
    server, and an inline image. *)
Definition honoursMarkup : string :=
  "<html><body><img src='cup.png'><img src='team.jpg'>" +:+
  "<img src='gone.gif'><img src='data:image/gif;base64,R0lGOD'></body></html>".

Definition image (absolute attribute : string) : ImageData :=
  {| src := absolute; originalSrc := attribute; alt := ""; width := 0; height := 0 |}.

Definition honoursImages : list ImageData :=
  [image "https://0002n8y.wcomhost.com/website/honours/cup.png" "cup.png";
   image "https://0002n8y.wcomhost.com/website/honours/team.jpg" "team.jpg";
   image "https://0002n8y.wcomhost.com/website/honours/gone.gif" "gone.gif";
   image "data:image/gif;base64,R0lGOD" "data:image/gif;base64,R0lGOD"].

Definition asset : GotoOutcome :=
  Navigated (Some {| status := 200; buffer := [Byte.x47; Byte.x49; Byte.x46] |}) blank.

Definition honoursSite : Net := λ _ url,
  if bool_decide (url = "https://0002n8y.wcomhost.com/website/honours/") then
    Navigated (Some {| status := 200; buffer := [] |})
      {| title := "Club Honours"; bodyInnerText := Some "";
         content := honoursMarkup; images := honoursImages; anchors := [] |}
  else if bool_decide (url = "https://0002n8y.wcomhost.com/website/honours/cup.png")
  then asset
  else if bool_decide (url = "https://0002n8y.wcomhost.com/website/honours/team.jpg")
  then asset
  else notFound.

Definition honours : RobustDownloader.UrlData :=
  {| RobustDownloader.url := "https://0002n8y.wcomhost.com/website/honours/";
     RobustDownloader.sectionName := "honours";
     RobustDownloader.pageNumber := 0;
     RobustDownloader.title := "Club Honours" |}.

(** A stand-in for the MD5 digest. *)
Definition digest : string → string := λ _, "d41d8cd98f00b204e9800998ecf8427e".

(** Twenty-one page names, as [loadAllPageNames] maps them to URLs. *)
Definition manyPages : list FullUrlTester.Mapping :=
  (λ n, {| FullUrlTester.pageName := "fixture" +:+ JS.ofNat n +:+ ".html";
           FullUrlTester.url :=
             "https://0002n8y.wcomhost.com/website/fixture" +:+ JS.ofNat n +:+ "/";
           FullUrlTester.baseName := "fixture" +:+ JS.ofNat n |}) <$> seq 1 21.

(** The section "season2022" with two pages. *)
Definition twoPages : Net :=
  serving [Pagination.pageUrl Pagination.missingSections "season2022" 1;
           Pagination.pageUrl Pagination.missingSections "season2022" 2].

End Scenarios.

(** ** Pagination in [testPaginatedUrls] ([url_tester.js], second script)

  The script reads the working URLs that [full_url_tester.js] saved and
  probes [section/page{n}.html] up to page 20.  Its early exit looks at
  the pages found so far in the section, not at a failure counter. *)

Module PaginatedUrls.
Import Browser Classifier.

Definition baseUrl : string := "https://0002n8y.wcomhost.com/website/".
Definition maxPagesToTest : nat := 20.

Record PageData := {
  url : string;
  pageNumber : nat;
  title : string;
  contentLength : nat
}.

(** An entry of [allUrls]. *)
Record UrlRecord := {
  sectionName : string;
  recordUrl : string;
  recordPageNumber : nat;
  recordTitle : string;
  recordContentLength : nat
}.

(** [sectionResults.pages] and [.totalPages], the counters of [results],
    [allUrls] and the log of the URLs handed to [testUrl]. *)
Record Probe := {
  pages : list PageData;
  totalPages : nat;
  totalUrlsTested : nat;
  totalWorkingUrls : nat;
  allUrls : list UrlRecord;
  requested : list string
}.

Definition pageUrl (sectionName : string) (pageNum : nat) : string :=
  baseUrl +:+ sectionName +:+ "/page" +:+ JS.ofNat pageNum +:+ ".html".

(** [result.status === 404] *)
Definition is404 (result : TestResult) : bool :=
  match result with
  | Rejected (StatusCode code) => code =? 404
  | _ => false
  end.

(** [for (let pageNum = _; pageNum <= config.maxPagesToTest; pageNum++)]
    (lines 255-298), with [remaining] iterations left. *)
Fixpoint pageLoop (net : Net) (sectionName : string) (remaining pageNum : nat)
    (p : Probe) : Probe :=
  match remaining with
  | 0 => p
  | S remaining' =>
      let pageUrl := pageUrl sectionName pageNum in
      let result := testUrl (net (length (requested p)) pageUrl) in
      match result with
      | Accepted title len =>
          pageLoop net sectionName remaining' (S pageNum)
            {| pages := pages p ++
                 [{| url := pageUrl; pageNumber := pageNum;
                     title := title; contentLength := len |}];
               totalPages := S (totalPages p);
               totalUrlsTested := S (totalUrlsTested p);
               totalWorkingUrls := S (totalWorkingUrls p);
               allUrls := allUrls p ++
                 [{| sectionName := sectionName; recordUrl := pageUrl;
                     recordPageNumber := pageNum; recordTitle := title;
                     recordContentLength := len |}];
               requested := requested p ++ [pageUrl] |}
      | _ =>
          let p' :=
            {| pages := pages p;
               totalPages := totalPages p;
               totalUrlsTested := S (totalUrlsTested p);
               totalWorkingUrls := totalWorkingUrls p;
               allUrls := allUrls p;
               requested := requested p ++ [pageUrl] |} in
          if is404 result then
            let recentPages := sliceLast 3 (pages p') in
            if (length recentPages =? 0) && (3 <? pageNum)
            then p'                                            (* break *)
            else pageLoop net sectionName remaining' (S pageNum) p'
          else pageLoop net sectionName remaining' (S pageNum) p'
      end
  end.

(** The body of the loop over [workingBaseUrls] up to the end of the
    page loop: the base page is recorded without being fetched again. *)
Definition testSection (net : Net) (base : FullUrlTester.WorkingUrl)
    (tested working : nat) (urls : list UrlRecord) (log : list string) : Probe :=
  let sectionName := FullUrlTester.wBaseName base in
  pageLoop net sectionName maxPagesToTest 1
    {| pages := [];
       totalPages := 1;
       totalUrlsTested := tested;
       totalWorkingUrls := working;
       allUrls := urls ++
         [{| sectionName := sectionName;
             recordUrl := FullUrlTester.workingUrl base;
             recordPageNumber := 0;
             recordTitle := FullUrlTester.wTitle base;
             recordContentLength := FullUrlTester.wContentLength base |}];
       requested := log |}.

Definition pageUrls (sectionName : string) (first count : nat) : list string :=
  pageUrl sectionName <$> seq first count.

End PaginatedUrls.

(** ** The whole run of [testMissingSections] and its [saveProgress] *)

Module MissingSections.
Import Browser Classifier.

Definition potentialSections : list string :=
  ["season2022"; "everyplayer"; "season2021"; "season2020"; "season2019"; "season2018";
   "season2017"; "season2016"; "season2015"; "season2014"; "season2013"; "season2012";
   "season2011"; "season2010"; "season2009"; "season2008"; "season2007"; "season2006";
   "season2005"; "season2004"; "season2003"; "season2002"; "season2001"; "season2000";
   "fixtures"; "fixtures2022"; "fixtures2021"; "fixtures2020"; "fixtures2019";
   "tables"; "tables2022"; "tables2021"; "tables2020"; "tables2019";
   "players"; "legends"; "squad"; "allplayers"; "playerstats";
   "cups"; "cups2022"; "cups2021"; "cups2020"; "cups2019";
   "fac"; "facup"; "facup2022"; "facup2021"; "facup2020"; "facup2019";
   "history"; "hist"; "archives"; "results"; "stats"; "photos"; "gallery"].

Record SectionData := {
  sectionName : string;
  pages : list Pagination.PageData;
  totalPages : nat
}.

Record Results := {
  sectionsWithPages : nat;
  totalPagesFound : nat;
  sectionsProcessed : nat
}.

(** An entry of [allPages]: [{ sectionName: section.sectionName, ...page }]. *)
Record PageRecord := {
  recordSection : string;
  recordPage : Pagination.PageData
}.

(** The object [saveProgress] writes (without its timestamp). *)
Record Snapshot := {
  summary : Results;
  sections : list SectionData;
  allPages : list PageRecord
}.

Record Run := {
  foundSections : list SectionData;
  results : Results;
  log : list string;              (* the URLs handed to [testUrl] so far *)
  outputFile : option Snapshot
}.

Definition start : Run :=
  {| foundSections := [];
     results := {| sectionsWithPages := 0; totalPagesFound := 0;
                   sectionsProcessed := 0 |};
     log := []; outputFile := None |}.

(** The two nested [forEach] of [saveProgress]. *)
Definition flatten (foundSections : list SectionData) : list PageRecord :=
  foundSections ≫= λ section,
    (λ page, {| recordSection := sectionName section; recordPage := page |})
      <$> pages section.

Definition saveProgress (r : Run) : Run :=
  {| foundSections := foundSections r; results := results r; log := log r;
     outputFile :=
       Some {| summary := results r;
               sections := foundSections r;
               allPages := flatten (foundSections r) |} |}.

(** One iteration of [for (const sectionName of config.potentialSections)]. *)
Definition testSection (net : Net) (name : string) (r : Run) : Run :=
  let p := Pagination.testMissingSection net name
             (totalPagesFound (results r)) (log r) in
  let r1 :=
    if Pagination.foundAnyPages p then
      {| foundSections := foundSections r ++
           [{| sectionName := name; pages := Pagination.pages p;
               totalPages := Pagination.totalPages p |}];
         results := {| sectionsWithPages := S (sectionsWithPages (results r));
                       totalPagesFound := Pagination.totalPagesFound p;
                       sectionsProcessed := S (sectionsProcessed (results r)) |};
         log := Pagination.requested p; outputFile := outputFile r |}
    else
      {| foundSections := foundSections r;
         results := {| sectionsWithPages := sectionsWithPages (results r);
                       totalPagesFound := Pagination.totalPagesFound p;
                       sectionsProcessed := S (sectionsProcessed (results r)) |};
         log := Pagination.requested p; outputFile := outputFile r |} in
  if sectionsProcessed (results r1) mod 10 =? 0 then saveProgress r1 else r1.

(** [testMissingSections] over a list of section names; the script runs
    it on [potentialSections]. *)
Definition testSections (net : Net) (names : list string) : Run :=
  saveProgress (foldl (λ r name, testSection net name r) start names).

Definition testMissingSections (net : Net) : Run :=
  testSections net potentialSections.

(** What a run keeps at every point: the found sections are those with
    pages, their counters agree with their lists, and the counters of
    [results] count them. *)
Definition consistent (r : Run) : Prop :=
  sectionsWithPages (results r) = length (foundSections r) ∧
  totalPagesFound (results r) = length (flatten (foundSections r)) ∧
  Forall (λ s, pages s ≠ [] ∧ totalPages s = length (pages s) ∧
               length (pages s) ≤ Pagination.maxPagesToTest Pagination.missingSections)
         (foundSections r).

End MissingSections.

(** ** [loadAllPageNames] of [full_url_tester.js] *)

Module PageNames.

Definition baseUrl : string := "https://0002n8y.wcomhost.com/website/".

(** [pages.add(page)] for each name in turn, on a Set kept in insertion
    order. *)
Definition addAll (names : list string) (pages : list string) : list string :=
  foldl (λ pages page, UrlDiscover.setAdd page pages) pages names.

(** The body of the [map] (lines 45-52). *)
Definition toMapping (page : string) : FullUrlTester.Mapping :=
  let baseName := JS.replaceFirst ".html" "" page in
  {| FullUrlTester.pageName := page;
     FullUrlTester.url := baseUrl +:+ baseName +:+ "/";
     FullUrlTester.baseName := baseName |}.

(** [loadAllPageNames], from the three parts of the validation report it
    reads: the keys of [navigation_links], the lists of [banner_usage]
    and the keys of [pages_with_maps] (a part that is absent is empty). *)
Definition loadAllPageNames (navigationLinks : list string)
    (bannerUsage : list (list string)) (pagesWithMaps : list string)
    : list FullUrlTester.Mapping :=
  let pages :=
    addAll pagesWithMaps (addAll (concat bannerUsage) (addAll navigationLinks [])) in
  toMapping <$>
    filter (λ page, JS.includes "../" page = false)
      (filter (λ page, JS.endsWith ".html" page = true) pages).

End PageNames.

(** ** [ComprehensiveUrlDiscovery] of [comprehensive_url_discovery.js]

  The class keeps its own memory of the URLs it has tested.  The
  [timestamp] of a working URL and the timings of [stats] are left out;
  [printProgress] only logs. *)

Module ComprehensiveDiscovery.
Import Browser.

Definition baseUrl : string := "https://0002n8y.wcomhost.com/website/".
Definition maxRetries : nat := 3.
Definition delayBetweenRequests : N := 500.
Definition maxPaginationTest : nat := 50.

(** An entry of [workingUrls], and what [testUrl] returns with
    [working: true]. *)
Record WorkingUrl := {
  url : string;
  title : string;
  contentLength : nat
}.

Record FailedUrl := {
  failedUrl : string;
  reason : string
}.

Record Stats := {
  totalTested : nat;
  working : nat;
  failed : nat
}.

Inductive Event :=
| Goto (url : string)
| Sleep (ms : N).

Record Discovery := {
  workingUrls : list WorkingUrl;
  testedUrls : gset string;
  failedUrls : list FailedUrl;
  stats : Stats;
  events : list Event;
  clock : nat                      (* navigations made so far *)
}.

(** The constructor. *)
Definition new : Discovery :=
  {| workingUrls := []; testedUrls := ∅; failedUrls := [];
     stats := {| totalTested := 0; working := 0; failed := 0 |};
     events := []; clock := 0 |}.

(** [existing.workingUrls.forEach(url => this.testedUrls.add(url.url))]
    of [run]. *)
Definition loadExisting (existing : list string) (s : Discovery) : Discovery :=
  {| workingUrls := workingUrls s;
     testedUrls := foldl (λ tested u, tested ∪ {[u]}) (testedUrls s) existing;
     failedUrls := failedUrls s; stats := stats s; events := events s;
     clock := clock s |}.

Definition emit (e : Event) (s : Discovery) : Discovery :=
  {| workingUrls := workingUrls s; testedUrls := testedUrls s;
     failedUrls := failedUrls s; stats := stats s;
     events := events s ++ [e]; clock := clock s |}.

Definition goto (net : Net) (url : string) (s : Discovery) : GotoOutcome * Discovery :=
  (net (clock s) url,
   {| workingUrls := workingUrls s; testedUrls := testedUrls s;
      failedUrls := failedUrls s; stats := stats s;
      events := events s ++ [Goto url]; clock := S (clock s) |}).

(** [title.toLowerCase()] *)
Definition toLowerCase (s : string) : string := JS.mapChars JS.lowerChar s.

(** [isWorking] (lines 62-64). *)
Definition isWorking (title : string) (contentLength : nat) : bool :=
  negb (JS.includes "404" (toLowerCase title)) &&
  negb (JS.includes "not found" (toLowerCase title)) &&
  (500 <? contentLength).

(** [this.workingUrls.push(...); this.stats.working++] *)
Definition recordWorking (w : WorkingUrl) (s : Discovery) : Discovery :=
  {| workingUrls := workingUrls s ++ [w]; testedUrls := testedUrls s;
     failedUrls := failedUrls s;
     stats := {| totalTested := totalTested (stats s);
                 working := S (working (stats s));
                 failed := failed (stats s) |};
     events := events s; clock := clock s |}.

(** [this.failedUrls.push({ url, reason }); this.stats.failed++] *)
Definition recordFailed (url reason : string) (s : Discovery) : Discovery :=
  {| workingUrls := workingUrls s; testedUrls := testedUrls s;
     failedUrls := failedUrls s ++ [{| failedUrl := url; reason := reason |}];
     stats := {| totalTested := totalTested (stats s);
                 working := working (stats s);
                 failed := S (failed (stats s)) |};
     events := events s; clock := clock s |}.

(** The [finally] block of [testUrl]. *)
Definition finally (url : string) (s : Discovery) : Discovery :=
  {| workingUrls := workingUrls s; testedUrls := testedUrls s ∪ {[url]};
     failedUrls := failedUrls s;
     stats := {| totalTested := S (totalTested (stats s));
                 working := working (stats s);
                 failed := failed (stats s) |};
     events := events s ++ [Sleep delayBetweenRequests]; clock := clock s |}.

(** [testUrl(url, retries)].

    The retry is [return this.testUrl(url, retries + 1)], inside
    [try]/[catch]/[finally] and without [await].  The call runs up to
    its first suspension, the [await] of [page.goto], and hands back a
    promise; the [finally] block of the caller runs next, before that
    navigation has an outcome; then the retry goes on, and its result is
    the result of the caller.  So a call comes in two parts: [enter], up
    to the first [await], and [resume], from the outcome of the
    navigation on.  The log lists the effects in the order in which they
    start: the delay of the caller's [finally] elapses while the retry
    is under way. *)

(** How a call stands at its first suspension. *)
Inductive Entered :=
| Null                                 (* returned [null] before any [await] *)
| Awaiting (outcome : GotoOutcome).    (* at [await this.page.goto(url, ...)] *)

Definition enter (net : Net) (url : string) (s : Discovery) : Entered * Discovery :=
  if bool_decide (url ∈ testedUrls s) then (Null, s)
  else
    let '(outcome, s1) := goto net url s in
    (Awaiting outcome, s1).

(** The rest of the call.  [fuel] bounds the depth of the recursion and
    [None] means it ran out.  The result is [Some] of the object
    returned, or [None] for [null]. *)
Fixpoint resume (net : Net) (fuel : nat) (url : string) (retries : nat)
    (outcome : GotoOutcome) (s : Discovery)
    : option (option WorkingUrl * Discovery) :=
  match outcome with
  | Navigated response doc =>
      let title := Browser.title doc in
      let contentLength := String.length (content doc) in
      if match response with
         | Some r => ok r && isWorking title contentLength
         | None => false
         end
      then
        let w := {| url := url; title := title; contentLength := contentLength |} in
        Some (Some w, finally url (recordWorking w s))
      else
        Some (None, finally url (recordFailed url "Invalid response or 404" s))
  | Throws message =>
      if retries <? maxRetries then
        let s1 := emit (Sleep 1000) s in
        let '(entered, s2) := enter net url s1 in   (* this.testUrl(url, retries + 1) *)
        let s3 := finally url s2 in                 (* the caller's [finally] *)
        match entered with
        | Null => Some (None, s3)
        | Awaiting outcome' =>
            match fuel with
            | 0 => None
            | S fuel' => resume net fuel' url (retries + 1) outcome' s3
            end
        end
      else Some (None, finally url (recordFailed url message s))
  end.

Definition testUrlFrom (net : Net) (fuel : nat) (url : string) (retries : nat)
    (s : Discovery) : option (option WorkingUrl * Discovery) :=
  match enter net url s with
  | (Null, s') => Some (None, s')
  | (Awaiting outcome, s') => resume net fuel url retries outcome s'
  end.

(** [testUrl(url)], with the default [retries = 0]. *)
Definition testUrl (net : Net) (url : string) (s : Discovery)
    : option (option WorkingUrl * Discovery) :=
  testUrlFrom net maxRetries url 0 s.

(** [`${config.baseUrl}${sectionName}/page${page}.html`] *)
Definition pageUrl (sectionName : string) (page : nat) : string :=
  baseUrl +:+ sectionName +:+ "/page" +:+ JS.ofNat page +:+ ".html".

(** [for (let page = _; page <= maxPages; page++)] of
    [testPaginationForSection], with [remaining] iterations left. *)
Fixpoint paginationLoop (net : Net) (sectionName : string) (remaining page : nat)
    (paginatedUrls : list WorkingUrl) (consecutiveFailures : nat) (s : Discovery)
    : option (list WorkingUrl * Discovery) :=
  match remaining with
  | 0 => Some (paginatedUrls, s)
  | S remaining' =>
      match testUrl net (pageUrl sectionName page) s with
      | None => None
      | Some (Some result, s') =>
          paginationLoop net sectionName remaining' (S page)
            (paginatedUrls ++ [result]) 0 s'
      | Some (None, s') =>
          if 5 <=? S consecutiveFailures
          then Some (paginatedUrls, s')                       (* break *)
          else paginationLoop net sectionName remaining' (S page)
                 paginatedUrls (S consecutiveFailures) s'
      end
  end.

(** [testPaginationForSection(sectionName, maxPages)]: pages 2 to
    [maxPages]. *)
Definition testPaginationForSection (net : Net) (sectionName : string)
    (maxPages : nat) (s : Discovery) : option (list WorkingUrl * Discovery) :=
  paginationLoop net sectionName (maxPages - 1) 2 [] 0 s.

(** The URLs navigated to, in order. *)
Definition navigations (es : list Event) : list string :=
  omap (λ e, match e with Goto u => Some u | Sleep _ => None end) es.

End ComprehensiveDiscovery.

(** ** [browser_clone.js]

  The first version of the mirror.  The file system is a map from paths
  to contents.  [new URL(pageName, config.baseUrl)] is a parameter
  [resolve], taken not to throw; [path.join] is applied to components
  that need no normalization. *)

Module BrowserClone.

Definition outputDir : string := "web".
Definition pagesDir : string := "web/pages".
Definition imagesDir : string := "web/assets/images".
Definition delayBetweenPages : N := 2000.

(** The page after a navigation, as [downloadPage] reads it. *)
Record Page := {
  content : string;        (* page.content() *)
  imgSrcs : list string    (* img.src of every img element; empty without a source *)
}.

Inductive GotoOutcome :=
| Throws (message : string)
| Navigated (response : option Browser.Response) (page : Page).

Definition Net := nat → string → GotoOutcome.

Inductive FileContent :=
| Html (markup : string)
| Image (bytes : list Byte.byte)
| ImageMapping (imageMapping : gmap string string).

Inductive Event :=
| Goto (url : string)
| Sleep (ms : N)
| WriteFile (path : string).

Record Clone := {
  files : gmap string FileContent;
  events : list Event;
  clock : nat                      (* navigations made so far *)
}.

Definition goto (net : Net) (url : string) (c : Clone) : GotoOutcome * Clone :=
  (net (clock c) url,
   {| files := files c; events := events c ++ [Goto url]; clock := S (clock c) |}).

Definition sleep (ms : N) (c : Clone) : Clone :=
  {| files := files c; events := events c ++ [Sleep ms]; clock := clock c |}.

(** [fs.writeFile(path, content)] *)
Definition writeFile (path : string) (content : FileContent) (c : Clone) : Clone :=
  {| files := <[path := content]> (files c);
     events := events c ++ [WriteFile path]; clock := clock c |}.

(** [`img${index}.gif`] *)
Definition imageName (index : nat) : string := "img" +:+ JS.ofNat index +:+ ".gif".

Definition imagePath (index : nat) : string :=
  RobustDownloader.pathJoin [imagesDir; imageName index].

Definition mappingPath : string :=
  RobustDownloader.pathJoin [outputDir; "image_mapping.json"].

(** [for (const [index, src] of images.entries())] (lines 108-126), from
    position [index] on. *)
Fixpoint downloadImages (net : Net) (srcs : list string) (index : nat)
    (imageMapping : gmap string string) (downloadedImages : nat) (c : Clone)
    : gmap string string * nat * Clone :=
  match srcs with
  | [] => (imageMapping, downloadedImages, c)
  | src :: rest =>
      if negb (JS.truthy src)
      then downloadImages net rest (S index) imageMapping downloadedImages c
      else
        let '(outcome, c1) := goto net src c in
        match outcome with
        | Navigated (Some r) _ =>
            if Browser.ok r then
              let c2 := writeFile (imagePath index) (Image (Browser.buffer r)) c1 in
              downloadImages net rest (S index)
                (<[src := imageName index]> imageMapping) (S downloadedImages) c2
            else downloadImages net rest (S index) imageMapping downloadedImages c1
        | _ => downloadImages net rest (S index) imageMapping downloadedImages c1
        end
  end.

(** [pageName.replace(/\/$/, '.html')] *)
Definition localFileName (pageName : string) : string :=
  if JS.endsWith "/" pageName
  then JS.take (String.length pageName - 1) pageName +:+ ".html"
  else pageName.

(** [downloadPage(browser, pageName, index, total)] *)
Definition downloadPage (net : Net) (resolve : string → string) (pageName : string)
    (c : Clone) : bool * Clone :=
  let url := resolve pageName in
  let '(outcome, c1) := goto net url c in
  match outcome with
  | Throws _ => (false, c1)
  | Navigated None _ => (false, c1)
  | Navigated (Some r) page =>
      if negb (Browser.status r =? 200) then (false, c1)
      else
        let c2 := writeFile (RobustDownloader.pathJoin [pagesDir; localFileName pageName])
                    (Html (content page)) c1 in
        let '(imageMapping, _, c3) := downloadImages net (imgSrcs page) 0 ∅ 0 c2 in
        (true, writeFile mappingPath (ImageMapping imageMapping) c3)
  end.

Record Summary := {
  successCount : nat;
  failCount : nat
}.

(** [for (let i = 0; i < pages.length; i++)] of [main]. *)
Fixpoint cloneLoop (net : Net) (resolve : string → string) (pages : list string)
    (counts : Summary) (c : Clone) : Summary * Clone :=
  match pages with
  | [] => (counts, c)
  | pageName :: rest =>
      let '(success, c1) := downloadPage net resolve pageName c in
      let counts' :=
        if success
        then {| successCount := S (successCount counts); failCount := failCount counts |}
        else {| successCount := successCount counts; failCount := S (failCount counts) |} in
      cloneLoop net resolve rest counts' (sleep delayBetweenPages c1)
  end.

(** [main], once the page names are loaded; [answer] is what the user
    types.  [None]: stopped at the user's request. *)
Definition main (net : Net) (resolve : string → string) (pages : list string)
    (answer : string) (c : Clone) : option (Summary * Clone) :=
  if bool_decide (JS.mapChars JS.lowerChar answer = "y")
  then Some (cloneLoop net resolve pages {| successCount := 0; failCount := 0 |} c)
  else None.

(** The paths written, in order. *)
Definition written (es : list Event) : list string :=
  omap (λ e, match e with WriteFile p => Some p | _ => None end) es.

Definition start : Clone := {| files := ∅; events := []; clock := 0 |}.

End BrowserClone.

(** ** Vocabulary for the properties below *)

(** Breadth-first order of the frontier: what has been navigated to,
    followed by what is queued, is the seeds followed by the discovered
    links in order of discovery, without repetition; and the visited set
    holds exactly the URLs navigated to. *)
Definition breadthFirst (seeds : list string) (f : UrlDiscover.Frontier) : Prop :=
  UrlDiscover.fetched f ++ UrlDiscover.urlQueue f =
    seeds ++ UrlDiscover.discoveredUrls f ∧
  NoDup (UrlDiscover.fetched f ++ UrlDiscover.urlQueue f) ∧
  ∀ u, u ∈ UrlDiscover.visitedUrls f ↔ u ∈ UrlDiscover.fetched f.

(** The characters of a string. *)
Definition chars (s : string) : list ascii := String.list_ascii_of_string s.

(** Letters and digits only. *)
Definition alphanumeric (s : string) : Prop :=
  ∀ c, c ∈ chars s → JS.isAlnum c = true.

(** A lower-case letter or a digit. *)
Definition isLowerAlnum (c : ascii) : bool :=
  let n := nat_of_ascii c in
  ((48 <=? n) && (n <=? 57)) || ((97 <=? n) && (n <=? 122)).

(** The two quote characters that the pattern of [processHtmlContent]
    accepts around a source. *)
Definition isQuote (c : ascii) : Prop := c = ascii_of_nat 34 ∨ c = ascii_of_nat 39.

(** ** The [href] property of an anchor

  [a.href] is the attribute as the browser resolves it against the URL
  of the page.  For the four spellings of a reference to a page of the
  site (a full URL, a path from the root, a path that starts with one
  "../", and a path from the directory of the page), with names made
  of letters, digits, "_", "-" and "." in which no segment begins with
  a dot, the resolution of the URL Standard comes to this. *)

Module UrlResolution.

(** What precedes the slash after the [n]-th one. *)
Fixpoint upToSlash (n : nat) (s : string) : string :=
  match s with
  | "" => ""
  | String c s' =>
      if bool_decide (c = "/"%char) then
        match n with
        | 0 => ""
        | S n' => String c (upToSlash n' s')
        end
      else String c (upToSlash n s')
  end.

(** Scheme and host: what precedes the third slash. *)
Definition originOf (url : string) : string := upToSlash 2 url.

(** The URL up to its last slash. *)
Fixpoint directory (url : string) : string :=
  match url with
  | "" => ""
  | String c url' => if JS.includes "/" url then String c (directory url') else ""
  end.

(** A string without its last character. *)
Fixpoint init (s : string) : string :=
  match s with
  | "" => ""
  | String c s' =>
      match s' with
      | "" => ""
      | String _ _ => String c (init s')
      end
  end.

Definition resolve (pageUrl href : string) : string :=
  if JS.includes "://" href then href
  else if JS.startsWith "/" href then originOf pageUrl +:+ href
  else if JS.startsWith "../" href
  then directory (init (directory pageUrl)) +:+ JS.drop 3 href
  else directory pageUrl +:+ href.




(** The anchor the browser makes of an attribute on a page. *)
Definition anchor (pageUrl attribute : string) (text : option string) : Browser.Anchor :=
  {| Browser.href := resolve pageUrl attribute;
     Browser.hrefAttribute := Some attribute;
     Browser.innerText := text |}.

End UrlResolution.

(** More sample sites. *)
Module MoreScenarios.
Import Browser.

(** Every page answers 404. *)
Definition allMissing : Net := λ _ _, Scenarios.notFound.

(** Only page 4 of "honours" exists. *)
Definition fourthPage : Net :=
  Scenarios.serving [PaginatedUrls.pageUrl "honours" 4].

Definition honoursBase : FullUrlTester.WorkingUrl :=
  {| FullUrlTester.wPageName := "honours.html";
     FullUrlTester.wBaseName := "honours";
     FullUrlTester.workingUrl := "https://0002n8y.wcomhost.com/website/honours/";
     FullUrlTester.wTitle := "Club Honours";
     FullUrlTester.wContentLength := 0 |}.

(** Pages 2 to 10 of "History1", as found by an earlier run. *)
Definition earlier : list string :=
  ComprehensiveDiscovery.pageUrl "History1" <$> seq 2 9.

(** A site as [browser_clone.js] sees it: two pages with one image
    each; everything else answers 404. *)
Definition clonePage (srcs : list string) : BrowserClone.GotoOutcome :=
  BrowserClone.Navigated (Some {| status := 200; buffer := [] |})
    {| BrowserClone.content := "<html></html>"; BrowserClone.imgSrcs := srcs |}.

Definition cloneImage (code : nat) (bytes : list Byte.byte) : BrowserClone.GotoOutcome :=
  BrowserClone.Navigated (Some {| status := code; buffer := bytes |})
    {| BrowserClone.content := ""; BrowserClone.imgSrcs := [] |}.

Definition cloneSite : BrowserClone.Net := λ _ url,
  if bool_decide (url = "https://0002n8y.wcomhost.com/website/honours/")
  then clonePage ["https://0002n8y.wcomhost.com/website/honours/cup.png"]
  else if bool_decide (url = "https://0002n8y.wcomhost.com/website/top25/")
  then clonePage ["https://0002n8y.wcomhost.com/website/top25/ball.gif"]
  else if bool_decide (url = "https://0002n8y.wcomhost.com/website/honours/cup.png")
  then cloneImage 200 [Byte.x47]
  else if bool_decide (url = "https://0002n8y.wcomhost.com/website/top25/ball.gif")
  then cloneImage 200 [Byte.x49]
  else cloneImage 404 [].

(** [new URL(pageName, config.baseUrl)] on a relative page name. *)
Definition cloneResolve (pageName : string) : string :=
  "https://0002n8y.wcomhost.com/website/" +:+ pageName.

(** The clone after the page "honours/" alone. *)
Definition afterHonours : BrowserClone.Clone :=
  (BrowserClone.downloadPage cloneSite cloneResolve "honours/" BrowserClone.start).2.

End MoreScenarios.

(** * Properties *)

Section ClassifierFacts.
Import Browser Classifier.

Lemma hasContent_spec (bodyText title : string) :
  hasContent bodyText title = true ↔
  5 < String.length bodyText ∨ (title ≠ "" ∧ title ≠ "Untitled").
Proof.
  unfold hasContent, JS.truthy.
  rewrite orb_true_iff, !andb_true_iff, !negb_true_iff, !bool_decide_eq_false.
  rewrite !Nat.ltb_lt.
  split.
  - intros [?|[[? ?] ?]]; auto.
  - intros [?|[Hne ?]]; [by left|right].
    repeat split; try done.
    destruct title; [done|simpl; lia].
Qed.

Lemma testUrl_success_200 (r : Response) (d : Document) :
  status r = 200 →
  success (testUrl (Navigated (Some r) d)) = hasContent (bodyText d) (title d) ∧
  success (testUrl_verbose (Navigated (Some r) d)) = hasContent (bodyText d) (title d).
Proof.
  intros H200. unfold testUrl, testUrl_verbose. rewrite H200. simpl.
  by destruct (hasContent _ _).
Qed.

(** C1: on a response with status 200 the classifier (in both of its
    shapes) accepts exactly when the trimmed body text is longer than 5
    code units or the title is neither empty nor "Untitled"; with an
    empty body text, the title "Untitled" is rejected and the title
    "Club Honours" is accepted. *)
Theorem classifier_accepts_iff (r : Response) (d : Document) :
  status r = 200 →
  (success (testUrl (Navigated (Some r) d)) = true ↔
     5 < String.length (bodyText d) ∨ (title d ≠ "" ∧ title d ≠ "Untitled")) ∧
  (success (testUrl_verbose (Navigated (Some r) d)) = true ↔
     5 < String.length (bodyText d) ∨ (title d ≠ "" ∧ title d ≠ "Untitled")) ∧
  (bodyText d = "" → title d = "Untitled" →
     success (testUrl (Navigated (Some r) d)) = false ∧
     success (testUrl_verbose (Navigated (Some r) d)) = false) ∧
  (bodyText d = "" → title d = "Club Honours" →
     success (testUrl (Navigated (Some r) d)) = true ∧
     success (testUrl_verbose (Navigated (Some r) d)) = true).
Proof.
  intros H200.
  destruct (testUrl_success_200 r d H200) as [-> ->].
  split; [apply hasContent_spec|].
  split; [apply hasContent_spec|].
  split; intros -> ->; by compute.
Qed.

End ClassifierFacts.

Section FilenameFacts.
Import RobustDownloader.

Lemma sanitize_alnum (s : string) :
  (∀ c, c ∈ String.list_ascii_of_string s → JS.isAlnum c = true) → sanitize s = s.
Proof.
  unfold sanitize. induction s as [|c s IH]; intros Hall; [done|].
  simpl. rewrite (Hall c) by (simpl; left). f_equal. apply IH.
  intros c' Hc'. apply Hall. simpl. by right.
Qed.

Lemma sanitize_safe (s : string) (c : ascii) :
  c ∈ String.list_ascii_of_string (sanitize s) → JS.isAlnum c = true ∨ c = "_"%char.
Proof.
  unfold sanitize. induction s as [|a s IH]; simpl.
  - by intros ?%elem_of_nil.
  - intros [->|?]%elem_of_cons; [|by apply IH].
    destruct (JS.isAlnum a) eqn:Ha; auto.
Qed.

End FilenameFacts.

(** ** Facts about strings *)

Lemma string_length_app (s t : string) :
  String.length (s +:+ t) = String.length s + String.length t.
Proof. induction s as [|c s IH]; simpl; [done|by rewrite IH]. Qed.

Lemma string_app_inj_r (s1 s2 t : string) : s1 +:+ t = s2 +:+ t → s1 = s2.
Proof.
  revert s2. induction s1 as [|c s1 IH]; intros [|c2 s2] Heq; simpl in Heq.
  - done.
  - apply (f_equal String.length) in Heq.
    rewrite !string_length_app in Heq. simpl in Heq. lia.
  - apply (f_equal String.length) in Heq.
    rewrite !string_length_app in Heq. simpl in Heq. lia.
  - change (String c (s1 +:+ t) = String c2 (s2 +:+ t)) in Heq.
    injection Heq as -> Heq. f_equal. by apply IH.
Qed.

Section PaginationFacts.
Import Browser Classifier Pagination.

Local Arguments pageUrl : simpl never.
Local Arguments testUrl : simpl never.

Lemma pageUrl_inj cfg s : Inj (=) (=) (pageUrl cfg s).
Proof.
  intros n m Heq. unfold pageUrl in Heq.
  apply (inj (String.app (baseUrl cfg))) in Heq.
  apply (inj (String.app s)) in Heq.
  apply (inj (String.app "/page")) in Heq.
  apply string_app_inj_r in Heq.
  by apply (inj (pretty (A:=nat))) in Heq.
Qed.

Lemma pageUrls_cons cfg s first count :
  pageUrls cfg s first (S count) = pageUrl cfg s first :: pageUrls cfg s (S first) count.
Proof. reflexivity. Qed.

Lemma elem_of_pageUrls cfg s first count n :
  pageUrl cfg s n ∈ pageUrls cfg s first count ↔ first ≤ n < first + count.
Proof.
  unfold pageUrls. rewrite list_elem_of_fmap. split.
  - intros (m & Heq & Hm). apply pageUrl_inj in Heq as ->.
    by apply elem_of_seq in Hm.
  - intros Hn. exists n. split; [done|]. by apply elem_of_seq.
Qed.

(** One accepted probe: the page is recorded, the failure counter is
    reset and the loop goes on. *)
Lemma probeLoop_accepted cfg net s remaining pageNum p :
  success (probe net (pageUrl cfg s pageNum) p) = true →
  ∃ p', probeLoop cfg net s (S remaining) pageNum p =
        probeLoop cfg net s remaining (S pageNum) p' ∧
        foundAnyPages p' = true ∧ consecutiveFailures p' = 0 ∧
        requested p' = requested p ++ [pageUrl cfg s pageNum].
Proof.
  intros Hacc. simpl.
  destruct (probe net (pageUrl cfg s pageNum) p) as [t len| |]; [|done..].
  eexists. split; [reflexivity|]. done.
Qed.

(** One rejected probe: the failure counter grows by one, and the loop
    goes on exactly when neither threshold is reached. *)
Lemma probeLoop_rejected cfg net s remaining pageNum p :
  success (probe net (pageUrl cfg s pageNum) p) = false →
  ∃ p', probeLoop cfg net s (S remaining) pageNum p =
          (if (foundAnyPages p && (stopAfterFound cfg <=? S (consecutiveFailures p))) ||
              (negb (foundAnyPages p) && (stopBeforeFound cfg <=? S (consecutiveFailures p)))
           then p'
           else probeLoop cfg net s remaining (S pageNum) p') ∧
        foundAnyPages p' = foundAnyPages p ∧
        consecutiveFailures p' = S (consecutiveFailures p) ∧
        requested p' = requested p ++ [pageUrl cfg s pageNum].
Proof.
  intros Hrej. simpl.
  destruct (probe net (pageUrl cfg s pageNum) p) as [t len| |]; [done|..].
  all: exists {| pages := pages p; totalPages := totalPages p;
                 totalPagesFound := totalPagesFound p;
                 consecutiveFailures := S (consecutiveFailures p);
                 foundAnyPages := foundAnyPages p;
                 requested := requested p ++ [pageUrl cfg s pageNum] |}.
  all: split; [|done]; simpl.
  all: by destruct (foundAnyPages p), (stopAfterFound cfg <=? _),
                   (stopBeforeFound cfg <=? _).
Qed.

(** Once a page has been found, the loop stops at the probe that brings
    the failure counter to [stopAfterFound]. *)
Lemma probeLoop_stops_after_found cfg net s k :
  ∀ remaining pageNum p,
    foundAnyPages p = true →
    1 ≤ k ≤ remaining →
    consecutiveFailures p + k = stopAfterFound cfg →
    (∀ i n, pageNum ≤ n < pageNum + k →
            success (testUrl (net i (pageUrl cfg s n))) = false) →
    requested (probeLoop cfg net s remaining pageNum p) =
    requested p ++ pageUrls cfg s pageNum k.
Proof.
  induction k as [|k IH]; intros remaining pageNum p Hfound Hk Hsum Hrej; [lia|].
  destruct remaining as [|remaining]; [lia|].
  destruct (probeLoop_rejected cfg net s remaining pageNum p)
    as (p' & -> & Hf' & Hc' & Hr').
  { apply Hrej. lia. }
  rewrite Hfound. simpl.
  destruct (stopAfterFound cfg <=? S (consecutiveFailures p)) eqn:Hle.
  - apply Nat.leb_le in Hle. assert (k = 0) as -> by lia.
    simpl. by rewrite Hr'.
  - apply Nat.leb_gt in Hle. simpl.
    rewrite IH; try lia.
    + rewrite Hr', pageUrls_cons, <-app_assoc. done.
    + by rewrite Hf'.
    + intros i n Hn. apply Hrej. lia.
Qed.

(** While nothing has been found, the loop stops at the probe that
    brings the failure counter to [stopBeforeFound]. *)
Lemma probeLoop_stops_before_found cfg net s k :
  ∀ remaining pageNum p,
    foundAnyPages p = false →
    1 ≤ k ≤ remaining →
    consecutiveFailures p + k = stopBeforeFound cfg →
    (∀ i n, pageNum ≤ n < pageNum + k →
            success (testUrl (net i (pageUrl cfg s n))) = false) →
    requested (probeLoop cfg net s remaining pageNum p) =
    requested p ++ pageUrls cfg s pageNum k.
Proof.
  induction k as [|k IH]; intros remaining pageNum p Hfound Hk Hsum Hrej; [lia|].
  destruct remaining as [|remaining]; [lia|].
  destruct (probeLoop_rejected cfg net s remaining pageNum p)
    as (p' & -> & Hf' & Hc' & Hr').
  { apply Hrej. lia. }
  rewrite Hfound. simpl.
  destruct (stopBeforeFound cfg <=? S (consecutiveFailures p)) eqn:Hle.
  - apply Nat.leb_le in Hle. assert (k = 0) as -> by lia.
    simpl. by rewrite Hr'.
  - apply Nat.leb_gt in Hle. simpl.
    rewrite IH; try lia.
    + rewrite Hr', pageUrls_cons, <-app_assoc. done.
    + by rewrite Hf'.
    + intros i n Hn. apply Hrej. lia.
Qed.

(** Pages 1 and 2 accepted, then [stopAfterFound] rejections: whatever
    the loop variables were at the start, the probes are those of pages
    1 to [2 + stopAfterFound]. *)
Lemma probeLoop_two_pages cfg net s p :
  1 ≤ stopAfterFound cfg →
  2 + stopAfterFound cfg ≤ maxPagesToTest cfg →
  (∀ i, success (testUrl (net i (pageUrl cfg s 1))) = true) →
  (∀ i, success (testUrl (net i (pageUrl cfg s 2))) = true) →
  (∀ i n, 3 ≤ n < 3 + stopAfterFound cfg →
          success (testUrl (net i (pageUrl cfg s n))) = false) →
  requested (probeLoop cfg net s (maxPagesToTest cfg) 1 p) =
  requested p ++ pageUrls cfg s 1 (2 + stopAfterFound cfg).
Proof.
  intros HM Hmax H1 H2 Hrej.
  destruct (maxPagesToTest cfg) as [|[|remaining]] eqn:Hceil; [lia..|].
  destruct (probeLoop_accepted cfg net s (S remaining) 1 p)
    as (p1 & -> & _ & _ & Hr1); [apply H1|].
  destruct (probeLoop_accepted cfg net s remaining 2 p1)
    as (p2 & -> & Hf2 & Hc2 & Hr2); [apply H2|].
  rewrite (probeLoop_stops_after_found cfg net s (stopAfterFound cfg));
    [|done|lia|lia|done].
  rewrite Hr2, Hr1, <-!app_assoc. reflexivity.
Qed.

(** C4: once a page has been accepted, the probing loop stops at the
    probe that makes [stopAfterFound] consecutive failures (first
    part, for any configuration and loop state); with M = 5 as in both
    probing scripts, pages 1 and 2 accepted and pages 3 to 3+M-1
    rejected, the scripts probe pages 1 to 3+M-1 and nothing else, so
    page 3+M is never probed. *)
Theorem pagination_early_stop (net : Net) (sectionName : string)
    (found : nat) (log : list string) :
  let M := 5 in
  let accepted n := ∀ i,
    success (testUrl (net i (pageUrl missingSections sectionName n))) = true in
  let rejected n := ∀ i,
    success (testUrl (net i (pageUrl missingSections sectionName n))) = false in
  (∀ cfg remaining pageNum p k,
     foundAnyPages p = true →
     1 ≤ k ≤ remaining →
     consecutiveFailures p + k = stopAfterFound cfg →
     (∀ i n, pageNum ≤ n < pageNum + k →
             success (testUrl (net i (pageUrl cfg sectionName n))) = false) →
     requested (probeLoop cfg net sectionName remaining pageNum p) =
     requested p ++ pageUrls cfg sectionName pageNum k) ∧
  (accepted 1 → accepted 2 → (∀ n, 3 ≤ n ≤ 3 + M - 1 → rejected n) →
   stopAfterFound missingSections = M ∧
   stopAfterFound targetedSections = M ∧
   requested (testMissingSection net sectionName found log) =
     log ++ pageUrls missingSections sectionName 1 (3 + M - 1) ∧
   requested (testTargetedSection net sectionName found log) =
     log ++ [baseUrl targetedSections +:+ sectionName +:+ "/"] ++
     pageUrls targetedSections sectionName 1 (3 + M - 1) ∧
   pageUrl missingSections sectionName (3 + M) ∉
     pageUrls missingSections sectionName 1 (3 + M - 1)).
Proof.
  intros M accepted rejected. split.
  { intros cfg remaining pageNum p k. apply probeLoop_stops_after_found. }
  intros H1 H2 Hrej.
  split; [done|]. split; [done|]. split; [|split].
  - unfold testMissingSection.
    rewrite (probeLoop_two_pages missingSections); [done|simpl; lia..|done|done|].
    intros i n Hn. apply Hrej. simpl in Hn. lia.
  - unfold testTargetedSection.
    rewrite (probeLoop_two_pages targetedSections); [|simpl; lia..|done|done|].
    + by destruct (probe net _ _); simpl; rewrite <-app_assoc.
    + intros i n Hn. apply Hrej. simpl in Hn. lia.
  - rewrite elem_of_pageUrls. lia.
Qed.

Lemma pagination_early_stop_witness :
  requested (testMissingSection Scenarios.twoPages "season2022" 0 []) =
    pageUrls missingSections "season2022" 1 7 ∧
  requested (testTargetedSection Scenarios.twoPages "season2022" 0 []) =
    (baseUrl targetedSections +:+ "season2022/") ::
    pageUrls targetedSections "season2022" 1 7.
Proof.
  destruct (pagination_early_stop Scenarios.twoPages "season2022" 0 [])
    as [_ H].
  destruct H as (_ & _ & Hm & Ht & _).
  - intros i. vm_compute. reflexivity.
  - intros i. vm_compute. reflexivity.
  - intros n Hn i.
    assert (n = 3 ∨ n = 4 ∨ n = 5 ∨ n = 6 ∨ n = 7) as Hcases by (simpl in Hn; lia).
    destruct Hcases as [->|[->|[->|[->| ->]]]]; vm_compute; reflexivity.
  - split; [exact Hm|exact Ht].
Defined.

(** C7, as the code has it: while no page has been accepted, the loop
    stops after 10 consecutive failures in [testMissingSections] and
    after 8 in [testTargetedSections] (whose base directory must have
    been rejected too), and both thresholds are larger than the
    threshold 5 used once a page has been accepted. *)
Theorem nothing_found_threshold (net : Net) (sectionName : string)
    (found : nat) (log : list string) :
  let sectionBase := baseUrl targetedSections +:+ sectionName +:+ "/" in
  let rejected url := ∀ i, success (testUrl (net i url)) = false in
  (∀ n, 1 ≤ n ≤ 10 → rejected (pageUrl missingSections sectionName n)) →
  rejected sectionBase →
  requested (testMissingSection net sectionName found log) =
    log ++ pageUrls missingSections sectionName 1 10 ∧
  requested (testTargetedSection net sectionName found log) =
    log ++ [sectionBase] ++ pageUrls targetedSections sectionName 1 8 ∧
  stopBeforeFound missingSections = 10 ∧
  stopBeforeFound targetedSections = 8 ∧
  stopAfterFound missingSections < stopBeforeFound missingSections ∧
  stopAfterFound targetedSections < stopBeforeFound targetedSections.
Proof.
  intros sectionBase rejected Hrej Hbase.
  split; [|split; [|by simpl; repeat split; lia]].
  - unfold testMissingSection.
    rewrite (probeLoop_stops_before_found missingSections net sectionName 10);
      [done|done|simpl; lia|done|].
    intros i n Hn. apply Hrej. lia.
  - unfold testTargetedSection.
    specialize (Hbase (length log)). fold sectionBase.
    assert (probe net sectionBase (freshProbe found log) =
            testUrl (net (length log) sectionBase)) as -> by done.
    destruct (testUrl (net (length log) sectionBase)); [done|..].
    all: rewrite (probeLoop_stops_before_found targetedSections net sectionName 8);
      [by simpl; rewrite <-app_assoc|done|simpl; lia|done|].
    all: intros i n Hn; apply Hrej; lia.
Qed.

Lemma nothing_found_threshold_witness :
  requested (testMissingSection Scenarios.unreachable "gallery" 0 []) =
    pageUrls missingSections "gallery" 1 10 ∧
  requested (testTargetedSection Scenarios.unreachable "gallery" 0 []) =
    (baseUrl targetedSections +:+ "gallery/") ::
    pageUrls targetedSections "gallery" 1 8.
Proof.
  destruct (nothing_found_threshold Scenarios.unreachable "gallery" 0 [])
    as (Hm & Ht & _).
  - intros n Hn i. reflexivity.
  - intros i. reflexivity.
  - split; [exact Hm|exact Ht].
Defined.

(** C7 as the specification states it fails: on a site where nothing
    is ever accepted, [testMissingSections] does not stop before the
    threshold used after a page was found. *)
Lemma smaller_threshold_counterexample :
  ¬ (∀ (net : Net) (sectionName : string),
       (∀ i url, success (testUrl (net i url)) = false) →
       length (requested (testMissingSection net sectionName 0 [])) <
       stopAfterFound missingSections).
Proof.
  intros H.
  specialize (H Scenarios.unreachable "gallery" (λ _ _, eq_refl)).
  vm_compute in H. lia.
Qed.

End PaginationFacts.

Section FrontierFacts.
Import Browser UrlDiscover.

Lemma fetchedOnce_initial seeds : fetchedOnce (initial seeds).
Proof. split; [constructor|]. by intros u ?%elem_of_nil. Qed.

Lemma enqueue_fetched link f : fetched (enqueue link f) = fetched f.
Proof. unfold enqueue. by destruct (_ && _). Qed.

Lemma enqueue_visited link f : visitedUrls (enqueue link f) = visitedUrls f.
Proof. unfold enqueue. by destruct (_ && _). Qed.

Lemma enqueue_queue link f :
  urlQueue (enqueue link f) =
  if decide ((link ∉ visitedUrls f) ∧ (link ∉ urlQueue f))
  then urlQueue f ++ [link] else urlQueue f.
Proof.
  unfold enqueue.
  destruct (decide ((link ∉ visitedUrls f) ∧ (link ∉ urlQueue f))) as [[Hv Hq]|Hn].
  - by rewrite !bool_decide_eq_false_2.
  - destruct (bool_decide (link ∈ visitedUrls f)) eqn:Hv; [done|].
    destruct (bool_decide (link ∈ urlQueue f)) eqn:Hq; [done|].
    apply bool_decide_eq_false in Hv, Hq. tauto.
Qed.

Lemma enqueue_fetchedOnce link f : fetchedOnce f → fetchedOnce (enqueue link f).
Proof. unfold fetchedOnce. by rewrite enqueue_fetched, enqueue_visited. Qed.

Lemma enqueueAll_fetched links f : fetched (enqueueAll links f) = fetched f.
Proof.
  unfold enqueueAll. revert f.
  induction links as [|l links IH]; intros f; simpl; [done|].
  by rewrite IH, enqueue_fetched.
Qed.

Lemma enqueueAll_fetchedOnce links f :
  fetchedOnce f → fetchedOnce (enqueueAll links f).
Proof.
  unfold enqueueAll. revert f.
  induction links as [|l links IH]; intros f Hf; simpl; [done|].
  by apply IH, enqueue_fetchedOnce.
Qed.

Lemma nextUnvisited_Some visited queue u queue' :
  nextUnvisited visited queue = Some (u, queue') →
  (u ∉ visited) ∧ ∃ skipped, queue = skipped ++ u :: queue' ∧
                           ∀ v, v ∈ skipped → v ∈ visited.
Proof.
  induction queue as [|c queue IH]; simpl; [done|].
  case_bool_decide as Hc.
  - intros (Hu & skipped & -> & Hs)%IH. split; [done|].
    exists (c :: skipped). split; [done|].
    intros v [->|?]%elem_of_cons; auto.
  - intros [= -> ->]. split; [done|]. exists []. split; [done|].
    by intros v ?%elem_of_nil.
Qed.

(** [next] hands out a URL that was not visited, and marks it. *)
Lemma next_Some f u f' :
  next f = (Some u, f') →
  (u ∉ visitedUrls f) ∧ visitedUrls f' = {[u]} ∪ visitedUrls f ∧
  fetched f' = fetched f ++ [u].
Proof.
  unfold next.
  destruct (nextUnvisited _ _) as [[u' q']|] eqn:Hn; [|done].
  intros [= -> <-]. by apply nextUnvisited_Some in Hn as [? _].
Qed.

Lemma next_None f f' :
  next f = (None, f') →
  visitedUrls f' = visitedUrls f ∧ fetched f' = fetched f.
Proof.
  unfold next.
  destruct (nextUnvisited _ _) as [[u' q']|] eqn:Hn; [done|].
  by intros [= <-].
Qed.

Lemma next_fetchedOnce f r f' : next f = (r, f') → fetchedOnce f → fetchedOnce f'.
Proof.
  intros Hnext [Hnd Hvis]. destruct r as [u|].
  - apply next_Some in Hnext as (Hu & Hv & Hf). split.
    + rewrite Hf. apply NoDup_app. split; [done|]. split.
      * intros v Hv1 ->%list_elem_of_singleton. by apply Hu, Hvis.
      * apply NoDup_singleton.
    + intros v. rewrite Hf, Hv, elem_of_app, list_elem_of_singleton.
      intros [Hin| ->].
      * apply elem_of_union_r. by apply Hvis.
      * apply elem_of_union_l. by apply elem_of_singleton.
  - apply next_None in Hnext as (Hv & Hf). split; rewrite Hf; [done|].
    by rewrite Hv.
Qed.

(** The results of the [Next] operations are what the log gained. *)
Lemma runOps_fetched ops :
  ∀ f, fetched (runOps ops f).2 = fetched f ++ (runOps ops f).1.
Proof.
  induction ops as [|[url|] ops IH]; intros f; simpl.
  - by rewrite app_nil_r.
  - by rewrite IH, enqueue_fetched.
  - destruct (next f) as [r f1] eqn:Hnext.
    specialize (IH f1). destruct (runOps ops f1) as [rs f2]. simpl in *.
    rewrite IH. destruct r as [u|].
    + apply next_Some in Hnext as (_ & _ & ->). by rewrite <-app_assoc.
    + by apply next_None in Hnext as (_ & ->).
Qed.

Lemma runOps_fetchedOnce ops :
  ∀ f, fetchedOnce f → fetchedOnce (runOps ops f).2.
Proof.
  induction ops as [|[url|] ops IH]; intros f Hf; simpl.
  - done.
  - by apply IH, enqueue_fetchedOnce.
  - destruct (next f) as [r f1] eqn:Hnext.
    specialize (IH f1 (next_fetchedOnce _ _ _ Hnext Hf)).
    by destruct (runOps ops f1) as [rs f2].
Qed.

Lemma crawl_fetchedOnce net fuel :
  ∀ f f', crawl net fuel f = Some f' → fetchedOnce f → fetchedOnce f'.
Proof.
  induction fuel as [|fuel IH]; intros f f' Hcrawl Hf; simpl in Hcrawl.
  - destruct (next f) as [[u|] f1] eqn:Hnext; [done|].
    injection Hcrawl as <-. by eapply next_fetchedOnce.
  - destruct (next f) as [[u|] f1] eqn:Hnext.
    + pose proof (next_fetchedOnce _ _ _ Hnext Hf) as Hf1.
      destruct (net _ _) as [msg|resp doc].
      * by eapply IH.
      * eapply IH; [done|]. by apply enqueueAll_fetchedOnce.
    + injection Hcrawl as <-. by eapply next_fetchedOnce.
Qed.

(** C2: whatever the interleaving of [enqueue] and [next], and whatever
    the seeds, no URL is returned by [next] twice; [enqueue] adds a
    link exactly when it is neither visited nor queued; [next] returns
    a URL that was not visited and marks it visited at once; and the
    navigations of a finished [discoverUrls] run are pairwise
    distinct. *)
Theorem at_most_once_visitation (ops : list Op) (seeds : list string) :
  NoDup (runOps ops (initial seeds)).1 ∧
  (∀ link f,
     urlQueue (enqueue link f) =
       (if decide ((link ∉ visitedUrls f) ∧ (link ∉ urlQueue f))
        then urlQueue f ++ [link] else urlQueue f) ∧
     visitedUrls (enqueue link f) = visitedUrls f) ∧
  (∀ f u f', next f = (Some u, f') →
     (u ∉ visitedUrls f) ∧ u ∈ visitedUrls f') ∧
  (∀ net fuel f', discoverUrls net fuel = Some f' → NoDup (fetched f')).
Proof.
  split; [|split; [|split]].
  - pose proof (runOps_fetchedOnce ops _ (fetchedOnce_initial seeds)) as [Hnd _].
    by rewrite runOps_fetched in Hnd.
  - intros link f. split; [apply enqueue_queue|apply enqueue_visited].
  - intros f u f' (Hu & Hv & _)%next_Some. split; [done|].
    rewrite Hv. apply elem_of_union_l. by apply elem_of_singleton.
  - intros net fuel f' Hrun.
    by apply (crawl_fetchedOnce net fuel _ _ Hrun (fetchedOnce_initial _)).
Qed.

Lemma at_most_once_visitation_witness :
  NoDup (runOps [Next; Enqueue "top25/"; Enqueue "a.html"; Next; Enqueue "a.html";
                 Next; Enqueue "top25/"; Next; Next]
                (initial ["top25/"; "top25/"; "nextgame/"])).1 ∧
  ∃ f', discoverUrls Scenarios.smallSite 10 = Some f' ∧ NoDup (fetched f').
Proof.
  destruct (at_most_once_visitation
              [Next; Enqueue "top25/"; Enqueue "a.html"; Next; Enqueue "a.html";
               Next; Enqueue "top25/"; Next; Next]
              ["top25/"; "top25/"; "nextgame/"]) as (Hops & _ & _ & Hrun).
  split; [exact Hops|].
  destruct (discoverUrls Scenarios.smallSite 10) as [f'|] eqn:Hf'.
  - exists f'. split; [reflexivity|]. exact (Hrun _ _ _ Hf').
  - vm_compute in Hf'. discriminate Hf'.
Defined.

(** The run of the witness, spelled out. *)
Example discoverUrls_smallSite :
  fetched <$> discoverUrls Scenarios.smallSite 10 =
  Some ["everyplayer/"; "top25/"; "nextgame/"; "players/a.html"; "gone.html"].
Proof. vm_compute. reflexivity. Qed.

(** Without the browser's resolution (an anchor whose [href] property
    is empty), the script's own prefixing does not bring spellings
    together: it appends the raw attribute to the page URL. *)
Example normalize_raw_attribute :
  let pageUrl := "https://0002n8y.wcomhost.com/website/everyplayer/" in
  let raw h := {| href := ""; hrefAttribute := Some h; innerText := None |} in
  normalize pageUrl (raw "/website/top25/") = Some "top25/" ∧
  normalize pageUrl (raw "../top25/") = Some "everyplayer/../top25/".
Proof. vm_compute. split; reflexivity. Qed.

End FrontierFacts.

Section DownloaderFacts.
Import Browser RobustDownloader.

Context (cfg : Config) (net : Net) (md5hex : string → string).

Lemma navigations_app (es1 es2 : list Event) :
  navigations (es1 ++ es2) = navigations es1 ++ navigations es2.
Proof. apply omap_app. Qed.

Lemma writtenMarkup_app (es1 es2 : list Event) :
  writtenMarkup (es1 ++ es2) = writtenMarkup es1 ++ writtenMarkup es2.
Proof. apply omap_app. Qed.

(** What one pass of the image loop's body does to the downloader. *)
Lemma downloadImage_effects imageData downloadedImages d :
  let r := downloadImage cfg net md5hex imageData downloadedImages d in
  downloadedUrls r.2 = downloadedUrls d ∧
  failedUrls r.2 = failedUrls d ∧
  stats r.2 = stats d ∧
  clock r.2 = S (clock d) ∧
  (∃ rest, events r.2 = events d ++ rest ∧
           navigations rest = [src imageData] ∧ writtenMarkup rest = []) ∧
  (imageMapping r.2 = imageMapping d ∨
   ∃ v, imageMapping r.2 = mapSet (originalSrc imageData) v (imageMapping d)).
Proof.
  unfold downloadImage, goto. simpl.
  destruct (net (clock d) (src imageData)) as [msg|[resp|] doc]; simpl;
    [|destruct (ok resp); simpl|].
  all: split_and!; try done; [|eauto].
  all: eexists; split; [rewrite <-?app_assoc; reflexivity|done].
Qed.

Lemma elem_of_mapSet_keys k v m k' :
  k' ∈ (mapSet k v m).*1 → k' = k ∨ k' ∈ m.*1.
Proof.
  induction m as [|[k0 v0] m IH]; simpl.
  - intros ->%list_elem_of_singleton. by left.
  - case_bool_decide as Hk; simpl.
    + intros [->|?]%elem_of_cons; [by left|].
      right. by apply elem_of_cons; right.
    + intros [->|[->|?]%IH]%elem_of_cons; [right|by left|right].
      * by apply elem_of_cons; left.
      * by apply elem_of_cons; right.
Qed.

(** A skipped image is passed over. *)
Lemma downloadImagesLoop_filter images :
  ∀ downloadedImages d,
    downloadImagesLoop cfg net md5hex images downloadedImages d =
    downloadImagesLoop cfg net md5hex
      (filter (λ i, skipped i = false) images) downloadedImages d.
Proof.
  induction images as [|i images IH]; intros acc d; [done|].
  rewrite filter_cons. simpl. destruct (skipped i) eqn:Hskip.
  - rewrite decide_False by done. apply IH.
  - rewrite decide_True by done. simpl. rewrite Hskip.
    destruct (downloadImage _ _ _ _ _ _) as [acc' d']. apply IH.
Qed.

Lemma downloadImagesLoop_effects images :
  ∀ downloadedImages d,
    let r := downloadImagesLoop cfg net md5hex images downloadedImages d in
    downloadedUrls r.2 = downloadedUrls d ∧
    failedUrls r.2 = failedUrls d ∧
    stats r.2 = stats d ∧
    (∃ rest, events r.2 = events d ++ rest ∧
             navigations rest = src <$> filter (λ i, skipped i = false) images ∧
             writtenMarkup rest = []) ∧
    (∀ k, k ∈ (imageMapping r.2).*1 →
          k ∈ (imageMapping d).*1 ∨
          ∃ i, i ∈ images ∧ skipped i = false ∧ originalSrc i = k).
Proof.
  induction images as [|i images IH]; intros acc d; simpl.
  { repeat split; auto. exists []. by rewrite app_nil_r. }
  rewrite filter_cons. destruct (skipped i) eqn:Hskip.
  - rewrite decide_False by done.
    destruct (IH acc d) as (Hd & Hf & Hs & He & Hm).
    repeat split; try done.
    intros k [?|(j & Hj & ? & ?)]%Hm; [by left|right].
    exists j. split; [by apply elem_of_cons; right|done].
  - rewrite decide_True by done.
    pose proof (downloadImage_effects i acc d) as (Hd1 & Hf1 & Hs1 & _ & He1 & Hm1).
    destruct (downloadImage _ _ _ _ _ _) as [acc' d']. simpl in *.
    destruct (IH acc' d') as (Hd & Hf & Hs & He & Hm).
    repeat split; try congruence.
    + destruct He1 as (rest1 & He1 & Hn1 & Hw1).
      destruct He as (rest & He & Hn & Hw).
      exists (rest1 ++ rest). rewrite He, He1, <-app_assoc. split; [done|].
      rewrite navigations_app, writtenMarkup_app, Hn1, Hn, Hw1, Hw. done.
    + intros k [Hk|(j & Hj & ? & ?)]%Hm.
      * destruct Hm1 as [Heq|[v Heq]]; rewrite Heq in Hk; [by left|].
        apply elem_of_mapSet_keys in Hk as [->|?]; [right|by left].
        exists i. split; [by apply elem_of_cons; left|done].
      * right. exists j. split; [by apply elem_of_cons; right|done].
Qed.

(** C10: an image whose [src] is empty or starts with "data:" has no
    effect on the download loop: the loop does what it does on the
    list without such images; the navigations it makes are exactly
    those to the sources of the other images, in order; every key the
    asset mapping gains is the original source of an image that was not
    skipped; and a list of skipped images only leaves the downloader
    as it was. *)
Theorem skipped_images_ignored (images : list ImageData)
    (downloadedImages : list DownloadedImage) (d : Downloader) :
  let kept := filter (λ i, skipped i = false) images in
  let r := downloadImagesLoop cfg net md5hex images downloadedImages d in
  (∀ i, skipped i = true ↔ src i = "" ∨ JS.startsWith "data:" (src i) = true) ∧
  r = downloadImagesLoop cfg net md5hex kept downloadedImages d ∧
  (∃ rest, events r.2 = events d ++ rest ∧ navigations rest = src <$> kept) ∧
  (∀ k, k ∈ (imageMapping r.2).*1 →
        k ∈ (imageMapping d).*1 ∨ ∃ i, i ∈ kept ∧ originalSrc i = k) ∧
  (kept = [] → r = (downloadedImages, d)).
Proof.
  intros kept r. split; [|split; [|split; [|split]]].
  - intros i. unfold skipped, JS.truthy.
    rewrite orb_true_iff, negb_true_iff, negb_false_iff, bool_decide_eq_true.
    done.
  - apply downloadImagesLoop_filter.
  - destruct (downloadImagesLoop_effects images downloadedImages d)
      as (_ & _ & _ & (rest & ? & ? & _) & _).
    by exists rest.
  - destruct (downloadImagesLoop_effects images downloadedImages d)
      as (_ & _ & _ & _ & Hm).
    intros k [?|(i & Hi & Hs & <-)]%Hm; [by left|right].
    exists i. split; [|done]. by apply list_elem_of_filter.
  - intros Hnone. unfold r. rewrite downloadImagesLoop_filter.
    fold kept. by rewrite Hnone.
Qed.

(** ** One attempt at a page *)

Lemma tryDownloadPage_throws urlData d message :
  net (clock d) (url urlData) = Throws message →
  tryDownloadPage cfg net md5hex urlData d = (inl message, (goto net (url urlData) d).2).
Proof. intros Hnet. unfold tryDownloadPage, goto. by rewrite Hnet. Qed.

(** When the navigation succeeds the markup is processed with the
    mapping the downloader had before this page, and written, before
    any of the page's images is fetched; the attempt cannot fail after
    that. *)
Lemma tryDownloadPage_loaded urlData d response doc :
  net (clock d) (url urlData) = Navigated response doc →
  let r := tryDownloadPage cfg net md5hex urlData d in
  let filename := generateFilename (sectionName urlData) (pageNumber urlData) in
  let htmlPath := pathJoin [outputDir cfg; pagesDir cfg; filename +:+ ".html"] in
  (∃ n, r.1 = inr (Saved (url urlData) (filename +:+ ".html") n)) ∧
  (∃ rest,
     events r.2 =
       events d ++
       [Goto (url urlData); Sleep 1000;
        WriteFile htmlPath (Html (processHtmlContent d (content doc) (images doc)))] ++
       rest ∧
     navigations rest = src <$> filter (λ i, skipped i = false) (images doc) ∧
     writtenMarkup rest = []) ∧
  downloadedUrls r.2 = setAdd (url urlData) (downloadedUrls d) ∧
  failedUrls r.2 = failedUrls d ∧
  failed (stats r.2) = failed (stats d) ∧
  downloaded (stats r.2) = S (downloaded (stats d)).
Proof.
  intros Hnet. unfold tryDownloadPage, goto. rewrite Hnet.
  unfold downloadImages.
  match goal with
  | |- context [downloadImagesLoop cfg net md5hex ?imgs [] ?d0] =>
      pose proof (downloadImagesLoop_effects imgs [] d0) as (Hd & Hf & Hs & He & _);
      destruct (downloadImagesLoop cfg net md5hex imgs [] d0) as [acc d4]
  end.
  simpl in *. split_and!; eauto.
  - destruct He as (rest & He & Hn & Hw). exists rest.
    rewrite He, <-!app_assoc. done.
  - by rewrite Hd.
  - by rewrite Hs.
  - by rewrite Hs.
Qed.

Lemma failedAttempts_S n url :
  failedAttempts (S (S n)) url = Goto url :: Sleep 2000 :: failedAttempts (S n) url.
Proof. reflexivity. Qed.

(** [k] retries are left and every navigation throws: the page ends in
    the failed list, after [k + 1] navigations in all. *)
Lemma downloadPageFrom_exhausted urlData k :
  ∀ attempt fuel d (message : nat → string),
    attempt + k = retryAttempts cfg →
    k ≤ fuel →
    (∀ j, j ≤ k → net (clock d + j) (url urlData) = Throws (message j)) →
    ∃ d', downloadPageFrom cfg net md5hex fuel urlData attempt d =
            Some (Failed (url urlData) (message k), d') ∧
          events d' = events d ++ failedAttempts (S k) (url urlData) ∧
          failedUrls d' =
            failedUrls d ++ [{| failedUrl := url urlData; error := message k |}] ∧
          failed (stats d') = S (failed (stats d)) ∧
          downloaded (stats d') = downloaded (stats d) ∧
          downloadedUrls d' = downloadedUrls d ∧
          imageMapping d' = imageMapping d ∧
          clock d' = clock d + S k.
Proof.
  induction k as [|k IH]; intros attempt fuel d message Hsum Hfuel Hnet.
  - pose proof (Hnet 0 (le_n _)) as H0. rewrite Nat.add_0_r in H0.
    destruct fuel; simpl; rewrite (tryDownloadPage_throws _ _ _ H0);
      (rewrite (proj2 (Nat.ltb_ge _ _)) by lia);
      (eexists; split; [reflexivity|]); simpl; split_and!; try done; lia.
  - destruct fuel as [|fuel]; [lia|].
    pose proof (Hnet 0 (Nat.le_0_l _)) as H0. rewrite Nat.add_0_r in H0.
    simpl. rewrite (tryDownloadPage_throws _ _ _ H0).
    rewrite (proj2 (Nat.ltb_lt _ _)) by lia.
    destruct (IH (attempt + 1) fuel (sleep 2000 (goto net (url urlData) d).2)
                 (λ j, message (S j)))
      as (d' & -> & He & Hf & Hs1 & Hs2 & Hd & Hm & Hc); [lia|lia|..].
    { intros j Hj. simpl. rewrite <-(Hnet (S j)) by lia. f_equal. lia. }
    exists d'. split; [done|]. simpl in *.
    rewrite He, <-!app_assoc.
    split_and!; try done. lia.
Qed.

(** ** The run goes on *)

Lemma extends_refl d : extends d d.
Proof. by split. Qed.

Lemma extends_trans d1 d2 d3 : extends d1 d2 → extends d2 d3 → extends d1 d3.
Proof. intros [? ?] [? ?]. split; by etrans. Qed.

Lemma accounted_extends url d d' : accounted url d → extends d d' → accounted url d'.
Proof. intros [?|?] [Hd Hf]; [left; by apply Hd|right; by apply Hf]. Qed.

Lemma elem_of_setAdd x (s : list string) : x ∈ setAdd x s ∧ s ⊆ setAdd x s.
Proof.
  unfold setAdd. case_bool_decide; split; try done.
  - apply elem_of_app. right. by apply list_elem_of_singleton.
  - intros y ?. apply elem_of_app. by left.
Qed.

(** One attempt either throws and records nothing, or accounts for the
    URL as downloaded. *)
Lemma tryDownloadPage_cases urlData d :
  let r := tryDownloadPage cfg net md5hex urlData d in
  extends d r.2 ∧
  match r.1 with
  | inl _ => True
  | inr _ => accounted (url urlData) r.2
  end.
Proof.
  destruct (net (clock d) (url urlData)) as [msg|resp doc] eqn:Hnet.
  - rewrite (tryDownloadPage_throws _ _ _ Hnet). simpl. split; [|done].
    by split.
  - destruct (tryDownloadPage_loaded urlData d resp doc Hnet)
      as ([n Hr] & _ & Hd & Hf & _).
    simpl. rewrite Hr. unfold extends, accounted. rewrite Hd, Hf.
    pose proof (elem_of_setAdd (url urlData) (downloadedUrls d)) as [? ?].
    split; [by split|by left].
Qed.

(** [downloadPage] always returns, and the URL is then accounted for. *)
Lemma downloadPageFrom_returns urlData fuel :
  ∀ attempt d,
    retryAttempts cfg ≤ attempt + fuel →
    ∃ result d', downloadPageFrom cfg net md5hex fuel urlData attempt d =
                   Some (result, d') ∧
                 extends d d' ∧ accounted (url urlData) d'.
Proof.
  induction fuel as [|fuel IH]; intros attempt d Hfuel; simpl;
    pose proof (tryDownloadPage_cases urlData d) as [Hext Hacc];
    destruct (tryDownloadPage cfg net md5hex urlData d) as [[msg|result] d1];
    simpl in *; try (by eauto).
  - rewrite (proj2 (Nat.ltb_ge _ _)) by lia.
    eexists _, _. split; [done|]. destruct Hext as [Hd Hf]. split; [split|].
    + done.
    + simpl. rewrite fmap_app. intros y ?. apply elem_of_app. left. by apply Hf.
    + right. simpl. rewrite fmap_app. apply elem_of_app. right.
      by apply list_elem_of_singleton.
  - destruct (attempt <? retryAttempts cfg) eqn:Hlt.
    + destruct (IH (attempt + 1) (sleep 2000 d1)) as (result & d' & -> & He & Ha);
        [lia|].
      eexists _, _. split; [done|]. split; [|done].
      by eapply extends_trans.
    + eexists _, _. split; [done|]. destruct Hext as [Hd Hf]. split; [split|].
      * done.
      * simpl. rewrite fmap_app. intros y ?. apply elem_of_app. left. by apply Hf.
      * right. simpl. rewrite fmap_app. apply elem_of_app. right.
        by apply list_elem_of_singleton.
Qed.

Lemma runLoop_returns count urls :
  ∀ d, ∃ d', runLoop cfg net md5hex count urls d = Some d' ∧
             extends d d' ∧
             ∀ urlData, urlData ∈ urls → accounted (url urlData) d'.
Proof.
  induction urls as [|urlData urls IH]; intros d; simpl.
  - exists d. split; [done|]. split; [apply extends_refl|].
    by intros u ?%elem_of_nil.
  - unfold downloadPage.
    destruct (downloadPageFrom_returns urlData (retryAttempts cfg) 1 d)
      as (result & d1 & -> & He1 & Ha1); [lia|].
    match goal with
    | |- context [runLoop cfg net md5hex count urls ?d3] =>
        destruct (IH d3) as (d' & -> & He & Ha);
        assert (extends d1 d3) as He3
    end.
    { destruct (_ =? 0); simpl; destruct (_ <? count); by split. }
    exists d'. split; [done|]. split.
    + eapply extends_trans; [done|]. by eapply extends_trans.
    + intros u [->|?]%elem_of_cons; [|by apply Ha].
      eapply accounted_extends; [done|]. by eapply extends_trans.
Qed.

End DownloaderFacts.

Section DownloaderClaims.
Import Browser RobustDownloader.

Lemma skipped_images_ignored_witness :
  downloadImagesLoop config Scenarios.honoursSite Scenarios.digest
    [Scenarios.image "data:image/gif;base64,R0lGOD" "pixel"; Scenarios.image "" ""]
    [] new = ([], new).
Proof.
  destruct (skipped_images_ignored config Scenarios.honoursSite Scenarios.digest
              [Scenarios.image "data:image/gif;base64,R0lGOD" "pixel";
               Scenarios.image "" ""] [] new) as (_ & _ & _ & _ & Hnone).
  apply Hnone. reflexivity.
Defined.

(** C3, on the first page of a run, with three image sources of which
    two download: the page is saved and the asset mapping gains the two
    entries, but the markup written to disk is the original one, with
    no local path in it, because [processHtmlContent] runs and the file
    is written before [downloadImages]; run on the mapping as it is
    after the downloads, [processHtmlContent] does substitute the two
    local paths and leaves the failed source. *)
Theorem markup_written_before_assets :
  let result :=
    downloadPage config Scenarios.honoursSite Scenarios.digest
      Scenarios.honours new in
  (λ '(r, d), (r, writtenMarkup (events d), imageMapping d)) <$> result =
    Some (Saved "https://0002n8y.wcomhost.com/website/honours/" "honours.html" 2,
          [("downloaded_site/pages/honours.html", Scenarios.honoursMarkup)],
          [("cup.png", "assets/images/img0_d41d8cd9.png");
           ("team.jpg", "assets/images/img1_d41d8cd9.jpg")]) ∧
  JS.includes "assets/images/" Scenarios.honoursMarkup = false ∧
  (λ '(_, d),
     let rewritten :=
       processHtmlContent d Scenarios.honoursMarkup Scenarios.honoursImages in
     (JS.includes "assets/images/img0_d41d8cd9.png" rewritten,
      JS.includes "assets/images/img1_d41d8cd9.jpg" rewritten,
      JS.includes "src='gone.gif'" rewritten,
      JS.includes "src='cup.png'" rewritten)) <$> result =
    Some (true, true, true, false) ∧
  (λ '(_, d), navigations (events d)) <$> result =
    Some ["https://0002n8y.wcomhost.com/website/honours/";
          "https://0002n8y.wcomhost.com/website/honours/cup.png";
          "https://0002n8y.wcomhost.com/website/honours/team.jpg";
          "https://0002n8y.wcomhost.com/website/honours/gone.gif"].
Proof. vm_compute. repeat split; reflexivity. Qed.

(** C5: when every attempt at a page throws, [downloadPage] makes
    [retryAttempts] navigations with a pause of 2000 ms before each
    retry, then appends the URL with the last error to [failedUrls],
    counts it as failed and returns; the loop of [run] goes on with the
    rest of the list from that state.  Whatever the network does, [run]
    returns, with every URL of its list either downloaded or in the
    failed list. *)
Theorem retry_then_record_failure (cfg : Config) (net : Net)
    (md5hex : string → string) (urlData : UrlData) (d : Downloader)
    (message : nat → string) :
  (1 ≤ retryAttempts cfg →
   (∀ k, k < retryAttempts cfg →
         net (clock d + k) (url urlData) = Throws (message k)) →
   ∃ d',
     downloadPage cfg net md5hex urlData d =
       Some (Failed (url urlData) (message (retryAttempts cfg - 1)), d') ∧
     events d' = events d ++ failedAttempts (retryAttempts cfg) (url urlData) ∧
     failedUrls d' =
       failedUrls d ++
       [{| failedUrl := url urlData; error := message (retryAttempts cfg - 1) |}] ∧
     failed (stats d') = S (failed (stats d)) ∧
     downloaded (stats d') = downloaded (stats d) ∧
     downloadedUrls d' = downloadedUrls d ∧
     ∀ count rest, ∃ d'',
       runLoop cfg net md5hex count (urlData :: rest) d =
         runLoop cfg net md5hex count rest d'' ∧
       failedUrls d'' = failedUrls d' ∧ downloadedUrls d'' = downloadedUrls d' ∧
       stats d'' = stats d') ∧
  (∀ urls, ∃ dEnd,
     run cfg net md5hex urls = Some dEnd ∧
     ∀ u, u ∈ urls → accounted (url u) dEnd).
Proof.
  split.
  - intros Hn Hthrows.
    destruct (downloadPageFrom_exhausted cfg net md5hex urlData
                (retryAttempts cfg - 1) 1 (retryAttempts cfg) d message)
      as (d' & Hdl & He & Hf & Hs1 & Hs2 & Hd & _ & _); [lia|lia|..].
    { intros j Hj. apply Hthrows. lia. }
    replace (S (retryAttempts cfg - 1)) with (retryAttempts cfg) in He by lia.
    exists d'. split_and!; try done.
    intros count rest. simpl. unfold downloadPage at 1. rewrite Hdl.
    eexists. split; [reflexivity|].
    destruct (_ =? 0); simpl; destruct (_ <? count); done.
  - intros urls. unfold run.
    destruct (length urls =? 0) eqn:Hlen.
    + eexists. split; [done|]. intros u Hu.
      apply Nat.eqb_eq in Hlen. destruct urls; [by apply elem_of_nil in Hu|done].
    + destruct (runLoop_returns cfg net md5hex (length urls) urls
                  (setTotalUrls (length urls) new)) as (d' & -> & _ & Hacc).
      eexists. split; [done|]. intros u Hu. apply (Hacc u Hu).
Qed.

Lemma retry_then_record_failure_witness :
  ∃ d', downloadPage config Scenarios.unreachable Scenarios.digest
          Scenarios.honours new =
          Some (Failed "https://0002n8y.wcomhost.com/website/honours/"
                       "Navigation timeout", d') ∧
        events d' =
          [Goto "https://0002n8y.wcomhost.com/website/honours/"; Sleep 2000;
           Goto "https://0002n8y.wcomhost.com/website/honours/"; Sleep 2000;
           Goto "https://0002n8y.wcomhost.com/website/honours/"].
Proof.
  destruct (retry_then_record_failure config Scenarios.unreachable Scenarios.digest
              Scenarios.honours new (λ _, "Navigation timeout")) as [Hretry _].
  destruct Hretry as (d' & Hdl & He & _).
  - simpl. lia.
  - intros k Hk. reflexivity.
  - exists d'. split; [exact Hdl|exact He].
Defined.

End DownloaderClaims.

Section TesterFacts.
Import Browser Classifier.

Lemma sliceLast_all {A} (n : nat) (l : list A) : length l ≤ n → sliceLast n l = l.
Proof.
  intros Hle. unfold sliceLast.
  by replace (length l - n) with 0 by lia.
Qed.

Lemma sliceLast_length {A} (n : nat) (l : list A) :
  length (sliceLast n l) = length l `min` n.
Proof. unfold sliceLast. rewrite length_drop. lia. Qed.

(** The accumulators of [testAllUrls] after a part of the list. *)
Lemma FullUrlTester_loop net (urlMappings : list FullUrlTester.Mapping) :
  ∀ t,
    let t' := foldl (λ t mapping, FullUrlTester.testMapping net mapping t)
                    t urlMappings in
    let failures := FullUrlTester.failures net (FullUrlTester.clock t) urlMappings in
    FullUrlTester.failedUrls t' = FullUrlTester.failedUrls t ++ failures ∧
    FullUrlTester.failed (FullUrlTester.results t') =
      FullUrlTester.failed (FullUrlTester.results t) + length failures ∧
    FullUrlTester.tested (FullUrlTester.results t') =
      FullUrlTester.tested (FullUrlTester.results t) + length urlMappings.
Proof.
  induction urlMappings as [|mapping rest IH]; intros t; simpl.
  { rewrite app_nil_r. split_and!; [done|lia..]. }
  match goal with
  | |- context [foldl _ ?t1 rest] => destruct (IH t1) as (Hf & Hn & Ht)
  end.
  rewrite Hf, Hn, Ht. clear IH Hf Hn Ht.
  unfold FullUrlTester.testMapping.
  destruct (testUrl_verbose _) as [title len|st|msg]; simpl;
    destruct (_ =? 0); simpl; rewrite <-?app_assoc; simpl;
    split_and!; try done; lia.
Qed.

Lemma UrlTester_loop net (urlMappings : list UrlTester.Mapping) :
  ∀ t,
    let t' := foldl (λ t mapping, UrlTester.testMapping net mapping t)
                    t urlMappings in
    UrlTester.failed (UrlTester.results t') =
      UrlTester.failed (UrlTester.results t) +
      UrlTester.failureCount net (UrlTester.clock t) urlMappings.
Proof.
  induction urlMappings as [|mapping rest IH]; intros t; simpl; [lia|].
  match goal with
  | |- context [foldl _ ?t1 rest] => rewrite (IH t1)
  end.
  clear IH. unfold UrlTester.testMapping.
  destruct (testUrl_verbose _) as [title len|st|msg]; simpl;
    destruct (_ =? 0); simpl; lia.
Qed.

(** C8, as the code has it: the snapshot that [full_url_tester.js]
    leaves holds the last 20 failures of the run, in order (all of
    them when there are at most 20), and its counter [results.failed]
    counts every failure; the snapshot of [url_tester.js] has no list
    of failures, only the count. *)
Theorem snapshot_keeps_last_failures (net : Net)
    (urlMappings : list FullUrlTester.Mapping)
    (known : nat) (mappings : list UrlTester.Mapping) :
  let failures := FullUrlTester.failures net 0 urlMappings in
  (∃ snapshot,
     FullUrlTester.outputFile (FullUrlTester.testAllUrls net urlMappings) =
       Some snapshot ∧
     FullUrlTester.snapFailedUrls snapshot = sliceLast 20 failures ∧
     length (FullUrlTester.snapFailedUrls snapshot) = length failures `min` 20 ∧
     FullUrlTester.failed (FullUrlTester.snapResults snapshot) = length failures ∧
     FullUrlTester.tested (FullUrlTester.snapResults snapshot) = length urlMappings ∧
     (length failures ≤ 20 → FullUrlTester.snapFailedUrls snapshot = failures)) ∧
  (∃ snapshot,
     UrlTester.outputFile (UrlTester.testUrlFormats net known mappings) =
       Some snapshot ∧
     UrlTester.failed (UrlTester.snapResults snapshot) =
       UrlTester.failureCount net known mappings).
Proof.
  intros failures. split.
  - unfold FullUrlTester.testAllUrls, FullUrlTester.saveProgress. simpl.
    eexists. split; [reflexivity|]. simpl.
    destruct (FullUrlTester_loop net urlMappings FullUrlTester.start)
      as (Hf & Hn & Ht).
    simpl in Hf, Hn, Ht. fold failures in Hf, Hn. rewrite Hf, Hn, Ht.
    split_and!; try done.
    + apply sliceLast_length.
    + apply sliceLast_all.
  - unfold UrlTester.testUrlFormats, UrlTester.saveProgress. simpl.
    eexists. split; [reflexivity|]. simpl.
    by rewrite (UrlTester_loop net mappings (UrlTester.start known)).
Qed.

Lemma snapshot_keeps_last_failures_witness :
  ∃ snapshot,
    FullUrlTester.outputFile
      (FullUrlTester.testAllUrls Scenarios.unreachable (take 3 Scenarios.manyPages)) =
      Some snapshot ∧
    FullUrlTester.snapFailedUrls snapshot =
      FullUrlTester.failures Scenarios.unreachable 0 (take 3 Scenarios.manyPages).
Proof.
  destruct (snapshot_keeps_last_failures Scenarios.unreachable
              (take 3 Scenarios.manyPages) 0 []) as [Hfull _].
  destruct Hfull as (snapshot & Hfile & _ & _ & _ & _ & Hall).
  exists snapshot. split; [exact Hfile|].
  apply Hall. vm_compute. lia.
Defined.

(** C8 as the specification states it fails: after 21 failures the
    snapshot no longer lists the first failed URL. *)
Lemma failed_list_counterexample :
  ¬ (∀ snapshot,
       FullUrlTester.outputFile
         (FullUrlTester.testAllUrls Scenarios.unreachable Scenarios.manyPages) =
         Some snapshot →
       ∀ u, u ∈ FullUrlTester.fUrl <$>
                  FullUrlTester.failures Scenarios.unreachable 0 Scenarios.manyPages →
            u ∈ FullUrlTester.fUrl <$> FullUrlTester.snapFailedUrls snapshot).
Proof.
  intros Hclaim.
  specialize (Hclaim _ eq_refl "https://0002n8y.wcomhost.com/website/fixture1/").
  assert ("https://0002n8y.wcomhost.com/website/fixture1/" ∈
          FullUrlTester.fUrl <$>
            FullUrlTester.failures Scenarios.unreachable 0 Scenarios.manyPages)
    as Hfailed.
  { apply (bool_decide_unpack _). vm_compute. exact I. }
  apply Hclaim in Hfailed.
  apply (bool_decide_pack _) in Hfailed.
  vm_compute in Hfailed. exact Hfailed.
Qed.

End TesterFacts.

Section Witnesses.
Import Browser Classifier.

Lemma classifier_accepts_iff_witness :
  success (testUrl (Scenarios.titled "Club Honours")) = true ∧
  success (testUrl (Scenarios.titled "Untitled")) = false.
Proof.
  split.
  - eapply (classifier_accepts_iff {| status := 200; buffer := [] |}); reflexivity.
  - eapply (classifier_accepts_iff {| status := 200; buffer := [] |}); reflexivity.
Defined.

End Witnesses.

(** * Further properties of the scripts *)

Section FrontierOrder.
Import Browser UrlDiscover.

Lemma breadthFirst_initial seeds : NoDup seeds → breadthFirst seeds (initial seeds).
Proof.
  intros Hnd. split_and!; simpl.
  - by rewrite app_nil_r.
  - done.
  - intros u. split; [by intros ?%not_elem_of_empty|by intros ?%elem_of_nil].
Qed.

Lemma setAdd_fresh x (s : list string) : x ∉ s → setAdd x s = s ++ [x].
Proof. intros Hx. unfold setAdd. by rewrite bool_decide_eq_false_2. Qed.

Lemma enqueue_breadthFirst seeds link f :
  breadthFirst seeds f → breadthFirst seeds (enqueue link f).
Proof.
  intros (Heq & Hnd & Hvis). unfold enqueue.
  destruct (bool_decide (link ∈ visitedUrls f)) eqn:Hv; [done|].
  destruct (bool_decide (link ∈ urlQueue f)) eqn:Hq; [done|].
  apply bool_decide_eq_false in Hv, Hq. simpl.
  assert (link ∉ fetched f ++ urlQueue f) as Hfresh.
  { rewrite elem_of_app, <-Hvis. tauto. }
  split_and!; simpl.
  - rewrite setAdd_fresh.
    + by rewrite !app_assoc, Heq.
    + intros Hd. apply Hfresh. rewrite Heq, elem_of_app. by right.
  - rewrite app_assoc. apply NoDup_app. split_and!; [done| |apply NoDup_singleton].
    by intros x Hx ->%list_elem_of_singleton.
  - done.
Qed.

Lemma enqueueAll_breadthFirst seeds links :
  ∀ f, breadthFirst seeds f → breadthFirst seeds (enqueueAll links f).
Proof.
  unfold enqueueAll.
  induction links as [|l links IH]; intros f Hf; simpl; [done|].
  by apply IH, enqueue_breadthFirst.
Qed.

(** In breadth-first order the queue holds no visited URL, so the
    [continue] of line 35 is never taken and the head comes out. *)
Lemma breadthFirst_next seeds f :
  breadthFirst seeds f →
  nextUnvisited (visitedUrls f) (urlQueue f) =
  match urlQueue f with
  | [] => None
  | currentUrl :: queue' => Some (currentUrl, queue')
  end.
Proof.
  intros (_ & Hnd & Hvis).
  destruct (urlQueue f) as [|u q] eqn:Hq; [done|]. simpl.
  rewrite bool_decide_eq_false_2; [done|].
  rewrite Hvis. intros Hu.
  apply NoDup_app in Hnd as (_ & Hdisj & _).
  apply (Hdisj u Hu). by left.
Qed.

Lemma next_breadthFirst seeds f :
  breadthFirst seeds f →
  breadthFirst seeds (next f).2 ∧ (next f).1 = head (urlQueue f).
Proof.
  intros Hf. pose proof Hf as (Heq & Hnd & Hvis).
  unfold next. rewrite (breadthFirst_next seeds f Hf).
  destruct (urlQueue f) as [|u q] eqn:Hq; simpl.
  - split; [|done]. split_and!; simpl; try done.
  - split; [|done]. split_and!; simpl.
    + by rewrite <-app_assoc.
    + by rewrite <-app_assoc.
    + intros v. rewrite elem_of_union, elem_of_singleton, elem_of_app,
        list_elem_of_singleton, Hvis. tauto.
Qed.

Lemma runOps_breadthFirst seeds ops :
  ∀ f, breadthFirst seeds f → breadthFirst seeds (runOps ops f).2.
Proof.
  induction ops as [|[url|] ops IH]; intros f Hf; simpl.
  - done.
  - by apply IH, enqueue_breadthFirst.
  - pose proof (next_breadthFirst seeds f Hf) as [Hnext _].
    destruct (next f) as [r f1]. specialize (IH f1 Hnext).
    by destruct (runOps ops f1) as [rs f2].
Qed.

Lemma crawl_breadthFirst seeds net fuel :
  ∀ f f', crawl net fuel f = Some f' →
          breadthFirst seeds f → breadthFirst seeds f' ∧ urlQueue f' = [].
Proof.
  induction fuel as [|fuel IH]; intros f f' Hcrawl Hf; simpl in Hcrawl;
    pose proof (next_breadthFirst seeds f Hf) as [Hnext _];
    unfold next in *;
    destruct (nextUnvisited _ _) as [[u q]|]; simpl in *; try done.
  - by injection Hcrawl as <-.
  - destruct (net _ _) as [msg|resp doc].
    + by eapply IH.
    + eapply IH; [done|]. by apply enqueueAll_breadthFirst.
  - by injection Hcrawl as <-.
Qed.

(** X1: with pairwise distinct seeds and whatever the interleaving of
    [enqueue] and [next], the frontier is first-in first-out: the URLs
    handed out so far followed by the queue are the seeds followed by
    the discovered links in order of discovery, without repetition, and
    the next [next] hands out the head of the queue (nothing if it is
    empty). *)
Theorem frontier_breadth_first (seeds : list string) (ops : list Op) :
  NoDup seeds →
  let handedOut := (runOps ops (initial seeds)).1 in
  let f := (runOps ops (initial seeds)).2 in
  handedOut ++ urlQueue f = seeds ++ discoveredUrls f ∧
  NoDup (handedOut ++ urlQueue f) ∧
  (∀ u, u ∈ visitedUrls f ↔ u ∈ handedOut) ∧
  (next f).1 = head (urlQueue f).
Proof.
  intros Hnd handedOut f.
  pose proof (runOps_breadthFirst seeds ops _ (breadthFirst_initial seeds Hnd))
    as Hf.
  pose proof (runOps_fetched ops (initial seeds)) as Hlog. simpl in Hlog.
  fold f in Hf, Hlog. fold handedOut in Hlog.
  pose proof (next_breadthFirst seeds f Hf) as [_ Hhead].
  destruct Hf as (Heq & Hnd' & Hvis). rewrite Hlog in Heq, Hnd', Hvis.
  done.
Qed.

Lemma frontier_breadth_first_witness :
  (runOps [Next; Enqueue "C"; Enqueue "A"; Next; Next] (initial ["A"; "B"])).1 ++
  urlQueue (runOps [Next; Enqueue "C"; Enqueue "A"; Next; Next] (initial ["A"; "B"])).2 =
  ["A"; "B"] ++
  discoveredUrls (runOps [Next; Enqueue "C"; Enqueue "A"; Next; Next]
                         (initial ["A"; "B"])).2.
Proof.
  destruct (frontier_breadth_first ["A"; "B"]
              [Next; Enqueue "C"; Enqueue "A"; Next; Next]) as (Horder & _).
  - apply (bool_decide_unpack _). vm_compute. exact I.
  - exact Horder.
Defined.

(** The order in which the operations of the witness hand out URLs. *)
Example frontier_order :
  (runOps [Next; Enqueue "C"; Enqueue "A"; Next; Next] (initial ["A"; "B"])).1 =
  ["A"; "B"; "C"].
Proof. vm_compute. reflexivity. Qed.

(** X2: when [discoverUrls] finishes, the queue is empty, and the URLs
    it navigated to are the three start URLs followed by every
    discovered link, in order of discovery and each once; the visited
    set holds exactly those. *)
Theorem discovery_visits_all_discovered (net : Net) (fuel : nat) (f : Frontier) :
  discoverUrls net fuel = Some f →
  urlQueue f = [] ∧
  fetched f = startUrls ++ discoveredUrls f ∧
  NoDup (startUrls ++ discoveredUrls f) ∧
  ∀ u, u ∈ visitedUrls f ↔ u ∈ startUrls ++ discoveredUrls f.
Proof.
  intros Hrun.
  assert (NoDup startUrls) as Hnd.
  { apply (bool_decide_unpack _). vm_compute. exact I. }
  destruct (crawl_breadthFirst startUrls net fuel _ _ Hrun
              (breadthFirst_initial _ Hnd)) as [(Heq & Hnd' & Hvis) Hempty].
  rewrite Hempty, app_nil_r in Heq, Hnd'.
  split; [done|]. split; [done|]. split; [by rewrite <-Heq|].
  intros u. by rewrite <-Heq.
Qed.

Lemma discovery_visits_all_discovered_witness :
  ∃ f, discoverUrls Scenarios.smallSite 10 = Some f ∧
       fetched f = startUrls ++ discoveredUrls f.
Proof.
  destruct (discoverUrls Scenarios.smallSite 10) as [f|] eqn:Hf.
  - exists f. split; [reflexivity|].
    by destruct (discovery_visits_all_discovered Scenarios.smallSite 10 f Hf)
      as (_ & Hfetched & _).
  - vm_compute in Hf. discriminate Hf.
Defined.

Lemma startsWith_split (p s : string) :
  JS.startsWith p s = true → s = p +:+ JS.drop (String.length p) s.
Proof.
  revert s. induction p as [|a p IH]; intros s Hs; [by destruct s|].
  destruct s as [|b s]; [done|]. simpl in Hs.
  destruct (decide (a = b)) as [->|]; [|done].
  change (String b s = String b (p +:+ JS.drop (String.length p) s)).
  f_equal. by apply IH.
Qed.

Lemma replaceFirst_prefix (p r s : string) :
  JS.startsWith p s = true →
  JS.replaceFirst p r s = r +:+ JS.drop (String.length p) s.
Proof. intros Hs. destruct s; simpl; by rewrite Hs. Qed.

(** X3: a link that [normalize] keeps is base-relative: prefixed with the
    site base it is the absolute URL the anchor was turned into; an
    anchor whose absolute URL does not start with the site base is
    dropped, and so is an anchor with no [href] at all. *)
Theorem normalize_base_relative (pageUrl : string) (a : Anchor) :
  (∀ link, normalize pageUrl a = Some link →
           absolutize pageUrl a = Some (baseUrl +:+ link)) ∧
  (∀ h, absolutize pageUrl a = Some h → JS.startsWith baseUrl h = false →
        normalize pageUrl a = None) ∧
  (href a = "" → hrefAttribute a = None → normalize pageUrl a = None).
Proof.
  unfold normalize. split_and!.
  - intros link. destruct (absolutize pageUrl a) as [h|]; [|done].
    destruct (JS.startsWith baseUrl h) eqn:Hs; [|by rewrite andb_false_r].
    destruct (JS.truthy h); cbn [andb]; [|done].
    intros [= <-]. rewrite (replaceFirst_prefix _ _ _ Hs).
    f_equal. by apply startsWith_split.
  - intros h -> ->. by rewrite andb_false_r.
  - intros Hh Ha. unfold absolutize. by rewrite Hh, Ha.
Qed.

Lemma normalize_base_relative_witness :
  absolutize "https://0002n8y.wcomhost.com/website/everyplayer/"
    (Scenarios.link "https://0002n8y.wcomhost.com/website/top25/page2.html") =
  Some (baseUrl +:+ "top25/page2.html").
Proof.
  destruct (normalize_base_relative
              "https://0002n8y.wcomhost.com/website/everyplayer/"
              (Scenarios.link "https://0002n8y.wcomhost.com/website/top25/page2.html"))
    as (Hkept & _).
  apply Hkept. reflexivity.
Defined.

End FrontierOrder.

Section ProbingBounds.
Import Browser Classifier Pagination.

Local Arguments pageUrl : simpl never.
Local Arguments testUrl : simpl never.

(** One rejected probe, with the loop variables it leaves. *)
Lemma probeLoop_failure cfg net s remaining pageNum p :
  success (probe net (pageUrl cfg s pageNum) p) = false →
  probeLoop cfg net s (S remaining) pageNum p =
  let p' :=
    {| pages := pages p; totalPages := totalPages p;
       totalPagesFound := totalPagesFound p;
       consecutiveFailures := S (consecutiveFailures p);
       foundAnyPages := foundAnyPages p;
       requested := requested p ++ [pageUrl cfg s pageNum] |} in
  if (foundAnyPages p && (stopAfterFound cfg <=? S (consecutiveFailures p))) ||
     (negb (foundAnyPages p) && (stopBeforeFound cfg <=? S (consecutiveFailures p)))
  then p'
  else probeLoop cfg net s remaining (S pageNum) p'.
Proof.
  intros Hrej. simpl.
  destruct (probe net (pageUrl cfg s pageNum) p) as [t len| |]; [done|..].
  all: simpl.
  all: by destruct (foundAnyPages p), (stopAfterFound cfg <=? _),
                   (stopBeforeFound cfg <=? _).
Qed.

(** Once set, [foundAnyPages] stays set. *)
Lemma foundAnyPages_stays_set cfg net s remaining :
  ∀ pageNum p,
    foundAnyPages p = true →
    foundAnyPages (probeLoop cfg net s remaining pageNum p) = true.
Proof.
  induction remaining as [|remaining IH]; intros pageNum p Hfound; [done|].
  destruct (success (probe net (pageUrl cfg s pageNum) p)) eqn:Hres.
  - simpl. destruct (probe net _ p) as [t len| |]; [|done..]. by apply IH.
  - rewrite (probeLoop_failure _ _ _ _ _ _ Hres). cbv zeta.
    destruct (_ || _); [done|]. by apply IH.
Qed.

(** X4: whatever the site answers, the probing loop of the two scripts
    probes consecutive pages starting at [pageNum], at most [remaining]
    of them (the ceiling); the pages it records are among those probed,
    each with the URL of its number; [totalPages] and
    [results.totalPagesFound] grow by the number of pages recorded; and
    [foundAnyPages] ends up set exactly when it was set before or a page
    was recorded. *)
Theorem probing_within_ceiling (cfg : Config) (net : Net) (sectionName : string)
    (remaining pageNum : nat) (p : Probe) :
  let p' := probeLoop cfg net sectionName remaining pageNum p in
  ∃ probed recorded,
    probed ≤ remaining ∧
    requested p' = requested p ++ pageUrls cfg sectionName pageNum probed ∧
    pages p' = pages p ++ recorded ∧
    length recorded ≤ probed ∧
    totalPages p' = totalPages p + length recorded ∧
    totalPagesFound p' = totalPagesFound p + length recorded ∧
    foundAnyPages p' = foundAnyPages p || bool_decide (recorded ≠ []) ∧
    Forall (λ page, pageNum ≤ pageNumber page < pageNum + probed ∧
                    url page = pageUrl cfg sectionName (pageNumber page))
           recorded.
Proof.
  revert pageNum p. induction remaining as [|remaining IH]; intros pageNum p.
  { exists 0, []. simpl. rewrite !app_nil_r, orb_false_r.
    split_and!; try done; lia. }
  destruct (success (probe net (pageUrl cfg sectionName pageNum) p)) eqn:Hres.
  - simpl. unfold probe in *.
    destruct (testUrl _) as [title len| |]; [|done..].
    match goal with
    | |- context [probeLoop cfg net sectionName remaining (S pageNum) ?q] =>
        destruct (IH (S pageNum) q)
          as (n & rec & Hn & Hreq & Hpages & Hlen & Htp & Htf & Hfound & Hall)
    end.
    simpl in *.
    eexists (S n), (_ :: rec).
    rewrite Hreq, Hpages, Htp, Htf, Hfound, pageUrls_cons, <-!app_assoc. simpl.
    split_and!; try done; try lia.
    all: try (rewrite bool_decide_eq_true_2 by done; by rewrite orb_true_r).
    constructor; [simpl; split; [lia|done]|].
    eapply Forall_impl; [exact Hall|]. simpl. intros page [? ?]. split; [lia|done].
  - rewrite (probeLoop_failure cfg net sectionName remaining pageNum p Hres).
    cbv zeta.
    destruct (_ || _).
    + exists 1, []. simpl. rewrite !app_nil_r, orb_false_r.
      split_and!; try done; lia.
    + match goal with
      | |- context [probeLoop cfg net sectionName remaining (S pageNum) ?q] =>
          destruct (IH (S pageNum) q)
            as (n & rec & Hn & Hreq & Hpages & Hlen & Htp & Htf & Hfound & Hall)
      end.
      simpl in *.
      exists (S n), rec.
      rewrite Hreq, Hpages, Htp, Htf, Hfound, pageUrls_cons, <-!app_assoc.
      split_and!; try done; try lia.
      eapply Forall_impl; [exact Hall|]. simpl. intros page [? ?]. split; [lia|done].
Qed.

(** X5: on a section whose pages are all accepted the loop runs to the
    ceiling: it probes pages 1 to [maxPagesToTest] and records every one
    of them. *)
Theorem probing_reaches_ceiling (cfg : Config) (net : Net) (sectionName : string)
    (p : Probe) :
  (∀ i n, 1 ≤ n ≤ maxPagesToTest cfg →
          success (testUrl (net i (pageUrl cfg sectionName n))) = true) →
  let p' := probeLoop cfg net sectionName (maxPagesToTest cfg) 1 p in
  requested p' = requested p ++ pageUrls cfg sectionName 1 (maxPagesToTest cfg) ∧
  pageNumber <$> pages p' = (pageNumber <$> pages p) ++ seq 1 (maxPagesToTest cfg) ∧
  (0 < maxPagesToTest cfg → foundAnyPages p' = true).
Proof.
  intros Hacc.
  assert (∀ remaining pageNum p,
            pageNum + remaining = S (maxPagesToTest cfg) → 1 ≤ pageNum →
            let p' := probeLoop cfg net sectionName remaining pageNum p in
            requested p' = requested p ++ pageUrls cfg sectionName pageNum remaining ∧
            pageNumber <$> pages p' = (pageNumber <$> pages p) ++ seq pageNum remaining ∧
            (0 < remaining → foundAnyPages p' = true)) as Hloop.
  { clear p. induction remaining as [|remaining IH]; intros pageNum p Hsum Hpos.
    { simpl. rewrite !app_nil_r. split_and!; [done..|lia]. }
    assert (success (probe net (pageUrl cfg sectionName pageNum) p) = true) as Hres.
    { apply Hacc. lia. }
    simpl. unfold probe in *.
    destruct (testUrl _) as [title len| |]; [|done..]. simpl.
    match goal with
    | |- context [probeLoop cfg net sectionName remaining (S pageNum) ?q] =>
        destruct (IH (S pageNum) q) as (Hreq & Hpages & Hfound); [lia|lia|];
        pose proof (foundAnyPages_stays_set cfg net sectionName remaining
                      (S pageNum) q eq_refl) as Hkeep
    end.
    simpl in *. rewrite Hreq, Hpages, fmap_app, pageUrls_cons, <-!app_assoc.
    split_and!; done. }
  intros p'. apply Hloop; lia.
Qed.

Lemma probing_reaches_ceiling_witness :
  requested (probeLoop missingSections (λ _ _, Scenarios.titled "Season 2022")
               "season2022" 25 1 (freshProbe 0 [])) =
  pageUrls missingSections "season2022" 1 25.
Proof.
  destruct (probing_reaches_ceiling missingSections
              (λ _ _, Scenarios.titled "Season 2022") "season2022" (freshProbe 0 []))
    as (Hreq & _).
  - intros i n Hn. reflexivity.
  - exact Hreq.
Defined.

End ProbingBounds.

Section PaginatedUrlsFacts.
Import Browser Classifier PaginatedUrls.

Local Arguments pageUrl : simpl never.
Local Arguments testUrl : simpl never.

Lemma paged_pageUrls_cons s first count :
  pageUrls s first (S count) = pageUrl s first :: pageUrls s (S first) count.
Proof. reflexivity. Qed.

Lemma is404_not_success r : is404 r = true → success r = false.
Proof. by destruct r. Qed.

(** One probe that is not accepted. *)
Lemma pageLoop_failure net s remaining pageNum p :
  success (testUrl (net (length (requested p)) (pageUrl s pageNum))) = false →
  pageLoop net s (S remaining) pageNum p =
  let p' :=
    {| pages := pages p; totalPages := totalPages p;
       totalUrlsTested := S (totalUrlsTested p);
       totalWorkingUrls := totalWorkingUrls p;
       allUrls := allUrls p;
       requested := requested p ++ [pageUrl s pageNum] |} in
  if is404 (testUrl (net (length (requested p)) (pageUrl s pageNum))) &&
     (length (sliceLast 3 (pages p)) =? 0) && (3 <? pageNum)
  then p'
  else pageLoop net s remaining (S pageNum) p'.
Proof.
  intros Hrej. simpl.
  destruct (testUrl _) as [t len|st|msg]; [done|..]; simpl.
  - destruct st as [code|text]; simpl; [|done].
    by destruct (code =? 404), (length _ =? 0), (3 <? pageNum).
  - done.
Qed.

(** With a page already recorded for the section the loop has no early
    exit left. *)
Lemma pageLoop_found net s remaining :
  ∀ pageNum p,
    pages p ≠ [] →
    requested (pageLoop net s remaining pageNum p) =
    requested p ++ pageUrls s pageNum remaining.
Proof.
  induction remaining as [|remaining IH]; intros pageNum p Hpages.
  { simpl. by rewrite app_nil_r. }
  destruct (success (testUrl (net (length (requested p)) (pageUrl s pageNum))))
    eqn:Hres.
  - simpl. destruct (testUrl _) as [t len| |]; [|done..].
    rewrite IH; simpl.
    + by rewrite paged_pageUrls_cons, <-app_assoc.
    + by intros [? ?]%app_eq_nil.
  - rewrite (pageLoop_failure _ _ _ _ _ Hres). cbv zeta.
    assert ((length (sliceLast 3 (pages p)) =? 0) = false) as ->.
    { apply Nat.eqb_neq. rewrite sliceLast_length.
      destruct (pages p); [done|simpl; lia]. }
    rewrite andb_false_r. simpl.
    rewrite IH; simpl; [|done].
    by rewrite paged_pageUrls_cons, <-app_assoc.
Qed.

Lemma pageLoop_until_found net s k :
  ∀ distance pageNum remaining p,
    pageNum + distance = k →
    k < pageNum + remaining →
    (∀ i, success (testUrl (net i (pageUrl s k))) = true) →
    (∀ i n, pageNum ≤ n < k → 4 ≤ n → is404 (testUrl (net i (pageUrl s n))) = false) →
    requested (pageLoop net s remaining pageNum p) =
    requested p ++ pageUrls s pageNum remaining.
Proof.
  induction distance as [|distance IH];
    intros pageNum remaining p Hk Hrem Hacc Hno404;
    (destruct remaining as [|remaining]; [lia|]).
  - assert (pageNum = k) as -> by lia.
    specialize (Hacc (length (requested p))). simpl.
    destruct (testUrl _) as [t len| |]; [|done..].
    rewrite pageLoop_found; simpl.
    + by rewrite paged_pageUrls_cons, <-app_assoc.
    + by intros [? ?]%app_eq_nil.
  - destruct (success (testUrl (net (length (requested p)) (pageUrl s pageNum))))
      eqn:Hres.
    + simpl. destruct (testUrl _) as [t len| |]; [|done..].
      rewrite pageLoop_found; simpl.
      * by rewrite paged_pageUrls_cons, <-app_assoc.
      * by intros [? ?]%app_eq_nil.
    + rewrite (pageLoop_failure _ _ _ _ _ Hres). cbv zeta.
      assert (is404 (testUrl (net (length (requested p)) (pageUrl s pageNum))) &&
              (length (sliceLast 3 (pages p)) =? 0) && (3 <? pageNum) = false) as ->.
      { destruct (3 <? pageNum) eqn:Hlt; [|by rewrite andb_false_r].
        apply Nat.ltb_lt in Hlt. rewrite Hno404 by lia. done. }
      rewrite (IH (S pageNum) remaining); simpl; [|lia|lia|done|].
      * by rewrite paged_pageUrls_cons, <-app_assoc.
      * intros i n Hn. apply Hno404. lia.
Qed.

(** X6: the early exit of [testPaginatedUrls] is not the "3 consecutive
    404s" of its comment.  If some page of the section is accepted and
    no page from 4 up to it answered 404, the loop never stops early and
    probes all 20 pages, however many 404s follow; if pages 1 to 3 are
    not accepted and page 4 answers 404, it stops right there, after 4
    probes. *)
Theorem paginated_urls_early_exit (net : Net) (base : FullUrlTester.WorkingUrl)
    (tested working : nat) (urls : list UrlRecord) (log : list string) :
  let s := FullUrlTester.wBaseName base in
  let p := testSection net base tested working urls log in
  (∀ k, 1 ≤ k ≤ maxPagesToTest →
        (∀ i, success (testUrl (net i (pageUrl s k))) = true) →
        (∀ i n, 4 ≤ n < k → is404 (testUrl (net i (pageUrl s n))) = false) →
        requested p = log ++ pageUrls s 1 maxPagesToTest) ∧
  ((∀ i n, 1 ≤ n ≤ 3 → success (testUrl (net i (pageUrl s n))) = false) →
   (∀ i, is404 (testUrl (net i (pageUrl s 4))) = true) →
   requested p = log ++ pageUrls s 1 4 ∧ pages p = []).
Proof.
  intros s p. split.
  - intros k Hk Hacc Hno404. unfold p, testSection. fold s.
    rewrite (pageLoop_until_found net s k (k - 1)); [done|lia|unfold maxPagesToTest in *; lia|done|].
    intros i n Hn Hn4. apply Hno404. lia.
  - intros Hrej H404. unfold p, testSection, maxPagesToTest. fold s.
    rewrite pageLoop_failure by (apply Hrej; lia). cbv zeta.
    rewrite andb_false_r.
    rewrite pageLoop_failure by (apply Hrej; lia). cbv zeta.
    rewrite andb_false_r.
    rewrite pageLoop_failure by (apply Hrej; lia). cbv zeta.
    rewrite andb_false_r.
    rewrite pageLoop_failure by (apply is404_not_success, H404). cbv zeta.
    rewrite H404. simpl. by rewrite <-!app_assoc.
Qed.

Lemma paginated_urls_early_exit_witness :
  requested (testSection MoreScenarios.fourthPage MoreScenarios.honoursBase 0 0 [] []) =
    pageUrls "honours" 1 20 ∧
  requested (testSection MoreScenarios.allMissing MoreScenarios.honoursBase 0 0 [] []) =
    pageUrls "honours" 1 4.
Proof.
  split.
  - destruct (paginated_urls_early_exit MoreScenarios.fourthPage
                MoreScenarios.honoursBase 0 0 [] []) as [Hfound _].
    apply (Hfound 4).
    + unfold maxPagesToTest. lia.
    + intros i. vm_compute. reflexivity.
    + intros i n Hn. lia.
  - destruct (paginated_urls_early_exit MoreScenarios.allMissing
                MoreScenarios.honoursBase 0 0 [] []) as [_ Hnone].
    apply Hnone.
    + intros i n Hn. reflexivity.
    + intros i. reflexivity.
Defined.

End PaginatedUrlsFacts.

Section MissingSectionsFacts.
Import Browser Classifier MissingSections.

Lemma flatten_snoc l s :
  flatten (l ++ [s]) =
  flatten l ++ ((λ page, {| recordSection := sectionName s; recordPage := page |})
                  <$> pages s).
Proof. unfold flatten. rewrite bind_app. simpl. by rewrite app_nil_r. Qed.

Lemma testSection_consistent net name r :
  consistent r →
  consistent (testSection net name r) ∧
  sectionsProcessed (results (testSection net name r)) =
    S (sectionsProcessed (results r)) ∧
  length (foundSections (testSection net name r)) ≤ S (length (foundSections r)).
Proof.
  intros (Hwith & Hfound & Hall).
  unfold testSection, Pagination.testMissingSection.
  pose proof (probing_within_ceiling Pagination.missingSections net name
                (Pagination.maxPagesToTest Pagination.missingSections) 1
                (Pagination.freshProbe (totalPagesFound (results r)) (log r)))
    as Hloop.
  cbv zeta in Hloop.
  remember (Pagination.probeLoop Pagination.missingSections net name
              (Pagination.maxPagesToTest Pagination.missingSections) 1
              (Pagination.freshProbe (totalPagesFound (results r)) (log r)))
    as p eqn:Hp.
  clear Hp.
  destruct Hloop as (n & rec & Hn & _ & Hpages & Hlen & Htp & Htf & Hfa & _).
  change (Pagination.maxPagesToTest Pagination.missingSections) with 25 in Hn.
  cbn [Pagination.freshProbe Pagination.pages Pagination.totalPages
       Pagination.totalPagesFound Pagination.foundAnyPages app orb Nat.add]
    in Hpages, Htp, Htf, Hfa.
  destruct (Pagination.foundAnyPages p) eqn:Hf.
  - assert (rec ≠ []) as Hne.
    { symmetry in Hfa. by apply bool_decide_eq_true in Hfa. }
    assert (∀ file,
              consistent
                {| foundSections := foundSections r ++
                     [{| sectionName := name; pages := Pagination.pages p;
                         totalPages := Pagination.totalPages p |}];
                   results :=
                     {| sectionsWithPages := S (sectionsWithPages (results r));
                        totalPagesFound := Pagination.totalPagesFound p;
                        sectionsProcessed := S (sectionsProcessed (results r)) |};
                   log := Pagination.requested p;
                   outputFile := file |}) as Hcons.
    { intros file. split_and!; cbn.
      - rewrite length_app. cbn. lia.
      - rewrite flatten_snoc, length_app, length_fmap. cbn.
        rewrite Htf, Hpages, Hfound. done.
      - apply Forall_app. split; [done|]. constructor; [|done]. cbn.
        rewrite Hpages, Htp. split_and!; [done|done|].
        change (Pagination.maxPagesToTest Pagination.missingSections) with 25. lia. }
    match goal with
    | |- context [if ?b then saveProgress _ else _] => destruct b
    end; cbn;
      (split; [apply Hcons|]); rewrite length_app; cbn; split; lia.
  - assert (rec = []) as ->.
    { symmetry in Hfa. apply bool_decide_eq_false in Hfa.
      by destruct rec; [|exfalso; apply Hfa]. }
    rewrite Nat.add_0_r in Htf.
    match goal with
    | |- context [if ?b then saveProgress _ else _] => destruct b
    end; cbn;
      (split; [split_and!; cbn; [done|by rewrite Htf|done]|split; lia]).
Qed.

Lemma testSections_loop net names :
  ∀ r, consistent r →
       let r' := foldl (λ r name, testSection net name r) r names in
       consistent r' ∧
       sectionsProcessed (results r') = sectionsProcessed (results r) + length names ∧
       length (foundSections r') ≤ length (foundSections r) + length names.
Proof.
  induction names as [|name names IH]; intros r Hr; simpl.
  { split_and!; [done|lia..]. }
  destruct (testSection_consistent net name r Hr) as (Hc & Hp & Hl).
  destruct (IH _ Hc) as (Hc' & Hp' & Hl').
  split_and!; [done|lia..].
Qed.

(** X7: the file that [testMissingSections] leaves is coherent, whatever
    the site answered: [sectionsProcessed] is the number of section names
    tried, [sectionsWithPages] is the number of sections listed,
    [totalPagesFound] is the number of entries of [allPages], and every
    listed section has at least one page, at most 25, and a [totalPages]
    equal to the length of its page list. *)
Theorem missing_sections_snapshot (net : Net) (names : list string) :
  ∃ snapshot,
    outputFile (testSections net names) = Some snapshot ∧
    sectionsProcessed (summary snapshot) = length names ∧
    sectionsWithPages (summary snapshot) = length (sections snapshot) ∧
    length (sections snapshot) ≤ length names ∧
    totalPagesFound (summary snapshot) = length (allPages snapshot) ∧
    Forall (λ s, pages s ≠ [] ∧ totalPages s = length (pages s) ∧
                 length (pages s) ≤ 25)
           (sections snapshot).
Proof.
  unfold testSections, saveProgress. simpl.
  eexists. split; [reflexivity|]. simpl.
  assert (consistent start) as Hstart.
  { split_and!; simpl; [done|done|constructor]. }
  destruct (testSections_loop net names start Hstart) as ((Hw & Hf & Hall) & Hp & Hl).
  simpl in Hp, Hl. split_and!; done.
Qed.

(** The script's own run, on a site where one section has two pages. *)
Example missing_sections_run :
  (λ snapshot, (summary snapshot, length (allPages snapshot),
                sectionName <$> sections snapshot)) <$>
    outputFile (testMissingSections Scenarios.twoPages) =
  Some ({| sectionsWithPages := 1; totalPagesFound := 2; sectionsProcessed := 57 |},
        2, ["season2022"]).
Proof. vm_compute. reflexivity. Qed.

End MissingSectionsFacts.

Section TesterCounters.
Import Browser Classifier.

(** X8: the copies of [testUrl] agree: they accept the same outcomes
    with the same title and content length; and nothing is accepted but
    a response with status exactly 200, so a thrown navigation, a
    missing response and any other status (another 2xx included) are
    never accepted. *)
Theorem classifier_copies_agree (o : GotoOutcome) :
  (∀ t len, testUrl o = Accepted t len ↔ testUrl_verbose o = Accepted t len) ∧
  success (testUrl o) = success (testUrl_verbose o) ∧
  (success (testUrl o) = true →
   ∃ r d, o = Navigated (Some r) d ∧ status r = 200 ∧
          testUrl o = Accepted (title d) (String.length (bodyText d))) ∧
  (∀ message, o = Throws message →
     testUrl o = Errored message ∧ testUrl_verbose o = Errored message).
Proof.
  destruct o as [msg|[r|] d]; simpl.
  - split_and!; try done. by intros message [= ->].
  - destruct (status r =? 200) eqn:H200; [|by split_and!].
    apply Nat.eqb_eq in H200.
    destruct (hasContent (bodyText d) (title d)) eqn:Hc; [|by split_and!].
    split_and!; try done. intros _. by exists r, d.
  - by split_and!.
Qed.

Lemma classifier_copies_agree_witness :
  ∃ r d, Scenarios.titled "Club Honours" = Navigated (Some r) d ∧ status r = 200 ∧
         testUrl (Scenarios.titled "Club Honours") =
           Accepted (title d) (String.length (bodyText d)).
Proof.
  destruct (classifier_copies_agree (Scenarios.titled "Club Honours"))
    as (_ & _ & Hacc & _).
  apply Hacc. reflexivity.
Defined.

Lemma FullUrlTester_counts net (urlMappings : list FullUrlTester.Mapping) :
  ∀ t,
    let t' := foldl (λ t mapping, FullUrlTester.testMapping net mapping t)
                    t urlMappings in
    let r := FullUrlTester.results t in
    let r' := FullUrlTester.results t' in
    FullUrlTester.tested r = FullUrlTester.working r + FullUrlTester.failed r →
    length (FullUrlTester.workingUrls t) = FullUrlTester.working r →
    length (FullUrlTester.failedUrls t) = FullUrlTester.failed r →
    FullUrlTester.tested r' = FullUrlTester.working r' + FullUrlTester.failed r' ∧
    length (FullUrlTester.workingUrls t') = FullUrlTester.working r' ∧
    length (FullUrlTester.failedUrls t') = FullUrlTester.failed r' ∧
    FullUrlTester.tested r' = FullUrlTester.tested r + length urlMappings ∧
    FullUrlTester.clock t' = FullUrlTester.clock t + length urlMappings.
Proof.
  induction urlMappings as [|mapping rest IH]; intros t; simpl.
  { intros. split_and!; try done; lia. }
  intros Ht Hw Hf.
  match goal with
  | |- context [foldl _ ?t1 rest] =>
      assert (FullUrlTester.tested (FullUrlTester.results t1) =
                FullUrlTester.working (FullUrlTester.results t1) +
                FullUrlTester.failed (FullUrlTester.results t1) ∧
              length (FullUrlTester.workingUrls t1) =
                FullUrlTester.working (FullUrlTester.results t1) ∧
              length (FullUrlTester.failedUrls t1) =
                FullUrlTester.failed (FullUrlTester.results t1) ∧
              FullUrlTester.tested (FullUrlTester.results t1) =
                S (FullUrlTester.tested (FullUrlTester.results t)) ∧
              FullUrlTester.clock t1 = S (FullUrlTester.clock t))
        as (Ht1 & Hw1 & Hf1 & Hn1 & Hc1);
      [|destruct (IH t1 Ht1 Hw1 Hf1) as (? & ? & ? & ? & ?)]
  end.
  { unfold FullUrlTester.testMapping.
    destruct (testUrl_verbose _) as [title len|st|msg]; simpl;
      destruct (_ =? 0); simpl; rewrite ?length_app; simpl;
      split_and!; lia. }
  split_and!; try done; lia.
Qed.

Lemma UrlTester_counts net (urlMappings : list UrlTester.Mapping) :
  ∀ t,
    let t' := foldl (λ t mapping, UrlTester.testMapping net mapping t)
                    t urlMappings in
    let r := UrlTester.results t in
    let r' := UrlTester.results t' in
    UrlTester.tested r = UrlTester.working r + UrlTester.failed r →
    length (UrlTester.workingUrls t) = UrlTester.working r →
    UrlTester.formatsHtml r + UrlTester.formatsDirectory r = UrlTester.working r →
    UrlTester.tested r' = UrlTester.working r' + UrlTester.failed r' ∧
    length (UrlTester.workingUrls t') = UrlTester.working r' ∧
    UrlTester.formatsHtml r' + UrlTester.formatsDirectory r' = UrlTester.working r' ∧
    UrlTester.tested r' = UrlTester.tested r + length urlMappings.
Proof.
  induction urlMappings as [|mapping rest IH]; intros t; simpl.
  { intros. split_and!; try done; lia. }
  intros Ht Hw Hf.
  match goal with
  | |- context [foldl _ ?t1 rest] =>
      assert (UrlTester.tested (UrlTester.results t1) =
                UrlTester.working (UrlTester.results t1) +
                UrlTester.failed (UrlTester.results t1) ∧
              length (UrlTester.workingUrls t1) =
                UrlTester.working (UrlTester.results t1) ∧
              UrlTester.formatsHtml (UrlTester.results t1) +
                UrlTester.formatsDirectory (UrlTester.results t1) =
                UrlTester.working (UrlTester.results t1) ∧
              UrlTester.tested (UrlTester.results t1) =
                S (UrlTester.tested (UrlTester.results t)))
        as (Ht1 & Hw1 & Hf1 & Hn1);
      [|destruct (IH t1 Ht1 Hw1 Hf1) as (? & ? & ? & ?)]
  end.
  { unfold UrlTester.testMapping.
    destruct (testUrl_verbose _) as [title len|st|msg]; simpl;
      try destruct (JS.endsWith _ _); simpl;
      destruct (_ =? 0); simpl; rewrite ?length_app; simpl;
      split_and!; lia. }
  split_and!; try done; lia.
Qed.

(** X9: the counters the two testers save add up.  In the final file of
    [full_url_tester.js], [tested] is the number of URLs given,
    [working + failed = tested], and [workingUrls] has [working]
    entries; in the final file of [url_tester.js] the same holds, and
    the two format counters add up to [working]. *)
Theorem tester_counters_add_up (net : Net)
    (urlMappings : list FullUrlTester.Mapping)
    (known : nat) (mappings : list UrlTester.Mapping) :
  (∃ snapshot,
     FullUrlTester.outputFile (FullUrlTester.testAllUrls net urlMappings) =
       Some snapshot ∧
     let r := FullUrlTester.snapResults snapshot in
     FullUrlTester.tested r = length urlMappings ∧
     FullUrlTester.working r + FullUrlTester.failed r = FullUrlTester.tested r ∧
     length (FullUrlTester.snapWorkingUrls snapshot) = FullUrlTester.working r) ∧
  (∃ snapshot,
     UrlTester.outputFile (UrlTester.testUrlFormats net known mappings) =
       Some snapshot ∧
     let r := UrlTester.snapResults snapshot in
     UrlTester.tested r = length mappings ∧
     UrlTester.working r + UrlTester.failed r = UrlTester.tested r ∧
     length (UrlTester.snapWorkingUrls snapshot) = UrlTester.working r ∧
     UrlTester.formatsHtml r + UrlTester.formatsDirectory r = UrlTester.working r).
Proof.
  split.
  - unfold FullUrlTester.testAllUrls, FullUrlTester.saveProgress. simpl.
    eexists. split; [reflexivity|]. simpl.
    destruct (FullUrlTester_counts net urlMappings FullUrlTester.start)
      as (Ht & Hw & _ & Hn & _); [done..|].
    simpl in Hn. split_and!; [done|lia|done].
  - unfold UrlTester.testUrlFormats, UrlTester.saveProgress. simpl.
    eexists. split; [reflexivity|]. simpl.
    destruct (UrlTester_counts net mappings (UrlTester.start known))
      as (Ht & Hw & Hf & Hn); [done..|].
    simpl in Hn. split_and!; [done|lia|done|done].
Qed.

End TesterCounters.

Section PageNamesFacts.
Import PageNames.

Lemma elem_of_setAdd' x y (s : list string) :
  x ∈ UrlDiscover.setAdd y s ↔ x ∈ s ∨ x = y.
Proof.
  unfold UrlDiscover.setAdd. case_bool_decide as Hy.
  - split; [by left|]. by intros [?| ->].
  - by rewrite elem_of_app, list_elem_of_singleton.
Qed.

Lemma setAdd_NoDup y (s : list string) : NoDup s → NoDup (UrlDiscover.setAdd y s).
Proof.
  intros Hnd. unfold UrlDiscover.setAdd. case_bool_decide as Hy; [done|].
  apply NoDup_app. split_and!; [done| |apply NoDup_singleton].
  by intros x Hx ->%list_elem_of_singleton.
Qed.

Lemma addAll_spec names :
  ∀ pages, NoDup pages →
           NoDup (addAll names pages) ∧
           ∀ x, x ∈ addAll names pages ↔ x ∈ pages ∨ x ∈ names.
Proof.
  unfold addAll.
  induction names as [|n names IH]; intros pages Hnd; simpl.
  { split; [done|]. intros x. rewrite elem_of_nil. tauto. }
  destruct (IH _ (setAdd_NoDup n pages Hnd)) as [Hnd' Hin].
  split; [done|]. intros x.
  rewrite Hin, elem_of_setAdd', elem_of_cons. tauto.
Qed.

Lemma pageName_toMapping (pages : list string) :
  FullUrlTester.pageName <$> (toMapping <$> pages) = pages.
Proof.
  induction pages as [|p pages IH]; [done|].
  rewrite !fmap_cons. f_equal. exact IH.
Qed.

Lemma startsWith_self (p : string) : JS.startsWith p p = true.
Proof. induction p as [|a p IH]; simpl; [done|]. by rewrite decide_True. Qed.

Lemma drop_self (p : string) : JS.drop (String.length p) p = "".
Proof. induction p as [|a p IH]; simpl; [done|exact IH]. Qed.

Lemma replaceFirst_cons_ne (a c : ascii) (p r rest : string) :
  a ≠ c →
  JS.replaceFirst (String a p) r (String c rest) =
  String c (JS.replaceFirst (String a p) r rest).
Proof. intros Hne. simpl. by rewrite decide_False. Qed.

Lemma replaceFirst_suffix (b suffix : string) :
  (∀ c, c ∈ chars b → c ≠ "."%char) →
  JS.replaceFirst ("." +:+ suffix) "" (b +:+ "." +:+ suffix) = b.
Proof.
  change ("." +:+ suffix) with (String "." suffix).
  induction b as [|c b IH]; intros Hdots.
  - change ("" +:+ String "." suffix) with (String "." suffix).
    rewrite replaceFirst_prefix by apply startsWith_self.
    by rewrite drop_self.
  - change (String c b +:+ String "." suffix)
      with (String c (b +:+ String "." suffix)).
    rewrite replaceFirst_cons_ne.
    + f_equal. apply IH. intros c' Hc'. apply Hdots. by right.
    + intros <-. apply (Hdots "."%char); [by left|done].
Qed.

(** X10: [loadAllPageNames] yields each page name at most once, however
    often the report lists it; it keeps exactly the names that end in
    ".html" and contain no "../"; the URL of each is the site base, the
    base name and a slash; and for a name with no other dot the base name
    is the name without its ".html". *)
Theorem page_names_distinct (navigationLinks : list string)
    (bannerUsage : list (list string)) (pagesWithMaps : list string) :
  let mappings := loadAllPageNames navigationLinks bannerUsage pagesWithMaps in
  NoDup (FullUrlTester.pageName <$> mappings) ∧
  (∀ page,
     page ∈ FullUrlTester.pageName <$> mappings ↔
     (page ∈ navigationLinks ∨ page ∈ concat bannerUsage ∨ page ∈ pagesWithMaps) ∧
     JS.endsWith ".html" page = true ∧ JS.includes "../" page = false) ∧
  (∀ m, m ∈ mappings →
        FullUrlTester.url m = baseUrl +:+ FullUrlTester.baseName m +:+ "/") ∧
  (∀ b, (∀ c, c ∈ chars b → c ≠ "."%char) →
        FullUrlTester.baseName (toMapping (b +:+ ".html")) = b).
Proof.
  intros mappings. unfold mappings, loadAllPageNames.
  destruct (addAll_spec navigationLinks [] NoDup_nil_2) as [Hnd1 Hin1].
  destruct (addAll_spec (concat bannerUsage) _ Hnd1) as [Hnd2 Hin2].
  destruct (addAll_spec pagesWithMaps _ Hnd2) as [Hnd3 Hin3].
  rewrite pageName_toMapping.
  split_and!.
  - by do 2 apply NoDup_filter.
  - intros page. rewrite !list_elem_of_filter, Hin3, Hin2, Hin1, elem_of_nil.
    tauto.
  - by intros m (page & -> & _)%list_elem_of_fmap.
  - intros b Hb. simpl. apply (replaceFirst_suffix b "html" Hb).
Qed.

Lemma page_names_distinct_witness :
  FullUrlTester.baseName (toMapping "honours.html") = "honours".
Proof.
  destruct (page_names_distinct [] [] []) as (_ & _ & _ & Hbase).
  apply (Hbase "honours").
  intros c Hc. apply (bool_decide_pack _) in Hc.
  intros ->. vm_compute in Hc. exact Hc.
Defined.

(** A name with ".html" inside loses the first one, not the last, and a
    name listed twice is kept once. *)
Example page_names_run :
  (λ m, (FullUrlTester.pageName m, FullUrlTester.url m)) <$>
    loadAllPageNames ["index.html"; "cup.htmls.html"] [["index.html"; "../a.html"]]
                     ["map.png"] =
  [("index.html", "https://0002n8y.wcomhost.com/website/index/");
   ("cup.htmls.html", "https://0002n8y.wcomhost.com/website/cups.html/")].
Proof. vm_compute. reflexivity. Qed.

End PageNamesFacts.

Section MirrorNames.
Import Browser RobustDownloader.

Lemma string_app_nil_r (s : string) : s +:+ "" = s.
Proof.
  induction s as [|c s IH]; [done|].
  change (String c (s +:+ "") = String c s). by rewrite IH.
Qed.

Lemma chars_app (s t : string) : chars (s +:+ t) = chars s ++ chars t.
Proof. induction s as [|c s IH]; [done|]. unfold chars in *. simpl. by rewrite IH. Qed.

Lemma chars_mapChars f (s : string) : chars (JS.mapChars f s) = f <$> chars s.
Proof. induction s as [|c s IH]; [done|]. unfold chars in *. simpl. by rewrite IH. Qed.

Lemma mapChars_length f (s : string) :
  String.length (JS.mapChars f s) = String.length s.
Proof. induction s as [|c s IH]; simpl; [done|by rewrite IH]. Qed.

Lemma sanitize_idempotent (s : string) : sanitize (sanitize s) = sanitize s.
Proof.
  unfold sanitize. induction s as [|c s IH]; [done|]. simpl. rewrite IH.
  f_equal. destruct (JS.isAlnum c) eqn:Hc; [by rewrite Hc|done].
Qed.

(** X11: [sanitize] keeps the length of the section name, yields only
    letters, digits and underscores, leaves a name made of letters and
    digits as it is, and changes nothing when applied again. *)
Theorem sanitize_safe_subset (sectionName : string) :
  String.length (sanitize sectionName) = String.length sectionName ∧
  (∀ c, c ∈ chars (sanitize sectionName) → JS.isAlnum c = true ∨ c = "_"%char) ∧
  (alphanumeric sectionName → sanitize sectionName = sectionName) ∧
  sanitize (sanitize sectionName) = sanitize sectionName.
Proof.
  split_and!.
  - apply mapChars_length.
  - apply sanitize_safe.
  - apply sanitize_alnum.
  - apply sanitize_idempotent.
Qed.

Lemma sanitize_safe_subset_witness : sanitize "season2022" = "season2022".
Proof.
  destruct (sanitize_safe_subset "season2022") as (_ & _ & Hsame & _).
  apply Hsame. intros c Hc.
  apply (bool_decide_pack _) in Hc.
  destruct (JS.isAlnum c) eqn:Halnum; [reflexivity|].
  exfalso. revert Hc Halnum.
  destruct c as [[] [] [] [] [] [] [] []]; vm_compute; intros; try done.
Defined.

(** Two names made of letters and digits, each followed by nothing or by
    an underscore and more, are equal when the whole strings are. *)
Lemma alphanumeric_prefix_inj (s1 s2 t1 t2 : string) :
  alphanumeric s1 → alphanumeric s2 →
  (t1 = "" ∨ ∃ r, t1 = String "_" r) → (t2 = "" ∨ ∃ r, t2 = String "_" r) →
  s1 +:+ t1 = s2 +:+ t2 → s1 = s2 ∧ t1 = t2.
Proof.
  revert s2. induction s1 as [|c s1 IH]; intros [|c2 s2] H1 H2 Ht1 Ht2 Heq.
  - done.
  - exfalso. change (t1 = String c2 (s2 +:+ t2)) in Heq.
    destruct Ht1 as [->|[r ->]]; [done|]. injection Heq as <- _.
    by specialize (H2 "_"%char (list_elem_of_here _ _)).
  - exfalso. change (String c (s1 +:+ t1) = t2) in Heq.
    destruct Ht2 as [->|[r ->]]; [done|]. injection Heq as -> _.
    by specialize (H1 "_"%char (list_elem_of_here _ _)).
  - change (String c (s1 +:+ t1) = String c2 (s2 +:+ t2)) in Heq.
    injection Heq as -> Heq.
    destruct (IH s2) as [-> ->]; try done.
    + intros a Ha. apply H1. by right.
    + intros a Ha. apply H2. by right.
Qed.

(** X12: for section names made of letters and digits, distinct pairs of
    section and page number get distinct file names, so no page file
    overwrites another. *)
Theorem generateFilename_injective (s1 s2 : string) (n1 n2 : nat) :
  alphanumeric s1 → alphanumeric s2 →
  generateFilename s1 n1 = generateFilename s2 n2 →
  s1 = s2 ∧ n1 = n2.
Proof.
  intros H1 H2. unfold generateFilename.
  rewrite (sanitize_alnum s1 H1), (sanitize_alnum s2 H2).
  assert (∀ n, ∃ r, "_page" +:+ JS.ofNat n = String "_" r) as Hunderscore.
  { intros n. by exists ("page" +:+ JS.ofNat n). }
  destruct n1 as [|n1], n2 as [|n2]; cbn [Nat.eqb].
  - by intros ->.
  - intros Heq.
    destruct (alphanumeric_prefix_inj s1 s2 "" ("_page" +:+ JS.ofNat (S n2)))
      as [_ Hbad]; [done|done|by left|by right| |].
    + by rewrite string_app_nil_r.
    + destruct (Hunderscore (S n2)) as [r Hr]. by rewrite Hr in Hbad.
  - intros Heq.
    destruct (alphanumeric_prefix_inj s1 s2 ("_page" +:+ JS.ofNat (S n1)) "")
      as [_ Hbad]; [done|done|by right|by left| |].
    + by rewrite string_app_nil_r.
    + destruct (Hunderscore (S n1)) as [r Hr]. by rewrite Hr in Hbad.
  - intros Heq.
    destruct (alphanumeric_prefix_inj s1 s2 ("_page" +:+ JS.ofNat (S n1))
                ("_page" +:+ JS.ofNat (S n2)))
      as [-> Hpage]; [done|done|by right|by right|done|].
    split; [done|].
    apply (inj (String.app "_page")) in Hpage.
    by apply (inj (pretty (A:=nat))) in Hpage.
Qed.

Lemma generateFilename_injective_witness :
  ("History1" : string) = "History1" ∧ 3 = 3.
Proof.
  apply (generateFilename_injective "History1" "History1" 3 3); [| |reflexivity].
  all: intros c Hc; apply (bool_decide_pack _) in Hc;
    destruct (JS.isAlnum c) eqn:Halnum; [reflexivity|];
    exfalso; revert Hc Halnum;
    destruct c as [[] [] [] [] [] [] [] []]; vm_compute; intros; done.
Defined.

(** With other characters in the names, files do collide. *)
Example generateFilename_collisions :
  generateFilename "a.b" 0 = generateFilename "a_b" 0 ∧
  generateFilename "x" 5 = generateFilename "x_page5" 0.
Proof. vm_compute. split; reflexivity. Qed.

Lemma alnumRun_alphanumeric (s : string) : alphanumeric (alnumRun s).1.
Proof.
  induction s as [|c s IH]; simpl.
  - by intros c ?%elem_of_nil.
  - destruct (JS.isAlnum c) eqn:Hc; simpl.
    + destruct (alnumRun s) as [run rest]. simpl in *.
      intros a [->|?]%elem_of_cons; [done|]. by apply IH.
    + by intros a ?%elem_of_nil.
Qed.

Lemma matchExtension_Some (s ext : string) :
  matchExtension s = Some ext → ext ≠ "" ∧ alphanumeric ext.
Proof.
  induction s as [|c s IH]; simpl; [done|].
  case_bool_decide; [|done].
  pose proof (alnumRun_alphanumeric s) as Hrun.
  destruct (alnumRun s) as [run rest]. simpl in Hrun.
  destruct (JS.truthy run && _) eqn:Hm; [|done].
  intros [= <-]. split; [|done].
  apply andb_true_iff in Hm as [Ht _]. unfold JS.truthy in Ht.
  by apply negb_true_iff, bool_decide_eq_false in Ht.
Qed.

Lemma matchExtension_no_dot (s : string) :
  (∀ c, c ∈ chars s → c ≠ "."%char) → matchExtension s = None.
Proof.
  induction s as [|c s IH]; intros Hdots; simpl; [done|].
  rewrite bool_decide_eq_false_2.
  - apply IH. intros a Ha. apply Hdots. by right.
  - apply Hdots. by left.
Qed.

Lemma lowerChar_alnum (c : ascii) :
  JS.isAlnum c = true → isLowerAlnum (JS.lowerChar c) = true.
Proof. destruct c as [[] [] [] [] [] [] [] []]; vm_compute; done. Qed.

(** X13: the extension [getImageExtension] gives is never empty and is
    made of lower-case letters and digits only, whatever the URL; it is
    "jpg" when the URL has no dot. *)
Theorem image_extension_safe (url : string) :
  getImageExtension url ≠ "" ∧
  (∀ c, c ∈ chars (getImageExtension url) → isLowerAlnum c = true) ∧
  ((∀ c, c ∈ chars url → c ≠ "."%char) → getImageExtension url = "jpg").
Proof.
  unfold getImageExtension. split_and!.
  - destruct (matchExtension url) as [ext|] eqn:Hm; [|done].
    apply matchExtension_Some in Hm as [Hne _]. by destruct ext.
  - destruct (matchExtension url) as [ext|] eqn:Hm.
    + apply matchExtension_Some in Hm as [_ Halnum].
      intros c. rewrite chars_mapChars.
      intros (a & -> & Ha)%list_elem_of_fmap. by apply lowerChar_alnum, Halnum.
    + intros c Hc. apply (bool_decide_pack _) in Hc. revert Hc.
      destruct c as [[] [] [] [] [] [] [] []]; vm_compute; done.
  - intros Hdots. by rewrite matchExtension_no_dot.
Qed.

Lemma image_extension_safe_witness : getImageExtension "logo" = "jpg".
Proof.
  destruct (image_extension_safe "logo") as (_ & _ & Hjpg).
  apply Hjpg. intros c Hc. apply (bool_decide_pack _) in Hc.
  intros ->. vm_compute in Hc. exact Hc.
Defined.

(** The extension is taken before a query string, in lower case, and a
    dot followed by anything else than letters and digits up to the end
    or a question mark does not count. *)
Example image_extension_run :
  getImageExtension <$>
    ["https://0002n8y.wcomhost.com/website/a/Cup.PNG?v=2";
     "https://0002n8y.wcomhost.com/website/a/photo.jpeg#top";
     "https://0002n8y.wcomhost.com/website/a/team"] =
  ["png"; "jpg"; "jpg"].
Proof. vm_compute. reflexivity. Qed.

Lemma replaceSrc_cons (o n b : string) (c : ascii) (s : string) :
  replaceSrc o n b 0 (String c s) =
  match matchSrcAttribute o (String c s) with
  | Some rest =>
      expand ("src=" +:+ JS.dquote +:+ n +:+ JS.dquote)
        (JS.take (String.length (String c s) - String.length rest) (String c s))
        b rest +:+
      replaceSrc o n (b +:+ String c "") (String.length s - String.length rest) s
  | None => String c (replaceSrc o n (b +:+ String c "") 0 s)
  end.
Proof. reflexivity. Qed.

Lemma matchSrcAttribute_None (o s : string) :
  JS.startsWith "src=" s = false → matchSrcAttribute o s = None.
Proof. intros Hs. unfold matchSrcAttribute, matchLiteral. by rewrite Hs. Qed.

Lemma replaceSrc_unchanged (o n s : string) :
  ∀ b, JS.includes "src=" s = false → replaceSrc o n b 0 s = s.
Proof.
  induction s as [|c s IH]; [done|]. intros b Hinc.
  change (JS.startsWith "src=" (String c s) || JS.includes "src=" s = false) in Hinc.
  apply orb_false_iff in Hinc as [Hhere Hlater].
  rewrite replaceSrc_cons, (matchSrcAttribute_None _ _ Hhere).
  f_equal. by apply IH.
Qed.

Lemma startsWith_app (p s : string) : JS.startsWith p (p +:+ s) = true.
Proof.
  induction p as [|a p IH]; [done|].
  change (JS.startsWith (String a p) (String a (p +:+ s)) = true).
  simpl. by rewrite decide_True.
Qed.

Lemma drop_app (p s : string) : JS.drop (String.length p) (p +:+ s) = s.
Proof. induction p as [|a p IH]; [by destruct s|exact IH]. Qed.

Lemma take_app (p s : string) : JS.take (String.length p) (p +:+ s) = p.
Proof.
  induction p as [|a p IH]; [by destruct s|].
  change (String a (JS.take (String.length p) (p +:+ s)) = String a p).
  by rewrite IH.
Qed.

Lemma string_app_assoc (s t u : string) : (s +:+ t) +:+ u = s +:+ (t +:+ u).
Proof.
  induction s as [|a s IH]; [done|].
  change (String a ((s +:+ t) +:+ u) = String a (s +:+ (t +:+ u))). by rewrite IH.
Qed.

(** The characters of a match still to be skipped are dropped, and
    counted as gone through. *)
Lemma replaceSrc_skip (o n pre rest : string) :
  ∀ b, replaceSrc o n b (String.length pre) (pre +:+ rest) =
       replaceSrc o n (b +:+ pre) 0 rest.
Proof.
  induction pre as [|a pre IH]; intros b.
  - by rewrite string_app_nil_r.
  - change (replaceSrc o n (b +:+ String a "") (String.length pre) (pre +:+ rest) =
            replaceSrc o n (b +:+ String a pre) 0 rest).
    rewrite IH. by rewrite string_app_assoc.
Qed.

Lemma matchSrcAttribute_quoted (o rest : string) (q1 q2 : ascii) :
  isQuote q1 → isQuote q2 →
  matchSrcAttribute o ("src=" +:+ String q1 (o +:+ String q2 rest)) = Some rest.
Proof.
  intros H1 H2. unfold matchSrcAttribute.
  assert (matchLiteral "src=" ("src=" +:+ String q1 (o +:+ String q2 rest)) =
          Some (String q1 (o +:+ String q2 rest))) as ->.
  { unfold matchLiteral. by rewrite startsWith_app, drop_app. }
  assert (∀ q s, isQuote q → matchQuote (String q s) = Some s) as Hquote.
  { intros q s [-> | ->]; reflexivity. }
  rewrite (Hquote _ _ H1).
  unfold matchLiteral. rewrite startsWith_app, drop_app.
  by apply Hquote.
Qed.

(** A replacement without a dollar is inserted as it is. *)
Lemma expand_plain (r matched before after : string) :
  (∀ c, c ∈ chars r → c ≠ "$"%char) → expand r matched before after = r.
Proof.
  induction r as [|c r IH]; intros Hplain; [done|].
  cbn [expand]. rewrite bool_decide_false by (apply Hplain; left).
  f_equal. apply IH. intros c' Hc'. apply Hplain. by right.
Qed.

(** X14: what the rewriting pass of [processHtmlContent] does to the
    markup.  Markup with no "src=" in it comes back unchanged, whatever
    the mapping.  When the local path has no dollar sign in it (a dollar
    is a pattern of the replacement), an attribute [src=] with the mapped
    source between two quotes (single or double, alike or not) becomes
    [src=] with the local path between double quotes, and rewriting goes
    on after it.  A character at which the pattern does not match is
    copied. *)
Theorem rewrite_src_attributes (original newPath : string) :
  (∀ d html images,
     JS.includes "src=" html = false → processHtmlContent d html images = html) ∧
  (∀ q1 q2 rest before, isQuote q1 → isQuote q2 →
     (∀ c, c ∈ chars newPath → c ≠ "$"%char) →
     replaceSrc original newPath before 0
       ("src=" +:+ String q1 (original +:+ String q2 rest)) =
     "src=" +:+ JS.dquote +:+ newPath +:+ JS.dquote +:+
     replaceSrc original newPath
       (before +:+ "src=" +:+ String q1 (original +:+ String q2 "")) 0 rest) ∧
  (∀ c rest before, matchSrcAttribute original (String c rest) = None →
     replaceSrc original newPath before 0 (String c rest) =
     String c (replaceSrc original newPath (before +:+ String c "") 0 rest)).
Proof.
  split_and!.
  - intros d html images Hinc. unfold processHtmlContent.
    induction (imageMapping d) as [|[o n] m IH]; [done|].
    simpl. by rewrite replaceSrc_unchanged.
  - intros q1 q2 rest before H1 H2 Hplain.
    assert ("src=" +:+ String q1 (original +:+ String q2 rest) =
            ("src=" +:+ String q1 (original +:+ String q2 "")) +:+ rest) as Hsplit.
    { change (String "s" (String "r" (String "c" (String "=" (String q1
                (original +:+ String q2 rest))))) =
              String "s" (String "r" (String "c" (String "=" (String q1
                ((original +:+ String q2 "") +:+ rest)))))).
      do 5 f_equal. clear. induction original as [|a o IH]; [done|].
      change (String a (o +:+ String q2 rest) =
              String a ((o +:+ String q2 "") +:+ rest)). by rewrite IH. }
    change ("src=" +:+ String q1 (original +:+ String q2 rest))
      with (String "s" ("rc=" +:+ String q1 (original +:+ String q2 rest))) at 1.
    rewrite replaceSrc_cons.
    change (String "s" ("rc=" +:+ String q1 (original +:+ String q2 rest)))
      with ("src=" +:+ String q1 (original +:+ String q2 rest)).
    rewrite (matchSrcAttribute_quoted _ _ _ _ H1 H2).
    rewrite expand_plain.
    2:{ intros c Hc. unfold chars in Hc.
        change ("src=" +:+ JS.dquote +:+ newPath +:+ JS.dquote)
          with (String "s" (String "r" (String "c" (String "="
                 (String (ascii_of_nat 34) (newPath +:+ JS.dquote)))))) in Hc.
        cbn [String.list_ascii_of_string] in Hc.
        repeat (apply elem_of_cons in Hc as [->|Hc]; [done|]).
        fold (chars (newPath +:+ JS.dquote)) in Hc.
        rewrite chars_app in Hc. apply elem_of_app in Hc as [Hc|Hc].
        - by apply Hplain.
        - apply list_elem_of_singleton in Hc as ->. done. }
    rewrite !string_app_assoc. do 4 f_equal.
    assert ("rc=" +:+ String q1 (original +:+ String q2 rest) =
            ("rc=" +:+ String q1 (original +:+ String q2 "")) +:+ rest) as ->.
    { change (String "r" (String "c" (String "=" (String q1
                (original +:+ String q2 rest)))) =
              String "r" (String "c" (String "=" (String q1
                ((original +:+ String q2 "") +:+ rest))))).
      injection Hsplit as Hsplit. by rewrite <-Hsplit. }
    rewrite string_length_app.
    replace (_ + String.length rest - String.length rest)
      with (String.length ("rc=" +:+ String q1 (original +:+ String q2 ""))) by lia.
    rewrite replaceSrc_skip. f_equal.
    by rewrite !string_app_assoc.
  - intros c rest before Hnone. by rewrite replaceSrc_cons, Hnone.
Qed.

Lemma rewrite_src_attributes_witness :
  replaceSrc "cup.png" "assets/images/img0_d41d8cd9.png" "<img " 0
    ("src=" +:+ String "'" ("cup.png" +:+ String "'" " alt='cup'>")) =
  "src=" +:+ JS.dquote +:+ "assets/images/img0_d41d8cd9.png" +:+ JS.dquote +:+
  replaceSrc "cup.png" "assets/images/img0_d41d8cd9.png"
    ("<img " +:+ "src=" +:+ String "'" ("cup.png" +:+ String "'" "")) 0 " alt='cup'>".
Proof.
  destruct (rewrite_src_attributes "cup.png" "assets/images/img0_d41d8cd9.png")
    as (_ & Hmatch & _).
  apply Hmatch; [right; reflexivity|right; reflexivity|].
  intros c Hc ->. revert Hc. apply (bool_decide_unpack _). vm_compute. exact I.
Defined.

(** The patterns of the replacement string at work: the match, a
    dollar, the text before, the text after, and a dollar that stands
    for itself. *)
Example replacement_patterns :
  replaceSrc "a.png" "[$&|$$|$`|$'|$1]" "" 0 "<img src='a.png'>" =
  "<img src=" +:+ JS.dquote +:+ "[src='a.png'|$|<img |>|$1]" +:+ JS.dquote +:+ ">".
Proof. vm_compute. reflexivity. Qed.

End MirrorNames.

Section FilenameSpec.
Import RobustDownloader.

(** The decimal numeral of a number is made of digits. *)
Lemma ofNat_alphanumeric (n : nat) : alphanumeric (JS.ofNat n).
Proof.
  assert (∀ x s, alphanumeric s → alphanumeric (pretty_N_go x s)) as Hgo.
  { intros x. induction (N.lt_wf_0 x) as [x _ IH]. intros s Hs.
    assert (x = 0 ∨ 0 < x)%N as [->|Hpos] by lia; [by rewrite pretty_N_go_0|].
    rewrite pretty_N_go_step by done.
    apply IH; [by apply N.div_lt|].
    intros c [->|Hc]%elem_of_cons; [|by apply Hs].
    unfold pretty_N_char. by repeat case_match. }
  unfold JS.ofNat, pretty, pretty_nat, pretty, pretty_N.
  case_decide.
  - intros c Hc. apply list_elem_of_singleton in Hc as ->. reflexivity.
  - apply Hgo. intros c Hc. by apply elem_of_nil in Hc.
Qed.

(** C9: the file name is a function of the section name and the page
    number.  For page 0 it is the section name with every character
    other than a letter a-z or A-Z or a digit replaced by an underscore;
    for a page number N above 0 it is that name followed by "_page" and
    the decimal numeral of N; either way it is made of letters, digits
    and underscores only.  "season2022" gives "season2022" for page 0
    and "season2022_page5" for page 5, and a name with other characters
    has them replaced. *)
Theorem generateFilename_spec (sectionName : string) (pageNumber : nat) :
  chars (generateFilename sectionName 0) =
    (λ c, if JS.isAlnum c then c else "_"%char) <$> chars sectionName ∧
  (0 < pageNumber →
     generateFilename sectionName pageNumber =
     generateFilename sectionName 0 +:+ "_page" +:+ JS.ofNat pageNumber) ∧
  (∀ c, c ∈ chars (generateFilename sectionName pageNumber) →
        JS.isAlnum c = true ∨ c = "_"%char) ∧
  generateFilename "season2022" 0 = "season2022" ∧
  generateFilename "season2022" 5 = "season2022_page5" ∧
  generateFilename "Season 2022/23" 0 = "Season_2022_23" ∧
  generateFilename "A@Z[a`z{0/9:" 3 = "A_Z_a_z_0_9__page3".
Proof.
  split_and!; try reflexivity.
  - unfold generateFilename, sanitize. cbn [Nat.eqb]. apply chars_mapChars.
  - intros Hpos. unfold generateFilename. destruct pageNumber; [lia|reflexivity].
  - intros c Hc. unfold generateFilename in Hc.
    destruct (pageNumber =? 0); [exact (sanitize_safe sectionName c Hc)|].
    rewrite !chars_app in Hc.
    apply elem_of_app in Hc as [Hc|Hc]; [exact (sanitize_safe sectionName c Hc)|].
    apply elem_of_app in Hc as [Hc|Hc].
    + change (chars "_page") with ["_"; "p"; "a"; "g"; "e"]%char in Hc.
      repeat (apply elem_of_cons in Hc as [->|Hc]; [by auto|]).
      by apply elem_of_nil in Hc.
    + left. by apply (ofNat_alphanumeric pageNumber).
Qed.

Lemma generateFilename_spec_witness :
  generateFilename "History 1" 12 = "History_1_page12".
Proof.
  destruct (generateFilename_spec "History 1" 12) as (_ & Hpage & _).
  rewrite Hpage by lia. reflexivity.
Defined.

End FilenameSpec.

Section NormalizationSpellings.
Import Browser UrlDiscover UrlResolution.












(** The spellings on a run of the model: from a start page and from a
    page one level down; a link to another host is dropped. *)
Example normalize_spellings :
  normalize "https://0002n8y.wcomhost.com/website/everyplayer/" <$>
    ((λ h, anchor "https://0002n8y.wcomhost.com/website/everyplayer/" h None) <$>
       ["../top25/"; "/website/top25/";
        "https://0002n8y.wcomhost.com/website/top25/";
        "page2.html";
        "https://example.com/website/top25/"]) =
  [Some "top25/"; Some "top25/"; Some "top25/"; Some "everyplayer/page2.html"; None].
Proof. vm_compute. reflexivity. Qed.

End NormalizationSpellings.

Section MirrorRun.
Import Browser RobustDownloader.

Context (cfg : Config) (net : Net) (md5hex : string → string).

Lemma setAdd_length x (s : list string) :
  length (setAdd x s) ≤ S (length s).
Proof.
  unfold setAdd. case_bool_decide; [lia|]. rewrite length_app. simpl. lia.
Qed.

(** The counters after one attempt at a page. *)
Lemma tryDownloadPage_stats urlData d :
  let r := tryDownloadPage cfg net md5hex urlData d in
  totalUrls (stats r.2) = totalUrls (stats d) ∧
  failedUrls r.2 = failedUrls d ∧
  failed (stats r.2) = failed (stats d) ∧
  match r.1 with
  | inl _ => downloaded (stats r.2) = downloaded (stats d) ∧
             downloadedUrls r.2 = downloadedUrls d
  | inr _ => downloaded (stats r.2) = S (downloaded (stats d)) ∧
             downloadedUrls r.2 = setAdd (url urlData) (downloadedUrls d)
  end.
Proof.
  unfold tryDownloadPage, goto.
  destruct (net (clock d) (url urlData)) as [msg|resp doc]; [done|].
  unfold downloadImages.
  match goal with
  | |- context [downloadImagesLoop cfg net md5hex ?imgs [] ?d0] =>
      pose proof (downloadImagesLoop_effects cfg net md5hex imgs [] d0)
        as (Hd & Hf & Hs & _);
      destruct (downloadImagesLoop cfg net md5hex imgs [] d0) as [acc d4]
  end.
  cbn in *. rewrite Hd, Hf, Hs. done.
Qed.

Lemma downloadPageFrom_counts urlData fuel :
  ∀ attempt d,
    retryAttempts cfg ≤ attempt + fuel →
    ∃ result d',
      downloadPageFrom cfg net md5hex fuel urlData attempt d = Some (result, d') ∧
      totalUrls (stats d') = totalUrls (stats d) ∧
      downloaded (stats d') + failed (stats d') =
        S (downloaded (stats d) + failed (stats d)) ∧
      length (failedUrls d') + failed (stats d) =
        length (failedUrls d) + failed (stats d') ∧
      length (downloadedUrls d') + downloaded (stats d) ≤
        length (downloadedUrls d) + downloaded (stats d').
Proof.
  induction fuel as [|fuel IH]; intros attempt d Hfuel; simpl;
    pose proof (tryDownloadPage_stats urlData d) as (Ht & Hf & Hfs & Hcase);
    destruct (tryDownloadPage cfg net md5hex urlData d) as [[msg|result] d1];
    cbn in Ht, Hf, Hfs, Hcase; destruct Hcase as [Hdl Hdu].
  - rewrite (proj2 (Nat.ltb_ge _ _)) by lia.
    eexists _, _. split; [done|]. cbn. rewrite Ht, Hf, Hfs, Hdl, Hdu, length_app.
    cbn. split_and!; lia.
  - eexists _, _. split; [done|]. rewrite Ht, Hf, Hfs, Hdl, Hdu.
    pose proof (setAdd_length (url urlData) (downloadedUrls d)).
    split_and!; lia.
  - destruct (attempt <? retryAttempts cfg) eqn:Hlt.
    + destruct (IH (attempt + 1) (sleep 2000 d1))
        as (result & d' & -> & Ht' & Hsum & Hfl & Hdll); [lia|].
      cbn in Ht', Hsum, Hfl, Hdll.
      eexists _, _. split; [done|].
      rewrite Ht', Ht. rewrite Hf, Hfs in Hfl. rewrite Hdl, Hfs in Hsum.
      rewrite Hdu, Hdl in Hdll. split_and!; lia.
    + eexists _, _. split; [done|]. cbn. rewrite Ht, Hf, Hfs, Hdl, Hdu, length_app.
      cbn. split_and!; lia.
  - eexists _, _. split; [done|]. rewrite Ht, Hf, Hfs, Hdl, Hdu.
    pose proof (setAdd_length (url urlData) (downloadedUrls d)).
    split_and!; lia.
Qed.

Lemma runLoop_counts count urls :
  ∀ d, ∃ d',
    runLoop cfg net md5hex count urls d = Some d' ∧
    totalUrls (stats d') = totalUrls (stats d) ∧
    downloaded (stats d') + failed (stats d') =
      downloaded (stats d) + failed (stats d) + length urls ∧
    length (failedUrls d') + failed (stats d) =
      length (failedUrls d) + failed (stats d') ∧
    length (downloadedUrls d') + downloaded (stats d) ≤
      length (downloadedUrls d) + downloaded (stats d').
Proof.
  induction urls as [|urlData urls IH]; intros d; simpl.
  { exists d. split_and!; try done; lia. }
  unfold downloadPage.
  destruct (downloadPageFrom_counts urlData (retryAttempts cfg) 1 d)
    as (result & d1 & -> & Ht & Hsum & Hfl & Hdl); [lia|].
  match goal with
  | |- context [runLoop cfg net md5hex count urls ?d3] =>
      assert (stats d3 = stats d1 ∧ failedUrls d3 = failedUrls d1 ∧
              downloadedUrls d3 = downloadedUrls d1) as (Hs3 & Hf3 & Hd3);
      [|destruct (IH d3) as (d' & -> & Ht' & Hsum' & Hfl' & Hdl')]
  end.
  { destruct (_ =? 0); simpl; destruct (_ <? count); done. }
  exists d'. split; [done|].
  rewrite Hs3 in Ht', Hsum', Hfl', Hdl'. rewrite Hf3 in Hfl'. rewrite Hd3 in Hdl'.
  split_and!; lia.
Qed.

(** X15: the counters of a run add up, whatever the network does: at
    the end [downloaded + failed] is the number of URLs given, which is
    [totalUrls]; [failedUrls] has one entry per failure; the set of
    downloaded URLs is no larger than [downloaded]; and when the list is
    not empty the last thing the run does is to write the progress file,
    holding exactly these final values. *)
Theorem run_counters_add_up (urls : list UrlData) :
  ∃ d,
    run cfg net md5hex urls = Some d ∧
    totalUrls (stats d) = length urls ∧
    downloaded (stats d) + failed (stats d) = length urls ∧
    length (failedUrls d) = failed (stats d) ∧
    length (downloadedUrls d) ≤ downloaded (stats d) ∧
    (urls ≠ [] →
     last (events d) =
       Some (WriteFile (pathJoin [outputDir cfg; "download_progress.json"])
               (Progress {| snapStats := stats d;
                            snapDownloadedUrls := downloadedUrls d;
                            snapFailedUrls := failedUrls d;
                            snapImageMapping := imageMapping d |}))).
Proof.
  unfold run. destruct urls as [|u urls].
  { eexists. split; [reflexivity|]. cbn. split_and!; done. }
  cbn [length Nat.eqb].
  destruct (runLoop_counts (S (length urls)) (u :: urls)
              (setTotalUrls (S (length urls)) new))
    as (d' & -> & Ht & Hsum & Hfl & Hdl).
  cbn in Ht, Hsum, Hfl, Hdl.
  eexists. split; [reflexivity|]. cbn.
  split_and!; try lia. intros _. by rewrite last_snoc.
Qed.

Lemma mapSet_keys k v m k' : k' ∈ (mapSet k v m).*1 ↔ k' = k ∨ k' ∈ m.*1.
Proof.
  split; [apply elem_of_mapSet_keys|].
  induction m as [|[k0 v0] m IH]; simpl.
  - intros [->|?%elem_of_nil]; [|done]. by apply list_elem_of_singleton.
  - case_bool_decide as Hk; simpl; rewrite !elem_of_cons.
    + intros [->|[->|?]]; subst; auto.
    + intros [->|[->|?]]; auto.
Qed.

(** What one pass of the loop body adds to the list and to the mapping. *)
Lemma downloadImage_result imageData downloadedImages d :
  let r := downloadImage cfg net md5hex imageData downloadedImages d in
  let name := imageFilename md5hex (src imageData) (length downloadedImages) in
  (r.1 = downloadedImages ∧ imageMapping r.2 = imageMapping d) ∨
  (∃ size,
     r.1 = downloadedImages ++
           [{| imgOriginalSrc := originalSrc imageData;
               newPath := "assets/images/" +:+ name;
               filename := name; size := size |}] ∧
     imageMapping r.2 =
       mapSet (originalSrc imageData) ("assets/images/" +:+ name) (imageMapping d)).
Proof.
  unfold downloadImage, goto. cbn.
  destruct (net (clock d) (src imageData)) as [msg|[resp|] doc]; cbn;
    [by left|destruct (ok resp); cbn|by left].
  - right. by eexists.
  - by left.
Qed.

(** X16: the images [downloadImages] reports are numbered from 0 in the
    order in which they were saved: the [j]-th one belongs to an image
    of the page that was not skipped, its file is named [img<j>_], the
    first 8 characters of the digest of its source, a dot and its
    extension, its local path is that name under [assets/images/], and
    its original source is a key of the asset mapping afterwards; the
    mapping loses no key; and no more images are reported than
    navigated to. *)
Theorem downloaded_images_numbered (images : list ImageData) (d : Downloader) :
  let r := downloadImages cfg net md5hex images d in
  let kept := filter (λ i, skipped i = false) images in
  length r.1 ≤ length kept ∧
  (∀ j saved, r.1 !! j = Some saved →
     ∃ i, i ∈ kept ∧
          imgOriginalSrc saved = originalSrc i ∧
          filename saved = imageFilename md5hex (src i) j ∧
          newPath saved = "assets/images/" +:+ filename saved ∧
          imgOriginalSrc saved ∈ (imageMapping r.2).*1) ∧
  (∀ k, k ∈ (imageMapping d).*1 → k ∈ (imageMapping r.2).*1).
Proof.
  unfold downloadImages.
  assert (∀ imgs acc d,
            let r := downloadImagesLoop cfg net md5hex imgs acc d in
            let kept := filter (λ i, skipped i = false) imgs in
            ∃ new, r.1 = acc ++ new ∧ length new ≤ length kept ∧
              (∀ j saved, new !! j = Some saved →
                 ∃ i, i ∈ kept ∧
                      imgOriginalSrc saved = originalSrc i ∧
                      filename saved = imageFilename md5hex (src i) (length acc + j) ∧
                      newPath saved = "assets/images/" +:+ filename saved ∧
                      imgOriginalSrc saved ∈ (imageMapping r.2).*1) ∧
              (∀ k, k ∈ (imageMapping d).*1 → k ∈ (imageMapping r.2).*1)) as Hloop.
  { clear images d. induction imgs as [|i imgs IH]; intros acc d.
    { exists []. cbn. rewrite app_nil_r.
      split_and!; try done; intros j saved Hj; by rewrite lookup_nil in Hj. }
    cbn [downloadImagesLoop]. rewrite filter_cons.
    destruct (skipped i) eqn:Hskip.
    - rewrite decide_False by done. apply IH.
    - rewrite decide_True by done.
      pose proof (downloadImage_result i acc d) as Hbody.
      destruct (downloadImage cfg net md5hex i acc d) as [acc' d'].
      cbn in Hbody.
      destruct (IH acc' d') as (new & Hnew & Hlen & Hsaved & Hkeys).
      destruct Hbody as [[-> Hmap]|(size & -> & Hmap)].
      + exists new. split; [done|]. split; [cbn; lia|]. split.
        * intros j saved Hj. destruct (Hsaved j saved Hj) as (i' & Hi' & Hrest).
          exists i'. split; [by apply elem_of_cons; right|done].
        * intros k Hk. apply Hkeys. by rewrite Hmap.
      + eexists (_ :: new). split; [by rewrite Hnew, <-app_assoc|].
        split; [cbn; lia|]. split.
        * intros [|j] saved Hj.
          -- injection Hj as <-. exists i. cbn. rewrite Nat.add_0_r.
             split_and!; try done; [by apply elem_of_cons; left|].
             apply Hkeys. rewrite Hmap. apply mapSet_keys. by left.
          -- destruct (Hsaved j saved Hj) as (i' & Hi' & Ho & Hf & Hrest).
             exists i'. split; [by apply elem_of_cons; right|].
             split; [done|]. split; [|done].
             rewrite Hf, length_app. cbn. f_equal. lia.
        * intros k Hk. apply Hkeys. rewrite Hmap. apply mapSet_keys. by right. }
  pose proof (Hloop images [] d) as Hd. cbv zeta in Hd |- *.
  destruct Hd as (new & Hnew & Hlen & Hsaved & Hkeys).
  cbn [app] in Hnew. rewrite Hnew.
  split_and!; [exact Hlen|exact Hsaved|exact Hkeys].
Qed.

End MirrorRun.

Section MirrorRunInstances.
Import Browser RobustDownloader.

Lemma run_counters_add_up_witness :
  ∃ d, run config Scenarios.honoursSite Scenarios.digest [Scenarios.honours] = Some d ∧
       last (events d) =
         Some (WriteFile (pathJoin [outputDir config; "download_progress.json"])
                 (Progress {| snapStats := stats d;
                              snapDownloadedUrls := downloadedUrls d;
                              snapFailedUrls := failedUrls d;
                              snapImageMapping := imageMapping d |})).
Proof.
  destruct (run_counters_add_up config Scenarios.honoursSite Scenarios.digest
              [Scenarios.honours]) as (d & Hrun & _ & _ & _ & _ & Hlast).
  exists d. split; [exact Hrun|]. apply Hlast. discriminate.
Defined.

Lemma downloaded_images_numbered_witness :
  ∃ i, i ∈ filter (λ i, skipped i = false) Scenarios.honoursImages ∧
       "img1_d41d8cd9.jpg" = imageFilename Scenarios.digest (src i) 1.
Proof.
  destruct (downloaded_images_numbered config Scenarios.honoursSite Scenarios.digest
              Scenarios.honoursImages new) as (_ & Hnumbered & _).
  destruct (Hnumbered 1
              {| imgOriginalSrc := "team.jpg";
                 newPath := "assets/images/img1_d41d8cd9.jpg";
                 filename := "img1_d41d8cd9.jpg"; size := 3 |})
    as (i & Hi & _ & Hname & _).
  - vm_compute. reflexivity.
  - exists i. split; [exact Hi|exact Hname].
Defined.

End MirrorRunInstances.

Section TargetedBase.
Import Browser Classifier Pagination.

Local Arguments pageUrl : simpl never.
Local Arguments testUrl : simpl never.

(** A run of rejections that ends at the threshold leaves the pages and
    the counters as they were. *)
Lemma probeLoop_rejections_keep cfg net s k :
  ∀ remaining pageNum p,
    foundAnyPages p = true →
    1 ≤ k ≤ remaining →
    consecutiveFailures p + k = stopAfterFound cfg →
    (∀ i n, pageNum ≤ n < pageNum + k →
            success (testUrl (net i (pageUrl cfg s n))) = false) →
    let p' := probeLoop cfg net s remaining pageNum p in
    pages p' = pages p ∧ totalPages p' = totalPages p ∧
    totalPagesFound p' = totalPagesFound p ∧ foundAnyPages p' = true.
Proof.
  induction k as [|k IH]; intros remaining pageNum p Hfound Hk Hsum Hrej; [lia|].
  destruct remaining as [|remaining]; [lia|].
  rewrite probeLoop_failure by (apply Hrej; lia). cbv zeta.
  rewrite Hfound. cbn [andb negb orb].
  destruct (stopAfterFound cfg <=? S (consecutiveFailures p)) eqn:Hle; cbn [orb].
  - done.
  - apply Nat.leb_gt in Hle.
    destruct (IH remaining (S pageNum)
                {| pages := pages p; totalPages := totalPages p;
                   totalPagesFound := totalPagesFound p;
                   consecutiveFailures := S (consecutiveFailures p);
                   foundAnyPages := true;
                   requested := requested p ++ [pageUrl cfg s pageNum] |})
      as (Hp & Ht & Hn & Hf).
    + done.
    + lia.
    + cbn. lia.
    + intros i n Hn. apply Hrej. lia.
    + cbv zeta in Hp, Ht, Hn, Hf. by rewrite Hp, Ht, Hn, Hf.
Qed.

(** X17: in [testTargetedSections] an accepted base directory counts as a
    found page: if the base is accepted and pages 1 to 5 are rejected,
    probing stops after page 5 (not after 8), the section keeps its base
    page alone, with page number 0, and [results.totalPagesFound] is not
    increased by it. *)
Theorem targeted_base_counts_as_found (net : Net) (sectionName : string)
    (found : nat) (log : list string) :
  let sectionBase := baseUrl targetedSections +:+ sectionName +:+ "/" in
  (∀ i, success (testUrl (net i sectionBase)) = true) →
  (∀ i n, 1 ≤ n ≤ 5 →
          success (testUrl (net i (pageUrl targetedSections sectionName n))) = false) →
  let p := testTargetedSection net sectionName found log in
  requested p = log ++ [sectionBase] ++ pageUrls targetedSections sectionName 1 5 ∧
  foundAnyPages p = true ∧
  (λ page, (url page, pageNumber page)) <$> pages p = [(sectionBase, 0)] ∧
  totalPages p = 1 ∧
  totalPagesFound p = found.
Proof.
  intros sectionBase Hbase Hrej p. unfold p, testTargetedSection.
  fold sectionBase.
  assert (probe net sectionBase (freshProbe found log) =
          testUrl (net (length log) sectionBase)) as -> by done.
  specialize (Hbase (length log)).
  destruct (testUrl (net (length log) sectionBase)) as [title len| |]; [|done..].
  change (maxPagesToTest targetedSections) with 30.
  split.
  - rewrite (probeLoop_stops_after_found targetedSections net sectionName 5);
      [by cbn; rewrite <-app_assoc|done|lia|done|].
    intros i n Hn. apply Hrej. lia.
  - match goal with
    | |- context [probeLoop targetedSections net sectionName 30 1 ?q] =>
        destruct (probeLoop_rejections_keep targetedSections net sectionName 5 30 1 q)
          as (-> & -> & -> & ->); [done|lia|done| |done]
    end.
    intros i n Hn. apply Hrej. lia.
Qed.

Lemma targeted_base_counts_as_found_witness :
  requested (testTargetedSection
               (Scenarios.serving ["https://0002n8y.wcomhost.com/website/History1/"])
               "History1" 0 []) =
  ["https://0002n8y.wcomhost.com/website/History1/"] ++
  pageUrls targetedSections "History1" 1 5.
Proof.
  destruct (targeted_base_counts_as_found
              (Scenarios.serving ["https://0002n8y.wcomhost.com/website/History1/"])
              "History1" 0 []) as (Hreq & _).
  - intros i. vm_compute. reflexivity.
  - intros i n Hn.
    assert (n = 1 ∨ n = 2 ∨ n = 3 ∨ n = 4 ∨ n = 5) as Hcases by lia.
    destruct Hcases as [->|[->|[->|[->| ->]]]]; vm_compute; reflexivity.
  - exact Hreq.
Defined.

End TargetedBase.

Section RetryRecovers.
Import Browser RobustDownloader.

(** X18: a retry that succeeds makes up for the failures before it: if
    the first [k] navigations to a page throw and the next one loads,
    with [k] below [retryAttempts], [downloadPage] reports the page as
    saved, adds it to the downloaded URLs, counts it as downloaded and
    leaves [failedUrls] and the failure counter untouched. *)
Theorem retry_recovers (cfg : Config) (net : Net) (md5hex : string → string)
    (urlData : UrlData) (d : Downloader) (k : nat) (message : nat → string)
    (response : option Response) (doc : Document) :
  k < retryAttempts cfg →
  (∀ j, j < k → net (clock d + j) (url urlData) = Throws (message j)) →
  net (clock d + k) (url urlData) = Navigated response doc →
  ∃ images d',
    downloadPage cfg net md5hex urlData d =
      Some (Saved (url urlData)
              (generateFilename (sectionName urlData) (pageNumber urlData) +:+ ".html")
              images, d') ∧
    url urlData ∈ downloadedUrls d' ∧
    downloaded (stats d') = S (downloaded (stats d)) ∧
    failedUrls d' = failedUrls d ∧
    failed (stats d') = failed (stats d).
Proof.
  intros Hk Hthrows Hloads. unfold downloadPage.
  assert (∀ k attempt fuel d (message : nat → string),
            attempt + k < attempt + S fuel →
            attempt + k ≤ retryAttempts cfg →
            1 ≤ attempt →
            (∀ j, j < k → net (clock d + j) (url urlData) = Throws (message j)) →
            net (clock d + k) (url urlData) = Navigated response doc →
            ∃ images d',
              downloadPageFrom cfg net md5hex fuel urlData attempt d =
                Some (Saved (url urlData)
                        (generateFilename (sectionName urlData) (pageNumber urlData)
                         +:+ ".html") images, d') ∧
              url urlData ∈ downloadedUrls d' ∧
              downloaded (stats d') = S (downloaded (stats d)) ∧
              failedUrls d' = failedUrls d ∧
              failed (stats d') = failed (stats d)) as Hloop.
  { clear. intros k. induction k as [|k IH];
      intros attempt fuel d message Hfuel Hmax Hpos Hthrows Hloads.
    - rewrite Nat.add_0_r in Hloads.
      destruct (tryDownloadPage_loaded cfg net md5hex urlData d response doc Hloads)
        as ([n Hr] & _ & Hd & Hf & Hfs & Hdl).
      destruct (tryDownloadPage cfg net md5hex urlData d) as [r1 d1] eqn:Htry.
      cbn in Hr, Hd, Hf, Hfs, Hdl. subst r1.
      exists n, d1.
      assert (downloadPageFrom cfg net md5hex fuel urlData attempt d =
              Some (Saved (url urlData)
                      (generateFilename (sectionName urlData) (pageNumber urlData)
                       +:+ ".html") n, d1)) as ->.
      { destruct fuel; cbn [downloadPageFrom]; by rewrite Htry. }
      split_and!; try done.
      rewrite Hd. exact (proj1 (elem_of_setAdd _ _)).
    - destruct fuel as [|fuel]; [lia|].
      pose proof (Hthrows 0 (Nat.lt_0_succ _)) as H0. rewrite Nat.add_0_r in H0.
      cbn [downloadPageFrom].
      rewrite (tryDownloadPage_throws cfg net md5hex _ _ _ H0).
      rewrite (proj2 (Nat.ltb_lt _ _)) by lia.
      destruct (IH (attempt + 1) fuel (sleep 2000 (goto net (url urlData) d).2)
                   (λ j, message (S j)))
        as (n & d' & -> & Hin & Hdl & Hf & Hfs); try lia.
      + intros j Hj. cbn. rewrite <-(Hthrows (S j)) by lia. f_equal. lia.
      + cbn. rewrite <-Hloads. f_equal. lia.
      + exists n, d'. by split_and!. }
  apply (Hloop k 1 (retryAttempts cfg) d message); try done; lia.
Qed.

Lemma retry_recovers_witness :
  ∃ images d',
    downloadPage config
      (λ n url, if n =? 0 then Throws "Navigation timeout"
                else Scenarios.honoursSite n url)
      Scenarios.digest Scenarios.honours new =
      Some (Saved "https://0002n8y.wcomhost.com/website/honours/"
              (generateFilename "honours" 0 +:+ ".html") images, d') ∧
    failedUrls d' = [].
Proof.
  destruct (retry_recovers config
              (λ n url, if n =? 0 then Throws "Navigation timeout"
                        else Scenarios.honoursSite n url)
              Scenarios.digest Scenarios.honours new 1
              (λ _, "Navigation timeout")
              (Some {| status := 200; buffer := [] |})
              {| Browser.title := "Club Honours"; bodyInnerText := Some "";
                 content := Scenarios.honoursMarkup;
                 Browser.images := Scenarios.honoursImages; anchors := [] |})
    as (n & d' & Hdl & _ & _ & Hf & _).
  - cbn. lia.
  - intros j Hj. assert (j = 0) as -> by lia. reflexivity.
  - reflexivity.
  - exists n, d'. split; [exact Hdl|exact Hf].
Defined.

End RetryRecovers.

Section ComprehensiveDiscoveryFacts.
Import Browser ComprehensiveDiscovery.

Lemma discovery_navigations_app (es1 es2 : list Event) :
  navigations (es1 ++ es2) = navigations es1 ++ navigations es2.
Proof. apply omap_app. Qed.

(** A URL that has been tested is answered with [null], at once. *)
Lemma testUrlFrom_tested net fuel u retries s :
  u ∈ testedUrls s → testUrlFrom net fuel u retries s = Some (None, s).
Proof. intros Hin. unfold testUrlFrom, enter. by rewrite bool_decide_true. Qed.

(** The end of a call that does not navigate again. *)
Local Ltac last_attempt :=
  split; [reflexivity|]; cbn; rewrite <-?app_assoc;
  split_and!; try done; try lia.

Local Ltac resume_navigated :=
  match goal with
  | |- context [if ?b then _ else _] => destruct b
  end;
  [eexists (Some _), _, [Sleep delayBetweenRequests]; by last_attempt
  |eexists None, _, [Sleep delayBetweenRequests]; last_attempt;
   left; split; [by eexists|done]].

Local Ltac resume_throws :=
  let Hlt := fresh "Hlt" in
  destruct (_ <? maxRetries) eqn:Hlt;
  [apply Nat.ltb_lt in Hlt; unfold enter; cbn [testedUrls emit];
   rewrite bool_decide_true by done;
   eexists None, _, [Sleep 1000; Sleep delayBetweenRequests]; last_attempt;
   right; split_and!; [done|done|done|by eexists]
  |apply Nat.ltb_ge in Hlt;
   eexists None, _, [Sleep delayBetweenRequests]; last_attempt;
   left; split; [by eexists|split; [done|intros ?; lia]]].

(** The rest of a call whose URL is in [testedUrls], as it is for a
    retry once the [finally] block of its caller has run: there is no
    further navigation, and a navigation that has thrown is recorded
    only when no retry is left. *)
Lemma resume_tested net fuel u retries outcome s :
  u ∈ testedUrls s →
  ∃ r s' new,
    resume net fuel u retries outcome s = Some (r, s') ∧
    events s' = events s ++ new ∧
    navigations new = [] ∧
    testedUrls s' = testedUrls s ∪ {[u]} ∧
    clock s' = clock s ∧
    totalTested (stats s') = S (totalTested (stats s)) ∧
    match r with
    | Some w =>
        url w = u ∧
        workingUrls s' = workingUrls s ++ [w] ∧
        working (stats s') = S (working (stats s)) ∧
        failedUrls s' = failedUrls s ∧
        failed (stats s') = failed (stats s)
    | None =>
        workingUrls s' = workingUrls s ∧
        working (stats s') = working (stats s) ∧
        ((∃ why, failedUrls s' = failedUrls s ++ [{| failedUrl := u; reason := why |}]) ∧
         failed (stats s') = S (failed (stats s)) ∧
         (retries < maxRetries → ∀ message, outcome ≠ Throws message) ∨
         failedUrls s' = failedUrls s ∧
         failed (stats s') = failed (stats s) ∧
         retries < maxRetries ∧
         ∃ message, outcome = Throws message)
    end.
Proof.
  intros Hin. destruct fuel; cbn [resume].
  all: destruct outcome as [message|response doc].
  - resume_throws.
  - resume_navigated.
  - resume_throws.
  - resume_navigated.
Qed.

(** A navigation that throws while a retry is left: the delay, the
    start of the retry, the [finally] block of this call, and then the
    rest of the retry. *)
Lemma resume_retry net fuel u retries message s :
  retries < maxRetries →
  u ∉ testedUrls s →
  resume net (S fuel) u retries (Throws message) s =
  resume net fuel u (retries + 1) (net (clock s) u)
    (finally u (goto net u (emit (Sleep 1000) s)).2).
Proof.
  intros Hlt Hfresh. cbn [resume].
  rewrite (proj2 (Nat.ltb_lt _ _)) by done.
  unfold enter. cbn [testedUrls emit]. by rewrite bool_decide_false.
Qed.

(** One call for a URL that has not been tested: it returns after one
    navigation or two, and what it leaves behind. *)
Lemma testUrl_fresh net u s :
  u ∉ testedUrls s →
  ∃ r s' new,
    testUrl net u s = Some (r, s') ∧
    events s' = events s ++ new ∧
    navigations new = replicate (length (navigations new)) u ∧
    1 ≤ length (navigations new) ≤ 2 ∧
    testedUrls s' = testedUrls s ∪ {[u]} ∧
    clock s' = clock s + length (navigations new) ∧
    totalTested (stats s') = totalTested (stats s) + length (navigations new) ∧
    match r with
    | Some w =>
        url w = u ∧
        workingUrls s' = workingUrls s ++ [w] ∧
        working (stats s') = S (working (stats s)) ∧
        failedUrls s' = failedUrls s ∧
        failed (stats s') = failed (stats s)
    | None =>
        workingUrls s' = workingUrls s ∧
        working (stats s') = working (stats s) ∧
        ((∃ why, failedUrls s' = failedUrls s ++ [{| failedUrl := u; reason := why |}]) ∧
         failed (stats s') = S (failed (stats s)) ∧
         (∀ m0 m1, net (clock s) u = Throws m0 → net (S (clock s)) u ≠ Throws m1) ∨
         failedUrls s' = failedUrls s ∧
         failed (stats s') = failed (stats s) ∧
         ∃ m0 m1, net (clock s) u = Throws m0 ∧ net (S (clock s)) u = Throws m1)
    end.
Proof.
  intros Hfresh. unfold testUrl, testUrlFrom, enter.
  rewrite bool_decide_false by done. unfold goto.
  destruct (net (clock s) u) as [m0|response doc] eqn:Hfirst; cbv beta iota zeta.
  - change (resume net maxRetries) with (resume net 3).
    rewrite resume_retry by (done || (unfold maxRetries; lia)).
    match goal with
    | |- context [resume net ?f u ?k ?o ?s3] =>
        destruct (resume_tested net f u k o s3)
          as (r & s' & new & -> & He & Hn & Ht & Hc & Htot & Hr)
    end.
    { cbn. apply elem_of_union. right. by apply elem_of_singleton. }
    cbn in He, Ht, Hc, Htot, Hr.
    exists r, s', ([Goto u; Sleep 1000; Goto u; Sleep delayBetweenRequests] ++ new).
    split; [reflexivity|].
    rewrite discovery_navigations_app, Hn, app_nil_r.
    change (navigations [Goto u; Sleep 1000; Goto u; Sleep delayBetweenRequests])
      with [u; u].
    cbn [length replicate].
    rewrite He, Ht, Hc, Htot.
    split_and!.
    + by rewrite <-!app_assoc.
    + done.
    + lia.
    + lia.
    + by rewrite <-(assoc_L (∪)), (idemp_L (∪)).
    + lia.
    + lia.
    + destruct r as [w|]; [exact Hr|].
      destruct Hr as (Hw & Hk & [(Hwhy & Hf & Hne)|(Hf & Hff & _ & m1 & Hsecond)]).
      * split; [done|]. split; [done|]. left. split; [done|]. split; [done|].
        intros m0' m1 _. apply Hne. unfold maxRetries. lia.
      * split; [done|]. split; [done|]. right. split; [done|]. split; [done|].
        exists m0, m1. split; [done|exact Hsecond].
  - change (resume net maxRetries) with (resume net 3). cbn [resume].
    match goal with
    | |- context [if ?b then _ else _] => destruct b
    end.
    + eexists (Some _), _, [Goto u; Sleep delayBetweenRequests]. by last_attempt.
    + eexists None, _, [Goto u; Sleep delayBetweenRequests]. last_attempt.
      left. split; [by eexists|]. split; [done|]. intros m0 m1 [=].
Qed.

(** X19: a URL that [testUrl] has returned for is not navigated to
    again by any later call: every call returns and leaves its URL in
    [testedUrls], nothing is ever removed from that set, and a later
    call for the same URL returns [null] without touching the browser,
    the counters or the lists, whatever the site would answer. *)
Theorem tested_url_never_refetched (net net' : Net) (u : string) (s : Discovery) :
  ∃ r s',
    testUrl net u s = Some (r, s') ∧
    u ∈ testedUrls s' ∧
    testedUrls s ⊆ testedUrls s' ∧
    testUrl net' u s' = Some (None, s').
Proof.
  destruct (decide (u ∈ testedUrls s)) as [Hin|Hfresh].
  - exists None, s. unfold testUrl. by rewrite !testUrlFrom_tested.
  - destruct (testUrl_fresh net u s Hfresh) as (r & s' & new & Hr & _ & _ & _ & Ht & _).
    exists r, s'. split; [done|].
    assert (u ∈ testedUrls s') as Hin.
    { rewrite Ht. apply elem_of_union. right. by apply elem_of_singleton. }
    split_and!; [done|rewrite Ht; apply union_subseteq_l|].
    unfold testUrl. by apply testUrlFrom_tested.
Qed.

(** X20: a call of [testUrl] makes at most two navigations, the first
    and one retry, although [maxRetries] is 3: when the retry is
    started the [finally] block of the first attempt puts the URL in
    [testedUrls], and a second retry returns [null] at once.
    [stats.totalTested] rises by the number of navigations made.
    [working + failed] rises by one, except that it stays as it is for
    a URL already tested and for a URL whose two navigations both
    throw; and the two counters follow the lengths of their lists. *)
Theorem attempts_are_counted (net : Net) (u : string) (s : Discovery) :
  ∃ r s' new,
    testUrl net u s = Some (r, s') ∧
    events s' = events s ++ new ∧
    navigations new = replicate (length (navigations new)) u ∧
    length (navigations new) ≤ 2 ∧
    totalTested (stats s') = totalTested (stats s) + length (navigations new) ∧
    working (stats s') + failed (stats s') =
      working (stats s) + failed (stats s) +
      (if bool_decide (u ∈ testedUrls s) then 0
       else match net (clock s) u, net (S (clock s)) u with
            | Throws _, Throws _ => 0
            | _, _ => 1
            end) ∧
    length (workingUrls s') + working (stats s) =
      length (workingUrls s) + working (stats s') ∧
    length (failedUrls s') + failed (stats s) =
      length (failedUrls s) + failed (stats s').
Proof.
  destruct (decide (u ∈ testedUrls s)) as [Hin|Hfresh].
  - exists None, s, []. unfold testUrl.
    rewrite testUrlFrom_tested, bool_decide_true by done.
    rewrite app_nil_r. cbn. split_and!; try done; lia.
  - destruct (testUrl_fresh net u s Hfresh)
      as (r & s' & new & Hr & He & Hu & Hl & _ & _ & Hn & Hres).
    exists r, s', new. rewrite bool_decide_false by done.
    split_and!; try done; try lia.
    + destruct r as [w|].
      * destruct Hres as (_ & _ & -> & _ & ->).
        assert (match net (clock s) u, net (S (clock s)) u with
                | Throws _, Throws _ => 0
                | _, _ => 1
                end = 1) as ->; [|lia].
        clear -Hr Hfresh.
        destruct (net (clock s) u) as [m0|] eqn:Hfirst; [|done].
        destruct (net (S (clock s)) u) as [m1|] eqn:Hsecond; [|done].
        exfalso. revert Hr. unfold testUrl, testUrlFrom, enter.
        rewrite bool_decide_false by done. unfold goto. rewrite Hfirst.
        cbv beta iota zeta.
        change (resume net maxRetries) with (resume net 3).
        rewrite resume_retry by (done || (unfold maxRetries; lia)).
        cbn [goto emit clock snd]. rewrite Hsecond.
        cbn [resume]. change (0 + 1 <? maxRetries) with true. cbv beta iota.
        unfold enter. cbn [testedUrls emit finally].
        rewrite bool_decide_true; [done|].
        apply elem_of_union. right. by apply elem_of_singleton.
      * destruct Hres as (_ & -> & [(_ & -> & Hne)|(_ & -> & m0 & m1 & -> & ->)]).
        -- assert (match net (clock s) u, net (S (clock s)) u with
                   | Throws _, Throws _ => 0
                   | _, _ => 1
                   end = 1) as ->; [|lia].
           destruct (net (clock s) u) as [m0|] eqn:Hfirst; [|done].
           destruct (net (S (clock s)) u) as [m1|] eqn:Hsecond; [|done].
           by destruct (Hne m0 m1).
        -- lia.
    + destruct r as [w|].
      * destruct Hres as (_ & -> & -> & _). rewrite length_app. cbn. lia.
      * destruct Hres as (-> & -> & _). lia.
    + destruct r as [w|].
      * destruct Hres as (_ & _ & _ & -> & ->). lia.
      * destruct Hres as (_ & _ & [([why ->] & -> & _)|(-> & -> & _)]).
        -- rewrite length_app. cbn. lia.
        -- lia.
Qed.

(** X21: a URL that cannot be reached is navigated to twice, not
    [maxRetries + 1] times, and is then dropped without a trace in
    [failedUrls]: after the first navigation has thrown, the retry is
    started and the [finally] block of the first attempt runs; when the
    second navigation throws as well, the next retry finds the URL in
    [testedUrls] and returns [null].  [stats.totalTested] rises by two
    and neither [failed] nor [working] moves. *)
Theorem unreachable_url_attempts (net : Net) (u : string) (m0 m1 : string)
    (s : Discovery) :
  u ∉ testedUrls s →
  net (clock s) u = Throws m0 →
  net (S (clock s)) u = Throws m1 →
  ∃ s',
    testUrl net u s = Some (None, s') ∧
    events s' = events s ++
      [Goto u; Sleep 1000; Goto u; Sleep 500; Sleep 1000; Sleep 500] ∧
    u ∈ testedUrls s' ∧
    failedUrls s' = failedUrls s ∧
    workingUrls s' = workingUrls s ∧
    totalTested (stats s') = totalTested (stats s) + 2 ∧
    working (stats s') = working (stats s) ∧
    failed (stats s') = failed (stats s).
Proof.
  intros Hfresh Hfirst Hsecond.
  unfold testUrl, testUrlFrom, enter.
  rewrite bool_decide_false by done. unfold goto. rewrite Hfirst.
  cbv beta iota zeta.
  change (resume net maxRetries) with (resume net 3).
  rewrite resume_retry by (done || (unfold maxRetries; lia)).
  cbn [goto emit clock snd]. rewrite Hsecond.
  cbn [resume]. change (0 + 1 <? maxRetries) with true. cbv beta iota.
  unfold enter. cbn [testedUrls emit finally].
  rewrite bool_decide_true by (apply elem_of_union; right; by apply elem_of_singleton).
  eexists. split; [reflexivity|]. cbn.
  rewrite <-!app_assoc. split_and!; try done; try lia.
  apply elem_of_union. right. by apply elem_of_singleton.
Qed.

Lemma unreachable_url_attempts_witness :
  ∃ s',
    testUrl Scenarios.unreachable "https://0002n8y.wcomhost.com/website/season1990/" new =
      Some (None, s') ∧
    totalTested (stats s') = 2 ∧ failedUrls s' = [].
Proof.
  destruct (unreachable_url_attempts Scenarios.unreachable
              "https://0002n8y.wcomhost.com/website/season1990/"
              "Navigation timeout" "Navigation timeout" new)
    as (s' & Hr & _ & _ & Hf & _ & Ht & _).
  - apply not_elem_of_empty.
  - reflexivity.
  - reflexivity.
  - exists s'. split; [exact Hr|]. split; [exact Ht|exact Hf].
Defined.

(** Pages that have been tested make the loop count failures without
    looking at the site. *)
Lemma paginationLoop_known net sectionName (l : list WorkingUrl) s :
  ∀ k remaining page failures,
    failures + k = 5 →
    1 ≤ k ≤ remaining →
    (∀ n, page ≤ n < page + k → pageUrl sectionName n ∈ testedUrls s) →
    paginationLoop net sectionName remaining page l failures s = Some (l, s).
Proof.
  induction k as [|k IH]; intros remaining page failures Hsum Hk Hknown; [lia|].
  destruct remaining as [|remaining]; [lia|].
  cbn [paginationLoop]. unfold testUrl.
  rewrite testUrlFrom_tested by (apply Hknown; lia).
  destruct (5 <=? S failures) eqn:Hle; [done|].
  apply Nat.leb_gt in Hle.
  apply IH; [lia|lia|]. intros n Hn. apply Hknown. lia.
Qed.

Lemma loadExisting_tested (existing : list string) (s : Discovery) (u : string) :
  u ∈ existing → u ∈ testedUrls (loadExisting existing s).
Proof.
  unfold loadExisting. cbn. generalize (testedUrls s).
  induction existing as [|x existing IH]; intros tested Hin.
  - by apply elem_of_nil in Hin.
  - cbn. apply elem_of_cons in Hin as [->|Hin]; [|by apply IH].
    clear IH. assert (x ∈ tested ∪ {[x]}) as Hx.
    { apply elem_of_union. right. by apply elem_of_singleton. }
    revert Hx. generalize (tested ∪ {[x]}).
    induction existing as [|y existing IH]; intros acc Hx; [done|].
    cbn. apply IH. apply elem_of_union. by left.
Qed.

(** X22: pages that are already in [testedUrls], as after [run] has
    loaded the working URLs of an earlier run, count as failures in
    [testPaginationForSection]: if pages 2 to 6 of a section are known,
    the section's pagination returns no page and stops there, without a
    single navigation, whatever the site holds and however many pages
    the section has. *)
Theorem known_pages_end_pagination (net : Net) (sectionName : string)
    (maxPages : nat) (s : Discovery) :
  6 ≤ maxPages →
  (∀ n, 2 ≤ n ≤ 6 → pageUrl sectionName n ∈ testedUrls s) →
  testPaginationForSection net sectionName maxPages s = Some ([], s).
Proof.
  intros Hmax Hknown. unfold testPaginationForSection.
  apply (paginationLoop_known net sectionName [] s 5); [done|lia|].
  intros n Hn. apply Hknown. lia.
Qed.

Lemma known_pages_end_pagination_witness :
  testPaginationForSection (Scenarios.serving MoreScenarios.earlier) "History1"
    maxPaginationTest (loadExisting MoreScenarios.earlier new) =
  Some ([], loadExisting MoreScenarios.earlier new).
Proof.
  apply (known_pages_end_pagination (Scenarios.serving MoreScenarios.earlier) "History1"
           maxPaginationTest (loadExisting MoreScenarios.earlier new)).
  - unfold maxPaginationTest. lia.
  - intros n Hn. apply loadExisting_tested.
    assert (n = 2 ∨ n = 3 ∨ n = 4 ∨ n = 5 ∨ n = 6) as Hcases by lia.
    destruct Hcases as [->|[->|[->|[->| ->]]]];
      apply (bool_decide_unpack _); vm_compute; exact I.
Defined.

End ComprehensiveDiscoveryFacts.

Section BrowserCloneFacts.
Import BrowserClone.

Lemma imagePath_inj : Inj (=) (=) imagePath.
Proof.
  intros i j Heq. unfold imagePath, imageName in Heq.
  cbn [RobustDownloader.pathJoin] in Heq.
  apply (inj (String.app imagesDir)) in Heq.
  apply (inj (String.app "/")) in Heq.
  apply (inj (String.app "img")) in Heq.
  apply string_app_inj_r in Heq.
  by apply (inj (pretty (A:=nat))) in Heq.
Qed.

Lemma mappingPath_imagePath index : mappingPath ≠ imagePath index.
Proof.
  intros Heq. apply (f_equal (JS.take 5)) in Heq. lazy in Heq. discriminate.
Qed.

Lemma mappingPath_pagePath name :
  mappingPath ≠ RobustDownloader.pathJoin [pagesDir; name].
Proof.
  intros Heq. apply (f_equal (JS.take 5)) in Heq. lazy in Heq. discriminate.
Qed.

Lemma written_app (es1 es2 : list Event) :
  written (es1 ++ es2) = written es1 ++ written es2.
Proof. apply omap_app. Qed.

(** The image loop writes image files only, named by the positions it
    goes through, and maps sources of the list to such names. *)
Lemma downloadImages_effects net :
  ∀ srcs index imageMapping downloadedImages c,
    let r := downloadImages net srcs index imageMapping downloadedImages c in
    (∀ path, (∀ i, index ≤ i → path ≠ imagePath i) →
             files r.2 !! path = files c !! path) ∧
    (∃ new, events r.2 = events c ++ new ∧
            Forall (λ p, ∃ i, index ≤ i < index + length srcs ∧ p = imagePath i)
                   (written new)) ∧
    (∀ k v, r.1.1 !! k = Some v →
            imageMapping !! k = Some v ∨
            ∃ i, srcs !! i = Some k ∧ v = imageName (index + i)).
Proof.
  induction srcs as [|src rest IH]; intros index imageMapping downloadedImages c.
  { cbn. split_and!; [done| |by left]. exists []. by rewrite app_nil_r. }
  assert (∀ m n c1,
            (∃ new1, events c1 = events c ++ new1 ∧ written new1 = []) →
            files c1 = files c →
            let r := downloadImages net rest (S index) m n c1 in
            (∀ k v, m !! k = Some v → imageMapping !! k = Some v ∨ (k = src ∧ v = imageName index)) →
            (∀ path, (∀ i, index ≤ i → path ≠ imagePath i) →
                     files r.2 !! path = files c !! path) ∧
            (∃ new, events r.2 = events c ++ new ∧
                    Forall (λ p, ∃ i, index ≤ i < index + length (src :: rest) ∧
                                      p = imagePath i) (written new)) ∧
            (∀ k v, r.1.1 !! k = Some v →
                    imageMapping !! k = Some v ∨
                    ∃ i, (src :: rest) !! i = Some k ∧ v = imageName (index + i)))
    as Hskip.
  { intros m n c1 (new1 & He1 & Hw1) Hf1 r Hm.
    destruct (IH (S index) m n c1) as (Hfiles & (new & He & Hw) & Hmap).
    fold r in Hfiles, He, Hmap. split_and!.
    - intros path Hpath. rewrite Hfiles, Hf1; [done|].
      intros i Hi. apply Hpath. lia.
    - exists (new1 ++ new). split; [by rewrite He, He1, <-app_assoc|].
      rewrite written_app, Hw1. cbn.
      eapply Forall_impl; [exact Hw|]. cbn.
      intros p (i & Hi & ->). exists i. split; [lia|done].
    - intros k v Hkv. destruct (Hmap k v Hkv) as [Hin|(i & Hi & ->)].
      + destruct (Hm k v Hin) as [?|[-> ->]]; [by left|].
        right. exists 0. by rewrite Nat.add_0_r.
      + right. exists (S i). split; [done|]. f_equal. lia. }
  cbn [downloadImages].
  destruct (negb (JS.truthy src)).
  { apply Hskip; [exists []; by rewrite app_nil_r|done|by left]. }
  unfold goto.
  destruct (net (clock c) src) as [message|[r|] page]; cbn zeta iota beta.
  - apply Hskip; [by exists [Goto src]|done|by left].
  - destruct (Browser.ok r).
    + match goal with
      | |- context [downloadImages net rest (S index) ?m ?n ?c2] =>
          destruct (IH (S index) m n c2) as (Hfiles & (new & He & Hw) & Hmap);
            set (res := downloadImages net rest (S index) m n c2) in *
      end.
      cbn in He. split_and!.
      * intros path Hpath. rewrite Hfiles by (intros i Hi; apply Hpath; lia).
        cbn. apply lookup_insert_ne. intros Heq. by apply (Hpath index).
      * exists ([Goto src; WriteFile (imagePath index)] ++ new).
        split; [by rewrite He, <-!app_assoc|].
        rewrite written_app. cbn. constructor.
        -- exists index. split; [lia|done].
        -- eapply Forall_impl; [exact Hw|]. cbn.
           intros p (i & Hi & ->). exists i. split; [lia|done].
      * intros k v Hkv. destruct (Hmap k v Hkv) as [Hin|(i & Hi & ->)].
        -- destruct (decide (k = src)) as [->|Hne].
           ++ rewrite lookup_insert_eq in Hin. injection Hin as <-.
              right. exists 0. by rewrite Nat.add_0_r.
           ++ rewrite lookup_insert_ne in Hin by done. by left.
        -- right. exists (S i). split; [done|]. f_equal. lia.
    + apply Hskip; [by exists [Goto src]|done|by left].
  - apply Hskip; [by exists [Goto src]|done|by left].
Qed.

(** X23: [downloadPage] names image files by position alone: when a
    page loads and its first image has a source that loads, the file
    "web/assets/images/img0.gif" holds that image afterwards, whatever
    the page and whatever an earlier page has left at that path. *)
Theorem clone_images_named_by_position (net : Net) (resolve : string → string)
    (pageName : string) (c : Clone) (r : Browser.Response) (page : Page)
    (src : string) (rest : list string) (ri : Browser.Response) (pi : Page) :
  net (clock c) (resolve pageName) = Navigated (Some r) page →
  Browser.status r = 200 →
  imgSrcs page = src :: rest →
  src ≠ "" →
  net (S (clock c)) src = Navigated (Some ri) pi →
  Browser.ok ri = true →
  ∃ c',
    downloadPage net resolve pageName c = (true, c') ∧
    imagePath 0 = "web/assets/images/img0.gif" ∧
    files c' !! imagePath 0 = Some (Image (Browser.buffer ri)).
Proof.
  intros Hpage Hstatus Hsrcs Hsrc Himage Hok.
  unfold downloadPage, goto. rewrite Hpage, Hstatus, Hsrcs.
  cbn [Nat.eqb negb]. cbn zeta iota beta.
  cbn [downloadImages].
  assert (JS.truthy src = true) as ->.
  { unfold JS.truthy. by rewrite bool_decide_false. }
  cbn [negb]. unfold goto. cbn [clock writeFile]. rewrite Himage, Hok.
  match goal with
  | |- context [downloadImages net rest 1 ?m ?n ?c2] =>
      destruct (downloadImages_effects net rest 1 m n c2) as (Hfiles & _);
        destruct (downloadImages net rest 1 m n c2) as [[m' n'] c3]
  end.
  cbn in Hfiles. eexists. split; [reflexivity|]. split; [reflexivity|].
  cbn. rewrite lookup_insert_ne by apply mappingPath_imagePath.
  rewrite Hfiles.
  - apply lookup_insert_eq.
  - intros i Hi Heq. apply imagePath_inj in Heq. lia.
Qed.

(** X24: the image mapping is written from scratch for every page that
    is saved: "web/image_mapping.json" then holds a mapping whose keys
    are image sources of that page, each to the name of a position at
    which the page has it; what earlier pages had put there is gone. *)
Theorem clone_mapping_of_one_page (net : Net) (resolve : string → string)
    (pageName : string) (c c' : Clone) :
  downloadPage net resolve pageName c = (true, c') →
  ∃ r page imageMapping,
    net (clock c) (resolve pageName) = Navigated (Some r) page ∧
    files c' !! mappingPath = Some (ImageMapping imageMapping) ∧
    ∀ k v, imageMapping !! k = Some v →
           ∃ i, imgSrcs page !! i = Some k ∧ v = imageName i.
Proof.
  unfold downloadPage, goto. intros Hrun.
  destruct (net (clock c) (resolve pageName)) as [message|[r|] page]; [done| |done].
  destruct (negb (Browser.status r =? 200)); [done|].
  cbn zeta iota beta in Hrun.
  match type of Hrun with
  | context [downloadImages net ?srcs 0 ?m ?n ?c2] =>
      destruct (downloadImages_effects net srcs 0 m n c2) as (_ & _ & Hmap);
        destruct (downloadImages net srcs 0 m n c2) as [[m' n'] c3]
  end.
  cbn in Hmap. injection Hrun as <-.
  exists r, page, m'. split; [done|]. split.
  - cbn. apply lookup_insert_eq.
  - intros k v Hkv. destruct (Hmap k v Hkv) as [Hin|Hin]; [|done].
    by rewrite lookup_empty in Hin.
Qed.

(** X25: [downloadPage] succeeds exactly when the navigation resolves
    to a response with status 200; otherwise it makes that one
    navigation and leaves the file system as it was. *)
Theorem clone_failure_writes_nothing (net : Net) (resolve : string → string)
    (pageName : string) (c : Clone) :
  let result := downloadPage net resolve pageName c in
  (result.1 = true ↔
   ∃ r page, net (clock c) (resolve pageName) = Navigated (Some r) page ∧
             Browser.status r = 200) ∧
  (result.1 = false →
   files result.2 = files c ∧
   events result.2 = events c ++ [Goto (resolve pageName)]).
Proof.
  unfold downloadPage, goto.
  destruct (net (clock c) (resolve pageName)) as [message|[r|] page]; cbn.
  - split; [|done]. split; [done|]. by intros (? & ? & ? & _).
  - destruct (Browser.status r =? 200) eqn:Hstatus; cbn.
    + destruct (downloadImages net (imgSrcs page) 0 ∅ 0 _) as [[m n] c3]. cbn.
      split; [|done]. split; [|done]. intros _.
      exists r, page. split; [done|]. by apply Nat.eqb_eq.
    + split; [|done]. split; [done|].
      intros (r' & page' & [= <- _] & Hr). apply Nat.eqb_neq in Hstatus. done.
  - split; [|done]. split; [done|]. by intros (? & ? & ? & _).
Qed.

(** A page that is saved writes the image mapping once, at the end; a
    page that is not writes nothing. *)
Lemma downloadPage_written net resolve pageName c :
  let result := downloadPage net resolve pageName c in
  ∃ new,
    events result.2 = events c ++ new ∧
    length (filter (λ p, p = mappingPath) (written new)) = (if result.1 then 1 else 0).
Proof.
  unfold downloadPage, goto.
  destruct (net (clock c) (resolve pageName)) as [message|[r|] page]; cbn.
  - by exists [Goto (resolve pageName)].
  - destruct (Browser.status r =? 200); cbn; [|by exists [Goto (resolve pageName)]].
    match goal with
    | |- context [downloadImages net ?srcs 0 ?m ?n ?c2] =>
        destruct (downloadImages_effects net srcs 0 m n c2) as (_ & (new & He & Hw) & _);
          destruct (downloadImages net srcs 0 m n c2) as [[m' n'] c3]
    end.
    cbn in He. cbn.
    exists ([Goto (resolve pageName);
             WriteFile (RobustDownloader.pathJoin [pagesDir; localFileName pageName])] ++
            new ++ [WriteFile mappingPath]).
    split; [by rewrite He, <-!app_assoc|].
    rewrite !written_app, !filter_app, !length_app.
    change (outputDir +:+ "/" +:+ "image_mapping.json") with mappingPath.
    assert (filter (λ p, p = mappingPath) (written new) = []) as ->.
    { induction Hw as [|p ps (i & _ & ->) _ IH]; [done|].
      rewrite filter_cons_False; [done|].
      intros Heq. by apply (mappingPath_imagePath i). }
    assert (filter (λ p, p = mappingPath)
              (written [Goto (resolve pageName);
                        WriteFile (RobustDownloader.pathJoin
                                     [pagesDir; localFileName pageName])]) = []) as ->.
    { change (written _)
        with [RobustDownloader.pathJoin [pagesDir; localFileName pageName]].
      rewrite filter_cons_False; [done|].
      intros Heq. by apply (mappingPath_pagePath (localFileName pageName)). }
    assert (filter (λ p, p = mappingPath) (written [WriteFile mappingPath]) =
            [mappingPath]) as ->.
    { change (written _) with [mappingPath]. by rewrite filter_cons_True. }
    done.
  - by exists [Goto (resolve pageName)].
Qed.

Lemma cloneLoop_counts net resolve :
  ∀ pages counts c,
    let result := cloneLoop net resolve pages counts c in
    successCount result.1 + failCount result.1 =
      successCount counts + failCount counts + length pages ∧
    ∃ new,
      events result.2 = events c ++ new ∧
      successCount counts + length (filter (λ p, p = mappingPath) (written new)) =
        successCount result.1.
Proof.
  induction pages as [|pageName rest IH]; intros counts c.
  { cbn. split; [lia|]. exists []. rewrite app_nil_r. cbn. split; [done|lia]. }
  cbn [cloneLoop].
  destruct (downloadPage_written net resolve pageName c) as (new1 & He1 & Hw1).
  destruct (downloadPage net resolve pageName c) as [success c1].
  cbn in He1, Hw1. cbn zeta.
  match goal with
  | |- context [cloneLoop net resolve rest ?counts' ?c2] =>
      destruct (IH counts' c2) as (Hsum & new & He & Hw);
        destruct (cloneLoop net resolve rest counts' c2) as [counts'' c3]
  end.
  cbn in Hsum, He, Hw |- *. split.
  - destruct success; cbn in Hsum; lia.
  - exists (new1 ++ [Sleep delayBetweenPages] ++ new).
    split; [by rewrite He, He1, <-!app_assoc|].
    rewrite !written_app, !filter_app, !length_app. cbn.
    destruct success; cbn in Hw; lia.
Qed.

(** X26: [main] does nothing unless the answer is "y" in either case;
    when it runs, [successCount + failCount] is the number of pages and
    [successCount] is the number of times the image mapping was
    written. *)
Theorem clone_counts (net : Net) (resolve : string → string) (pages : list string)
    (answer : string) (c : Clone) (counts : Summary) (c' : Clone) :
  main net resolve pages answer c = Some (counts, c') →
  JS.mapChars JS.lowerChar answer = "y" ∧
  successCount counts + failCount counts = length pages ∧
  ∃ new,
    events c' = events c ++ new ∧
    length (filter (λ p, p = mappingPath) (written new)) = successCount counts.
Proof.
  unfold main. case_bool_decide as Hanswer; [|done].
  intros [= Hrun]. split; [done|].
  destruct (cloneLoop_counts net resolve pages {| successCount := 0; failCount := 0 |} c)
    as (Hsum & new & He & Hw).
  rewrite Hrun in Hsum, He, Hw.
  cbn [fst snd successCount failCount] in Hsum, He, Hw.
  split; [lia|]. exists new. split; [done|lia].
Qed.

Lemma clone_images_named_by_position_witness :
  files MoreScenarios.afterHonours !! "web/assets/images/img0.gif" =
    Some (Image [Byte.x47]) ∧
  ∃ c',
    downloadPage MoreScenarios.cloneSite MoreScenarios.cloneResolve "top25/"
      MoreScenarios.afterHonours = (true, c') ∧
    files c' !! "web/assets/images/img0.gif" = Some (Image [Byte.x49]).
Proof.
  split; [vm_compute; reflexivity|].
  destruct (clone_images_named_by_position MoreScenarios.cloneSite
              MoreScenarios.cloneResolve "top25/" MoreScenarios.afterHonours
              {| Browser.status := 200; Browser.buffer := [] |}
              {| content := "<html></html>";
                 imgSrcs := ["https://0002n8y.wcomhost.com/website/top25/ball.gif"] |}
              "https://0002n8y.wcomhost.com/website/top25/ball.gif" []
              {| Browser.status := 200; Browser.buffer := [Byte.x49] |}
              {| content := ""; imgSrcs := [] |})
    as (c' & Hrun & Hpath & Hfile).
  - vm_compute. reflexivity.
  - reflexivity.
  - reflexivity.
  - discriminate.
  - vm_compute. reflexivity.
  - reflexivity.
  - exists c'. split; [exact Hrun|]. rewrite <-Hpath. exact Hfile.
Defined.

Lemma clone_mapping_of_one_page_witness :
  ∃ r page imageMapping,
    MoreScenarios.cloneSite 0 (MoreScenarios.cloneResolve "honours/") =
      Navigated (Some r) page ∧
    files (downloadPage MoreScenarios.cloneSite MoreScenarios.cloneResolve
             "honours/" start).2 !! mappingPath = Some (ImageMapping imageMapping) ∧
    ∀ k v, imageMapping !! k = Some v →
           ∃ i, imgSrcs page !! i = Some k ∧ v = imageName i.
Proof.
  apply (clone_mapping_of_one_page MoreScenarios.cloneSite MoreScenarios.cloneResolve
           "honours/" start).
  vm_compute. reflexivity.
Defined.

Lemma clone_failure_writes_nothing_witness :
  (downloadPage MoreScenarios.cloneSite MoreScenarios.cloneResolve "fixtures/" start).1 =
    false ∧
  files (downloadPage MoreScenarios.cloneSite MoreScenarios.cloneResolve
           "fixtures/" start).2 = files start.
Proof.
  destruct (clone_failure_writes_nothing MoreScenarios.cloneSite
              MoreScenarios.cloneResolve "fixtures/" start) as (_ & Hfail).
  split; [vm_compute; reflexivity|].
  apply Hfail. vm_compute. reflexivity.
Defined.

Lemma clone_counts_witness :
  ∃ counts c',
    main MoreScenarios.cloneSite MoreScenarios.cloneResolve
      ["honours/"; "fixtures/"; "top25/"] "Y" start = Some (counts, c') ∧
    successCount counts = 2 ∧ failCount counts = 1.
Proof.
  eexists _, _. split; [vm_compute; reflexivity|].
  match goal with
  | |- successCount ?counts = _ ∧ _ =>
      destruct (clone_counts MoreScenarios.cloneSite MoreScenarios.cloneResolve
                  ["honours/"; "fixtures/"; "top25/"] "Y" start counts
                  (cloneLoop MoreScenarios.cloneSite MoreScenarios.cloneResolve
                     ["honours/"; "fixtures/"; "top25/"]
                     {| successCount := 0; failCount := 0 |} start).2)
        as (_ & Hsum & _); [vm_compute; reflexivity|]
  end.
  split; reflexivity.
Defined.

End BrowserCloneFacts.
